(** * fastdns: the DNS wire codec of message.go and request.go

    A shallow embedding of the message codec (ParseMessage, DecodeName,
    VisitResourceRecords, VisitAdditionalRecords, SetQustion,
    AppendMessage) and of the older request codec (ParseRequest,
    AppendRequest), with the properties of the codec stated and proved
    over it.

    Conventions.
    - A Go [byte], [uint16], [uint32] or [int] value is a binary natural
      number ([N]); conversions that can lose bits ([byte(x)], arithmetic
      in [uint16]) are written out as [to_byte], [to_uint16], [to_uint32].
    - A [[]byte] is a [list N]; positions and lengths are [nat].
    - A Go function that can panic returns an [outcome]; loops whose
      termination is not structural take an explicit iteration budget and
      answer [OutOfFuel] when it is used up.
    - A message is a value; what its slices share with one another is an
      argument of the function that depends on it: the spare capacity of
      [Raw] for DecodeName, the place of [Question.Name] in the array
      behind [Raw] for ParseMessage. *)

From Stdlib Require Import NArith ZArith Lia String Ascii.
From stdpp Require Import base list.

(** ** Outcomes of a Go call *)

Inductive panic :=
  | IndexOutOfRange
  | SliceBoundsOutOfRange
  | NotImplemented.

Inductive outcome (A : Type) :=
  | Returns (a : A)
  | Panics (p : panic)
  | OutOfFuel.

Arguments Returns {A} a.
Arguments Panics {A} p.
Arguments OutOfFuel {A}.

Definition obind {A B} (c : outcome A) (k : A -> outcome B) : outcome B :=
  match c with
  | Returns a => k a
  | Panics p => Panics p
  | OutOfFuel => OutOfFuel
  end.

Notation "'do' x <- c ; k" := (obind c (fun x => k))
  (at level 10, x name, c at level 100, k at level 200).

(** The three error values declared by message.go. *)
Inductive error :=
  | ErrInvalidHeader
  | ErrInvalidQuestion
  | ErrInvalidAnswer.

(** ** Machine integers and slices *)

Definition to_byte (x : N) : N := (x mod 256)%N.
Definition to_uint16 (x : N) : N := (x mod 65536)%N.
Definition to_uint32 (x : N) : N := (x mod 4294967296)%N.

(** The byte ['.'] *)
Definition dot : N := 46%N.

(** [s[i]]: a bounds-checked read. *)
Definition index (s : list N) (i : nat) : outcome N :=
  match s !! i with
  | Some b => Returns b
  | None => Panics IndexOutOfRange
  end.

(** [s[lo:hi]], with the upper bound checked against the length. Go checks
    it against the capacity; [slice] is used where the two checks give the
    same outcome, and [slice_cap] below where they can differ. *)
Definition slice (s : list N) (lo hi : nat) : outcome (list N) :=
  if (lo <=? hi)%nat && (hi <=? length s)%nat
  then Returns (take (hi - lo) (drop lo s))
  else Panics SliceBoundsOutOfRange.

(** [s[lo:]] *)
Definition slice_from (s : list N) (lo : nat) : outcome (list N) :=
  if (lo <=? length s)%nat then Returns (drop lo s)
  else Panics SliceBoundsOutOfRange.

(** [uint16(hi)<<8 | uint16(lo)], the big-endian 16-bit read used
    throughout both codecs. *)
Definition be16 (hi lo : N) : N :=
  N.lor (to_uint16 (N.shiftl (to_uint16 hi) 8)) (to_uint16 lo).

(** [uint32(a)<<24 | uint32(b)<<16 | uint32(c)<<8 | uint32(d)] *)
Definition be32 (a b c d : N) : N :=
  N.lor (N.lor (N.lor (to_uint32 (N.shiftl (to_uint32 a) 24))
                      (to_uint32 (N.shiftl (to_uint32 b) 16)))
               (to_uint32 (N.shiftl (to_uint32 c) 8)))
        (to_uint32 d).

(** The bytes of a Go string. *)
Fixpoint bytes_of_string (s : string) : list N :=
  match s with
  | EmptyString => []
  | String c rest => N_of_ascii c :: bytes_of_string rest
  end.

(** ** message.go: the data model *)

Record MessageHeader := mkHeader {
  ID : N;
  Bits : N;
  QDCount : N;
  ANCount : N;
  NSCount : N;
  ARCount : N
}.

(** [Name] is [None] for a nil slice. *)
Record MessageQuestion := mkQuestion {
  Name : option (list N);
  Type_ : N;
  Class_ : N
}.

Record Message := mkMessage {
  Raw : list N;
  Domain : list N;
  Header : MessageHeader;
  Question : MessageQuestion
}.

Definition name_bytes (msg : Message) : list N :=
  default [] (Name (Question msg)).

(** The flags of the 16-bit word [Header.Bits], by the layout drawn at the
    field's declaration:
    QR(1) Opcode(4) AA(1) TC(1) RD(1) RA(1) Z(3) RCODE(4), most
    significant bit first. *)
Definition bits_QR (b : N) : N := N.land (N.shiftr b 15) 1.
Definition bits_Opcode (b : N) : N := N.land (N.shiftr b 11) 15.
Definition bits_AA (b : N) : N := N.land (N.shiftr b 10) 1.
Definition bits_TC (b : N) : N := N.land (N.shiftr b 9) 1.
Definition bits_RD (b : N) : N := N.land (N.shiftr b 8) 1.
Definition bits_RA (b : N) : N := N.land (N.shiftr b 7) 1.
Definition bits_Z (b : N) : N := N.land (N.shiftr b 4) 7.
Definition bits_RCODE (b : N) : N := N.land b 15.

(** ** ParseMessage *)

(** [for i, b = range payload { if b == 0 { break } }]: the value of [i]
    after the loop. [cur] is the value [i] holds so far, [next] the index
    of the head of [payload]. *)
Fixpoint range_until_zero (cur next : nat) (payload : list N) : nat :=
  match payload with
  | [] => cur
  | b :: rest =>
      if (b =? 0)%N then next else range_until_zero next (S next) rest
  end.

(** [for payload[i] != 0 { j := int(payload[i]); payload[i] = '.';
    i += j + 1 }]. The loop rewrites the length bytes of a label sequence into dots, in
    place. [fuel] bounds the number of further iterations. *)
Fixpoint dots_in_place (fuel : nat) (payload : list N) (i : nat)
  : outcome (list N) :=
  match payload !! i with
  | None => Panics IndexOutOfRange
  | Some b =>
      if (b =? 0)%N then Returns payload
      else match fuel with
           | O => OutOfFuel
           | S fuel' =>
               dots_in_place fuel' (<[i := dot]> payload) (i + N.to_nat b + 1)
           end
  end.

(** [payload[:len(payload)-1]] *)
Definition drop_last (payload : list N) : outcome (list N) :=
  match length payload with
  | O => Panics SliceBoundsOutOfRange
  | S n => Returns (take n payload)
  end.

(** Where [Question.Name] points when ParseMessage is called. A Go slice is
    a view of an array, and a message is reused from call to call: the
    name that ParseMessage sets when copying, and the one SetQustion sets,
    is a view of the array behind [Raw]. [ViewOfRaw offset spare] says
    that [Question.Name] starts [offset] bytes into that array, which
    holds the bytes of [Raw] and then, up to its capacity, [spare].
    [Detached] says that [Question.Name] is nil or a view of memory that
    the array behind [Raw] has no part in. *)
Inductive name_alias :=
  | Detached
  | ViewOfRaw (offset : nat) (spare : list N).

(** [dst.Raw = append(dst.Raw[:0], payload...)]: what [Question.Name]
    reads afterwards. A payload that fits the capacity is written over
    the array in place, from its start, under a name that is a view of
    it; a longer one goes to a new array and leaves the old one as it
    was. *)
Definition name_after_copy (alias : name_alias) (dst : Message)
    (payload : list N) : option (list N) :=
  match alias, Name (Question dst) with
  | ViewOfRaw offset spare, Some name =>
      let array := Raw dst ++ spare in
      if (length payload <=? length array)%nat
      then Some (take (length name)
                      (drop offset
                            (payload ++ drop (length payload) array)))
      else Some name
  | _, name => name
  end.

(** The question of [dst] after the first statement of ParseMessage,
    [if copying { dst.Raw = append(dst.Raw[:0], payload...) }]. *)
Definition question_after_copy (alias : name_alias) (dst : Message)
    (payload : list N) (copying : bool) : MessageQuestion :=
  if copying
  then mkQuestion (name_after_copy alias dst payload)
                  (Type_ (Question dst)) (Class_ (Question dst))
  else Question dst.

Definition ParseMessage (alias : name_alias) (dst : Message)
    (payload : list N) (copying : bool)
  : outcome (Message * option error) :=
  let raw := if copying then payload else Raw dst in
  let question := question_after_copy alias dst payload copying in
  if (length payload <? 12)%nat then
    Returns (mkMessage raw (Domain dst) (Header dst) question,
             Some ErrInvalidHeader)
  else
    do p0 <- index payload 0;
    do p1 <- index payload 1;
    do p2 <- index payload 2;
    do p3 <- index payload 3;
    do p4 <- index payload 4;
    do p5 <- index payload 5;
    do p6 <- index payload 6;
    do p7 <- index payload 7;
    do p8 <- index payload 8;
    do p9 <- index payload 9;
    do p10 <- index payload 10;
    do p11 <- index payload 11;
    let hdr := mkHeader (be16 p0 p1) (be16 p2 p3) (be16 p4 p5)
                        (be16 p6 p7) (be16 p8 p9) (be16 p10 p11) in
    if negb (QDCount hdr =? 1)%N then
      Returns (mkMessage raw (Domain dst) hdr question,
               Some ErrInvalidHeader)
    else
      (* QNAME *)
      do payload <- slice_from payload 12;
      let i := range_until_zero 0 0 payload in
      if (i =? 0)%nat || (length payload <? i + 5)%nat then
        Returns (mkMessage raw (Domain dst) hdr question,
                 Some ErrInvalidQuestion)
      else
        do name <- slice payload 0 (i + 1);
        (* QTYPE, QCLASS *)
        do payload <- slice_from payload i;
        do c4 <- index payload 4;
        do c3 <- index payload 3;
        let class :=
          N.lor (to_uint16 c4) (to_uint16 (N.shiftl (to_uint16 c3) 8)) in
        do t2 <- index payload 2;
        do t1 <- index payload 1;
        let type :=
          N.lor (to_uint16 t2) (to_uint16 (N.shiftl (to_uint16 t1) 8)) in
        (* Domain *)
        do n0 <- index name 0;
        do tail <- slice_from name 1;
        do payload <- dots_in_place (length tail) tail (N.to_nat n0);
        do domain <- drop_last payload;
        Returns (mkMessage raw domain hdr (mkQuestion (Some name) type class),
                 None).

(** ** Message.DecodeName *)

(** [msg.Raw[lo:hi]]: Go checks the upper bound of a slice expression
    against the capacity, not the length. [spare] holds the bytes of the
    backing array of [Raw] between [len(Raw)] and [cap(Raw)]. *)
Definition slice_cap (raw spare : list N) (lo hi : nat) : outcome (list N) :=
  slice (raw ++ spare) lo hi.

(** [int(hi&0b00111111)<<8 + int(lo)], the target of a compression pointer. *)
Definition pointer_offset (hi lo : N) : nat :=
  N.to_nat (N.shiftl (N.land hi 63) 8 + lo).

(** The inner loop [for i := offset; i < len(msg.Raw); { ... }]. It
    returns the value of [offset] and of [dst] when the loop is left,
    through either [break] or the loop condition. *)
Fixpoint chase_labels (fuel : nat) (raw spare : list N) (offset i : nat)
    (dst : list N) : outcome (nat * list N) :=
  if (length raw <=? i)%nat then Returns (offset, dst)
  else
    do b <- index raw i;
    if (b =? 0)%N then Returns (O, dst ++ [0%N])
    else if (N.land b 192 =? 192)%N then
      do b1 <- index raw (i + 1);
      Returns (pointer_offset b b1, dst)
    else
      do label <- slice_cap raw spare i (i + N.to_nat b + 1);
      match fuel with
      | O => OutOfFuel
      | S fuel' =>
          chase_labels fuel' raw spare offset (i + N.to_nat b + 1)
                       (dst ++ label)
      end.

(** The outer loop [for offset != 0 { ... }]; [hops] bounds the number of
    times its body runs. *)
Fixpoint chase_pointers (hops : nat) (raw spare : list N) (offset : nat)
    (dst : list N) : outcome (list N) :=
  if (offset =? 0)%nat then Returns dst
  else match hops with
       | O => OutOfFuel
       | S hops' =>
           do r <- chase_labels (length raw) raw spare offset offset dst;
           chase_pointers hops' raw spare (fst r) (snd r)
       end.

(** The body of DecodeName after its fast path: the general,
    pointer-chasing decoder. *)
Definition DecodeName_general (hops : nat) (msg : Message) (spare : list N)
    (dst name : list N) : outcome (list N) :=
  let pos := length dst in
  do last <- index name (length name - 1);
  do r <- (if (last =? 0)%N then Returns (dst ++ name, O)
           else
             do pre <- slice name 0 (length name - 2);
             do hi <- index name (length name - 2);
             do lo <- index name (length name - 1);
             Returns (dst ++ pre, pointer_offset hi lo));
  do dst <- chase_pointers hops (Raw msg) spare (snd r) (fst r);
  let n := pos in
  do dst <- dots_in_place (length dst) dst pos;
  do rest <- slice dst (n + 1) (length dst - 1);
  Returns (take n dst ++ rest).

Definition DecodeName (hops : nat) (msg : Message) (spare : list N)
    (dst name : list N) : outcome (list N) :=
  if (length name <? 2)%nat then Returns dst
  else
    do n1 <- index name 1;
    do n0 <- index name 0;
    (* fast path for domain pointer *)
    if (n1 =? 12)%N && (n0 =? 192)%N then Returns (dst ++ Domain msg)
    else DecodeName_general hops msg spare dst name.

(** ** Message.VisitResourceRecords *)

(** The callback [f]: a Go closure, modelled with its captured state [S]
    passed in and out. It returns [false] to stop the iteration. *)
Definition callback (S : Type) : Type :=
  list N -> N -> N -> N -> list N -> S -> bool * S.

(** [for j, b := range payload { ... }]: the length of the record's name,
    [j+2] at a byte with both top bits set, [j+1] at a zero byte; [None]
    when the loop ends with [name] still nil. *)
Fixpoint find_name (payload : list N) (j : nat) : option nat :=
  match payload with
  | [] => None
  | b :: rest =>
      if (N.land b 192 =? 192)%N then Some (j + 2)
      else if (b =? 0)%N then Some (j + 1)
      else find_name rest (S j)
  end.

(** The loop [for i := uint16(0); i < msg.Header.ANCount; i++], with
    [count] iterations left. In the two slice expressions that take a name
    or the record data, Go checks the upper bound against the capacity;
    each is followed by [payload = payload[hi:]], which checks the same
    bound against the length before [f] is called, so checking against
    the length at once gives the same outcome. *)
Fixpoint visit_records {S : Type} (count : nat) (payload : list N)
    (f : callback S) (s : S) : outcome (option error * S) :=
  match count with
  | O => Returns (None, s)
  | S count' =>
      match find_name payload 0 with
      | None => Returns (Some ErrInvalidAnswer, s)
      | Some k =>
          do name <- slice payload 0 k;
          do payload <- slice_from payload k;
          do p0 <- index payload 0;
          do p1 <- index payload 1;
          let typ := be16 p0 p1 in
          do p2 <- index payload 2;
          do p3 <- index payload 3;
          let class := be16 p2 p3 in
          do p4 <- index payload 4;
          do p5 <- index payload 5;
          do p6 <- index payload 6;
          do p7 <- index payload 7;
          let ttl := be32 p4 p5 p6 p7 in
          do p8 <- index payload 8;
          do p9 <- index payload 9;
          let rdlength := be16 p8 p9 in
          let hi := N.to_nat (to_uint16 (10 + rdlength)) in
          do data <- slice payload 10 hi;
          do payload <- slice_from payload hi;
          let r := f name typ class ttl data s in
          if fst r then visit_records count' payload f (snd r)
          else Returns (None, snd r)
      end
  end.

Definition VisitResourceRecords {S : Type} (msg : Message) (f : callback S)
    (s : S) : outcome (option error * S) :=
  if (ANCount (Header msg) =? 0)%N then Returns (Some ErrInvalidAnswer, s)
  else
    do payload <- slice_from (Raw msg) (16 + length (name_bytes msg));
    visit_records (N.to_nat (ANCount (Header msg))) payload f s.

(** ** Message.VisitAdditionalRecords *)

Definition VisitAdditionalRecords {S : Type} (msg : Message) (f : callback S)
    (s : S) : outcome (option error * S) :=
  Panics NotImplemented.

(** ** Message.SetQustion *)

(** The segments of a domain between its dots. *)
Fixpoint split_dots (domain : list N) : list (list N) :=
  match domain with
  | [] => [[]]
  | b :: rest =>
      if (b =? dot)%N then [] :: split_dots rest
      else match split_dots rest with
           | [] => [[b]]
           | l :: ls => (b :: l) :: ls
           end
  end.

(** Modelled from the spec: EncodeDomain is called by SetQustion and is not
    among the sources. The spec's name codec says of encoding: emit
    length-prefixed labels by splitting on '.', writing a length byte
    followed by the label bytes for each segment, and a terminal zero
    byte. *)
Definition EncodeDomain (dst : list N) (domain : list N) : list N :=
  dst ++ flat_map (fun l => to_byte (N.of_nat (length l)) :: l)
                  (split_dots domain)
      ++ [0%N].

(** [rnd] is the value that [fastrandn(65536)] returns. *)
Definition SetQustion (rnd : N) (msg : Message) (domain : string)
    (typ class : N) : outcome Message :=
  (* random head id *)
  let id := to_uint16 rnd in
  (* QR = 0, RCODE=0, RD = 1 *)
  let bits := N.land (Bits (Header msg)) 0x7ff0 in
  let bits := N.lor bits 0x0100 in
  let header :=
    [ to_byte (N.shiftr id 8); to_byte (N.land id 0xff);
      to_byte (N.shiftr bits 8); to_byte (N.land bits 0xff);
      0; 1; 0; 0; 0; 0; 0; 0 ]%N in
  let raw := header in
  (* QNAME *)
  let raw := EncodeDomain raw (bytes_of_string domain) in
  do name <- slice raw (length header)
                   (length header + length (bytes_of_string domain) + 2);
  (* QTYPE *)
  let raw := raw ++ [to_byte (N.shiftr typ 8); to_byte (N.land typ 0xff)] in
  (* QCLASS *)
  let raw := raw ++ [to_byte (N.shiftr class 8); to_byte (N.land class 0xff)] in
  Returns (mkMessage raw (bytes_of_string domain)
                     (mkHeader id bits 1 0 0 0)
                     (mkQuestion (Some name) typ class)).

(** ** AppendMessage *)

(** [for k := j; k >= i; k-- { if dst[k] == '.' { dst[k] = n; n = 0 }
    else { n++ } }] with [count] iterations left, so that [k = i + count - 1]. *)
Fixpoint backfill (i count : nat) (dst : list N) (n : N) : outcome (list N) :=
  match count with
  | O => Returns dst
  | S count' =>
      let k := i + count' in
      do b <- index dst k;
      if (b =? dot)%N then backfill i count' (<[k := n]> dst) 0%N
      else backfill i count' dst (to_byte (n + 1))
  end.

Definition AppendMessage (dst : list N) (msg : Message) : outcome (list N) :=
  let h := Header msg in
  let q := Question msg in
  let header :=
    [ to_byte (N.shiftr (ID h) 8); to_byte (N.land (ID h) 0xff);
      to_byte (N.shiftr (Bits h) 8); to_byte (N.land (Bits h) 0xff);
      to_byte (N.shiftr (QDCount h) 8); to_byte (N.land (QDCount h) 0xff);
      to_byte (N.shiftr (ANCount h) 8); to_byte (N.land (ANCount h) 0xff);
      to_byte (N.shiftr (NSCount h) 8); to_byte (N.land (NSCount h) 0xff);
      to_byte (N.shiftr (ARCount h) 8); to_byte (N.land (ARCount h) 0xff) ] in
  let dst := dst ++ header in
  (* question *)
  if negb (QDCount h =? 0)%N then
    (* QNAME *)
    do dst <- match Name q with
              | Some name => Returns (dst ++ name)
              | None =>
                  let i := length dst in
                  let j := i + length (Domain msg) in
                  let dst := dst ++ [dot] in
                  let dst := dst ++ Domain msg in
                  do dst <- backfill i (j + 1 - i) dst 0%N;
                  Returns (dst ++ [0%N])
              end;
    (* QTYPE *)
    let dst := dst ++ [to_byte (N.shiftr (Type_ q) 8);
                       to_byte (N.land (Type_ q) 0xff)] in
    (* QCLASS *)
    let dst := dst ++ [to_byte (N.shiftr (Class_ q) 8);
                       to_byte (N.land (Class_ q) 0xff)] in
    Returns dst
  else Returns dst.

(** ** request.go *)

Module Req.

Record RequestHeader := mkHeader {
  ID : N;
  QR : N;
  Opcode : N;
  AA : N;
  TC : N;
  RD : N;
  RA : N;
  Z : N;
  RCODE : N;
  QDCount : N;
  ANCount : N;
  NSCount : N;
  ARCount : N
}.

Record RequestQuestion := mkQuestion {
  Name : list N;
  Type_ : N;
  Class_ : N
}.

Record Request := mkRequest {
  Header : RequestHeader;
  Question : RequestQuestion
}.

Definition ParseRequest (dst : Request) (payload : list N)
  : outcome (Request * option error) :=
  if (length payload <? 12)%nat then Returns (dst, Some ErrInvalidHeader)
  else
    do _ <- index payload 11;
    (* ID *)
    do p1 <- index payload 1;
    do p0 <- index payload 0;
    let id := N.lor (to_uint16 p1) (to_uint16 (N.shiftl (to_uint16 p0) 8)) in
    (* RD, TC, AA, Opcode, QR *)
    do b <- index payload 2;
    let rd := N.land b 1 in
    let tc := N.land (N.shiftr b 1) 1 in
    let aa := N.land (N.shiftr b 2) 1 in
    let opcode := N.land (N.shiftr b 3) 15 in
    let qr := N.land (N.shiftr b 7) 1 in
    (* RA, Z, RCODE *)
    do b <- index payload 3;
    let rcode := N.land b 15 in
    let z := N.land (N.shiftr b 4) 7 in
    let ra := N.land (N.shiftr b 7) 1 in
    (* QDCOUNT, ANCOUNT, NSCOUNT, ARCOUNT *)
    do p4 <- index payload 4;
    do p5 <- index payload 5;
    do p6 <- index payload 6;
    do p7 <- index payload 7;
    do p8 <- index payload 8;
    do p9 <- index payload 9;
    do p10 <- index payload 10;
    do p11 <- index payload 11;
    let hdr := mkHeader id qr opcode aa tc rd ra z rcode
                        (be16 p4 p5) (be16 p6 p7) (be16 p8 p9)
                        (be16 p10 p11) in
    if negb (QDCount hdr =? 1)%N then
      Returns (mkRequest hdr (Question dst), Some ErrInvalidHeader)
    else
      (* QNAME *)
      do payload <- slice_from payload 12;
      let i := range_until_zero 0 0 payload in
      if (length payload <? i + 5)%nat then
        Returns (mkRequest hdr (Question dst), Some ErrInvalidQuestion)
      else
        do name <- slice payload 0 (i + 1);
        (* QTYPE, QCLASS *)
        do payload <- slice_from payload i;
        do c4 <- index payload 4;
        do c3 <- index payload 3;
        let class :=
          N.lor (to_uint16 c4) (to_uint16 (N.shiftl (to_uint16 c3) 8)) in
        do t2 <- index payload 2;
        do t1 <- index payload 1;
        let type :=
          N.lor (to_uint16 t2) (to_uint16 (N.shiftl (to_uint16 t1) 8)) in
        Returns (mkRequest hdr (mkQuestion name type class), None).

Definition AppendRequest (dst : list N) (req : Request) : list N :=
  let h := Header req in
  let q := Question req in
  (* QR, Opcode, AA, TC, RD *)
  let b := to_byte (N.shiftl (QR h) (7 - 0)) in
  let b := N.lor b (to_byte (N.shiftl (to_byte (Opcode h)) (7 - (1 + 3)))) in
  let b := N.lor b (to_byte (N.shiftl (AA h) (7 - 5))) in
  let b := N.lor b (to_byte (N.shiftl (TC h) (7 - 6))) in
  let b := N.lor b (RD h) in
  let header2 := b in
  (* RA, Z, RCODE *)
  let b := to_byte (N.shiftl (RA h) (7 - 0)) in
  let b := N.lor b (to_byte (N.shiftl (Z h) (7 - 1))) in
  let b := N.lor b (to_byte (N.shiftl (to_byte (RCODE h)) (7 - (4 + 3)))) in
  let header3 := b in
  let header :=
    [ to_byte (N.shiftr (ID h) 8); to_byte (N.land (ID h) 0xff);
      header2; header3;
      to_byte (N.shiftr (QDCount h) 8); to_byte (N.land (QDCount h) 0xff);
      to_byte (N.shiftr (ANCount h) 8); to_byte (N.land (ANCount h) 0xff);
      to_byte (N.shiftr (NSCount h) 8); to_byte (N.land (NSCount h) 0xff);
      to_byte (N.shiftr (ARCount h) 8); to_byte (N.land (ARCount h) 0xff) ] in
  let dst := dst ++ header in
  (* question *)
  if negb (QDCount h =? 0)%N then
    let dst := dst ++ Name q in
    let dst := dst ++ [to_byte (N.shiftr (Type_ q) 8);
                       to_byte (N.land (Type_ q) 0xff)] in
    dst ++ [to_byte (N.shiftr (Class_ q) 8);
            to_byte (N.land (Class_ q) 0xff)]
  else dst.

End Req.

(** ** Vocabulary of the statements *)

(** The wire form of a sequence of labels, without the terminating zero:
    each label is preceded by its length. *)
Definition encode_labels (labels : list (list N)) : list N :=
  flat_map (fun l => N.of_nat (length l) :: l) labels.

(** The labels joined by dots: a dot between any two neighbours, none
    before the first label and none after the last. *)
Fixpoint dot_join (labels : list (list N)) : list N :=
  match labels with
  | [] => []
  | [l] => l
  | l :: rest => l ++ dot :: dot_join rest
  end.

(** Every label preceded by a dot. *)
Definition dotted (labels : list (list N)) : list N :=
  flat_map (fun l => dot :: l) labels.

(** A label of a question name as ParseMessage delimits it: 1 to 63 bytes,
    none of them zero, so that the first zero byte after the header is the
    terminator of the name. *)
Definition wire_label (l : list N) : Prop :=
  1 <= length l <= 63 /\ Forall (fun b => b <> 0%N) l.

(** A label of a domain in text form: 1 to 63 bytes, no dot. *)
Definition text_label (l : list N) : Prop :=
  1 <= length l <= 63 /\ Forall (fun b => b <> dot) l.

(** A single-question packet: twelve header bytes with QDCOUNT = 1, the
    labels of QNAME, the terminating zero, QTYPE, QCLASS, and whatever
    follows the question. *)
Definition question_packet (id1 id2 f1 f2 an1 an2 ns1 ns2 ar1 ar2 : N)
    (labels : list (list N)) (t1 t2 c1 c2 : N) (rest : list N) : list N :=
  [id1; id2; f1; f2; 0; 1; an1; an2; ns1; ns2; ar1; ar2]%N
    ++ encode_labels labels ++ [0; t1; t2; c1; c2]%N ++ rest.

(** What the proofs about ParseMessage need of a label. *)
Definition label_ok (l : list N) : Prop :=
  l <> [] /\ Forall (fun b => b <> 0%N) l.

(** A name is free of compression pointers when the walk over its length
    bytes, from position [i], reaches the terminating zero without meeting
    a byte that has both top bits set. *)
Fixpoint pointer_free_from (fuel : nat) (name : list N) (i : nat) : bool :=
  match name !! i with
  | None => false
  | Some b =>
      if (b =? 0)%N then true
      else if (N.land b 192 =? 192)%N then false
      else match fuel with
           | O => false
           | S fuel' => pointer_free_from fuel' name (i + N.to_nat b + 1)
           end
  end.

Definition pointer_free (name : list N) : bool :=
  pointer_free_from (length name) name 0.

(** A label whose length byte is not a pointer byte. *)
Definition plain_label (l : list N) : Prop :=
  l <> [] /\ N.land (N.of_nat (length l)) 192 <> 192%N.

(** A resource record, as the callback of VisitResourceRecords receives
    it. *)
Record ResourceRecord := mkRR {
  rr_name : list N;
  rr_type : N;
  rr_class : N;
  rr_ttl : N;
  rr_data : list N
}.

(** The wire form of a record: NAME, then TYPE, CLASS, TTL and RDLENGTH
    in big-endian order, then RDATA. *)
Definition encode_record (r : ResourceRecord) : list N :=
  let len := N.of_nat (length (rr_data r)) in
  rr_name r
  ++ [ rr_type r / 256; rr_type r mod 256;
       rr_class r / 256; rr_class r mod 256;
       rr_ttl r / 16777216; (rr_ttl r / 65536) mod 256;
       (rr_ttl r / 256) mod 256; rr_ttl r mod 256;
       len / 256; len mod 256 ]%N
  ++ rr_data r.

(** A byte inside a label of a record name: not zero, since the first
    zero byte ends a name for this codec, and not a byte with both top
    bits set, which the wire format reads as the start of a compression
    pointer. *)
Definition label_byte (b : N) : Prop :=
  b <> 0%N /\ N.land b 192 <> 192%N.

(** The names of resource records: labels of 1 to 63 bytes, closed by the
    zero byte or by a two-byte compression pointer. *)
Inductive record_name : list N -> Prop :=
  | name_root : record_name [0%N]
  | name_pointer (p o : N) :
      N.land p 192 = 192%N -> record_name [p; o]
  | name_label (l name : list N) :
      1 <= length l <= 63 ->
      Forall label_byte l ->
      record_name name ->
      record_name (N.of_nat (length l) :: l ++ name).

Definition wire_record (r : ResourceRecord) : Prop :=
  record_name (rr_name r)
  /\ (rr_type r < 65536)%N
  /\ (rr_class r < 65536)%N
  /\ (rr_ttl r < 4294967296)%N.

(** The state a callback ends in when it is handed the records in order,
    up to and including the first one at which it answers [false]. *)
Fixpoint deliver {S : Type} (f : callback S) (records : list ResourceRecord)
    (s : S) : S :=
  match records with
  | [] => s
  | r :: rest =>
      let out := f (rr_name r) (rr_type r) (rr_class r) (rr_ttl r)
                   (rr_data r) s in
      if fst out then deliver f rest (snd out) else snd out
  end.

(** A callback that logs every call and never stops. *)
Definition log_call : callback (list ResourceRecord) :=
  fun name typ class ttl data log =>
    (true, log ++ [mkRR name typ class ttl data]).

(** A callback that logs every call and stops at the [n]-th. *)
Definition log_until (n : nat) : callback (list ResourceRecord) :=
  fun name typ class ttl data log =>
    ((S (length log) <? n)%nat, log ++ [mkRR name typ class ttl data]).


(** ** Concrete messages *)

Definition zero_message : Message :=
  mkMessage [] [] (mkHeader 0 0 0 0 0 0) (mkQuestion None 0 0).

(** A query for "example.com", type A, class IN, ID 0x1234, RD set. *)
Definition example_com_query : list N :=
  question_packet 0x12 0x34 1 0 0 0 0 0 0 0
    [bytes_of_string "example"; bytes_of_string "com"] 0 1 0 1 [].


(** The header that SetQustion writes, and the packet a single-question
    message serializes to. *)
Definition question_header_bytes (id bits : N) : list N :=
  [ to_byte (N.shiftr id 8); to_byte (N.land id 0xff);
    to_byte (N.shiftr bits 8); to_byte (N.land bits 0xff);
    0; 1; 0; 0; 0; 0; 0; 0 ]%N.

Definition message_packet (msg : Message) (labels : list (list N)) : list N :=
  let h := Header msg in
  let q := Question msg in
  question_packet
    (to_byte (N.shiftr (ID h) 8)) (to_byte (N.land (ID h) 0xff))
    (to_byte (N.shiftr (Bits h) 8)) (to_byte (N.land (Bits h) 0xff))
    (to_byte (N.shiftr (ANCount h) 8)) (to_byte (N.land (ANCount h) 0xff))
    (to_byte (N.shiftr (NSCount h) 8)) (to_byte (N.land (NSCount h) 0xff))
    (to_byte (N.shiftr (ARCount h) 8)) (to_byte (N.land (ARCount h) 0xff))
    labels
    (to_byte (N.shiftr (Type_ q) 8)) (to_byte (N.land (Type_ q) 0xff))
    (to_byte (N.shiftr (Class_ q) 8)) (to_byte (N.land (Class_ q) 0xff))
    [].

(** The message ParseMessage builds from [example_com_query]. *)
Definition example_com_message : Message :=
  mkMessage example_com_query
            (bytes_of_string "example.com")
            (mkHeader 0x1234 0x0100 1 0 0 0)
            (mkQuestion (Some ([7%N] ++ bytes_of_string "example" ++ [3%N]
                               ++ bytes_of_string "com" ++ [0%N])) 1 1).

(** One answer: name = pointer to offset 12, type A, class IN, ttl 300,
    rdata 8.8.8.8. *)
Definition example_com_answer : ResourceRecord :=
  mkRR [192; 12]%N 1 1 300 [8; 8; 8; 8]%N.

Definition example_com_response : Message :=
  mkMessage (question_packet 0x12 0x34 0x81 0x80 0 1 0 0 0 0
               [bytes_of_string "example"; bytes_of_string "com"] 0 1 0 1
               (encode_record example_com_answer))
            (bytes_of_string "example.com")
            (mkHeader 0x1234 0x8180 1 1 0 0)
            (mkQuestion (Some ([7%N] ++ bytes_of_string "example" ++ [3%N]
                               ++ bytes_of_string "com" ++ [0%N])) 1 1).

(** The same response cut after the name and nine of the ten bytes of
    TYPE, CLASS, TTL and RDLENGTH. *)
Definition truncated_fields_response : list N :=
  question_packet 0x12 0x34 0x81 0x80 0 1 0 0 0 0
    [bytes_of_string "example"; bytes_of_string "com"] 0 1 0 1
    [192; 12; 0; 1; 0; 1; 0; 0; 1; 44; 0]%N.

(** The same response cut after two of the four bytes that RDLENGTH
    announces. *)
Definition truncated_rdata_response : list N :=
  question_packet 0x12 0x34 0x81 0x80 0 1 0 0 0 0
    [bytes_of_string "example"; bytes_of_string "com"] 0 1 0 1
    [192; 12; 0; 1; 0; 1; 0; 0; 1; 44; 0; 4; 8; 8]%N.

(** A response to a query for "a" whose answer, at offset 19, is named by
    a compression pointer to offset 19: the pointer points at itself. *)
Definition self_pointer_packet : list N :=
  [0; 1; 0x81; 0x80; 0; 1; 0; 1; 0; 0; 0; 0;
   1; 97; 0; 0; 1; 0; 1;
   192; 19; 0; 1; 0; 1; 0; 0; 1; 44; 0; 4; 8; 8; 8; 8]%N.

(** A message whose flag word has AA set. *)
Definition aa_message : Message :=
  mkMessage [] [] (mkHeader 0 0x0400 0 0 0 0) (mkQuestion None 0 0).

(** A single-question message whose domain is one label of three bytes,
    the second of them zero. *)
Definition nul_label_message : Message :=
  mkMessage [] [97; 0; 98]%N (mkHeader 0x1234 0x0100 1 0 0 0)
            (mkQuestion None 1 1).

Definition empty_request : Req.Request :=
  Req.mkRequest (Req.mkHeader 0 0 0 0 0 0 0 0 0 0 0 0 0)
                (Req.mkQuestion [] 0 0).

(** A query with RD = 1 and Z = 1, every other flag zero. *)
Definition z_request : Req.Request :=
  Req.mkRequest (Req.mkHeader 0x1234 0 0 0 0 1 0 1 0 1 0 0 0)
                (Req.mkQuestion [1; 97; 0]%N 1 1).

(** A query whose name is the one label [0x2E, 'a']: a label of two
    non-zero bytes, the first of them a dot. *)
Definition dot_label_query : list N :=
  question_packet 0x12 0x34 1 0 0 0 0 0 0 0 [[46; 97]%N] 0 1 0 1 [].







(** A query cut inside its name: sixteen bytes, and no zero byte after
    the header. *)
Definition unterminated_query : list N :=
  [0x12; 0x34; 1; 0; 0; 1; 0; 0; 0; 0; 0; 0; 1; 97; 1; 98]%N.

(** ** Vocabulary of the further properties *)

(** A byte value. *)
Definition is_byte (b : N) : Prop := (b < 256)%N.

(** [payload[k]] for an index known to be in range. *)
Definition byte_at (payload : list N) (k : nat) : N :=
  default 0%N (payload !! k).

(** The QDCOUNT field of a payload of at least six bytes. *)
Definition qdcount_of (payload : list N) : N :=
  be16 (byte_at payload 4) (byte_at payload 5).

(** The header fields of a payload of at least twelve bytes. *)
Definition header_of (payload : list N) : MessageHeader :=
  mkHeader (be16 (byte_at payload 0) (byte_at payload 1))
           (be16 (byte_at payload 2) (byte_at payload 3))
           (be16 (byte_at payload 4) (byte_at payload 5))
           (be16 (byte_at payload 6) (byte_at payload 7))
           (be16 (byte_at payload 8) (byte_at payload 9))
           (be16 (byte_at payload 10) (byte_at payload 11)).

(** The bytes [q] after the header split at their first zero byte, with
    room for QTYPE and QCLASS behind it. *)
Definition question_split (q body rest : list N) : Prop :=
  q = body ++ 0%N :: rest
  /\ Forall (fun b => b <> 0%N) body
  /\ 4 <= length rest.

(** The bytes [q] after the header start with the wire form of [labels]. *)
Definition question_labelled (q : list N) (labels : list (list N))
    (rest : list N) : Prop :=
  labels <> []
  /\ Forall label_ok labels
  /\ q = encode_labels labels ++ 0%N :: rest
  /\ 4 <= length rest.

(** The twelve bytes AppendMessage writes for a header. *)
Definition header_bytes (h : MessageHeader) : list N :=
  [ to_byte (N.shiftr (ID h) 8); to_byte (N.land (ID h) 0xff);
    to_byte (N.shiftr (Bits h) 8); to_byte (N.land (Bits h) 0xff);
    to_byte (N.shiftr (QDCount h) 8); to_byte (N.land (QDCount h) 0xff);
    to_byte (N.shiftr (ANCount h) 8); to_byte (N.land (ANCount h) 0xff);
    to_byte (N.shiftr (NSCount h) 8); to_byte (N.land (NSCount h) 0xff);
    to_byte (N.shiftr (ARCount h) 8); to_byte (N.land (ARCount h) 0xff) ].

(** The segments, each behind its length cut to a byte. *)
Definition length_prefixed (segments : list (list N)) : list N :=
  flat_map (fun l => to_byte (N.of_nat (length l)) :: l) segments.

(** Whether a callback handed the records in order answers [true] to
    every one of them. *)
Fixpoint never_stops {S : Type} (f : callback S)
    (records : list ResourceRecord) (s : S) : bool :=
  match records with
  | [] => true
  | r :: rest =>
      let out := f (rr_name r) (rr_type r) (rr_class r) (rr_ttl r)
                   (rr_data r) s in
      fst out && never_stops f rest (snd out)
  end.

(** The message ParseMessage builds from a payload whose question holds
    [labels], followed by [rest]. *)
Definition parsed_message (dst : Message) (payload : list N) (copying : bool)
    (labels : list (list N)) (rest : list N) : Message :=
  mkMessage (if copying then payload else Raw dst)
            (dot_join labels)
            (header_of payload)
            (mkQuestion (Some (encode_labels labels ++ [0%N]))
                        (be16 (byte_at rest 0) (byte_at rest 1))
                        (be16 (byte_at rest 2) (byte_at rest 3))).

(** What ParseMessage leaves of [dst] when it reports an error: the
    payload in Raw when copying, the header words it has read, and the
    question as the copy has left it. *)
Definition rejected_message (alias : name_alias) (dst : Message)
    (payload : list N) (copying : bool) : Message :=
  mkMessage (if copying then payload else Raw dst)
            (Domain dst)
            (if (length payload <? 12)%nat then Header dst
             else header_of payload)
            (question_after_copy alias dst payload copying).

(** The header ParseRequest reads from a payload of at least twelve
    bytes: the flag bytes taken apart field by field. *)
Definition request_header_of (payload : list N) : Req.RequestHeader :=
  let b2 := byte_at payload 2 in
  let b3 := byte_at payload 3 in
  Req.mkHeader (be16 (byte_at payload 0) (byte_at payload 1))
               (N.land (N.shiftr b2 7) 1) (N.land (N.shiftr b2 3) 15)
               (N.land (N.shiftr b2 2) 1) (N.land (N.shiftr b2 1) 1)
               (N.land b2 1)
               (N.land (N.shiftr b3 7) 1) (N.land (N.shiftr b3 4) 7)
               (N.land b3 15)
               (be16 (byte_at payload 4) (byte_at payload 5))
               (be16 (byte_at payload 6) (byte_at payload 7))
               (be16 (byte_at payload 8) (byte_at payload 9))
               (be16 (byte_at payload 10) (byte_at payload 11)).

(** The flag fields of a request header are those of the 16-bit flag word
    [bits] of a message header. *)
Definition same_flags (h : Req.RequestHeader) (bits : N) : Prop :=
  Req.QR h = bits_QR bits /\ Req.Opcode h = bits_Opcode bits
  /\ Req.AA h = bits_AA bits /\ Req.TC h = bits_TC bits
  /\ Req.RD h = bits_RD bits /\ Req.RA h = bits_RA bits
  /\ Req.Z h = bits_Z bits /\ Req.RCODE h = bits_RCODE bits.

(** The four bytes AppendMessage and AppendRequest write for QTYPE and
    QCLASS. *)
Definition type_class_bytes (typ class : N) : list N :=
  [ to_byte (N.shiftr typ 8); to_byte (N.land typ 0xff);
    to_byte (N.shiftr class 8); to_byte (N.land class 0xff) ].

(** The bytes of QNAME that AppendMessage writes: [Question.Name] when it
    is not nil, and otherwise the segments of [Domain] between its dots,
    each behind its length, and a zero byte. *)
Definition qname_bytes (msg : Message) : list N :=
  match Name (Question msg) with
  | Some name => name
  | None => length_prefixed (split_dots (Domain msg)) ++ [0%N]
  end.

(** A check that every element of a list is a byte value. *)
Definition all_bytes (l : list N) : bool := forallb (fun b => (b <? 256)%N) l.

(** The two flag bytes AppendRequest packs from the fields of a header. *)
Definition request_flags2 (h : Req.RequestHeader) : N :=
  N.lor (N.lor (N.lor (N.lor
    (to_byte (N.shiftl (Req.QR h) (7 - 0)))
    (to_byte (N.shiftl (to_byte (Req.Opcode h)) (7 - (1 + 3)))))
    (to_byte (N.shiftl (Req.AA h) (7 - 5))))
    (to_byte (N.shiftl (Req.TC h) (7 - 6))))
    (Req.RD h).

Definition request_flags3 (h : Req.RequestHeader) : N :=
  N.lor (N.lor (to_byte (N.shiftl (Req.RA h) (7 - 0)))
               (to_byte (N.shiftl (Req.Z h) (7 - 1))))
        (to_byte (N.shiftl (to_byte (Req.RCODE h)) (7 - (4 + 3)))).

(** The request ParseRequest builds from [example_com_query]. *)
Definition example_com_request : Req.Request :=
  Req.mkRequest (Req.mkHeader 0x1234 0 0 0 0 1 0 0 0 1 0 0 0)
                (Req.mkQuestion ([7%N] ++ bytes_of_string "example" ++ [3%N]
                                 ++ bytes_of_string "com" ++ [0%N]) 1 1).

(** The test of DecodeName's fast path: the name starts with the bytes
    0xC0 and 12. *)
Definition question_pointer_prefix (name : list N) : Prop :=
  name !! 0 = Some 192%N /\ name !! 1 = Some 12%N.

(** The labels of "a.com". *)
Definition a_com_labels : list (list N) :=
  [bytes_of_string "a"; bytes_of_string "com"].

(** [msg] is a message of at most 65535 bytes whose answer section, right
    after the question, starts with the records [records], no more of
    them than ANCOUNT says, followed by the bytes [rest]. *)
Definition answers_then (msg : Message) (records : list ResourceRecord)
    (rest : list N) : Prop :=
  Forall wire_record records
  /\ (N.of_nat (length records) <= ANCount (Header msg))%N
  /\ (N.of_nat (length (Raw msg)) <= 65535)%N
  /\ exists question,
       Raw msg = question ++ flat_map encode_record records ++ rest
       /\ length question = 16 + length (name_bytes msg).

(** The message parsed from [self_pointer_packet]. *)
Definition self_pointer_message : Message :=
  mkMessage self_pointer_packet [97%N] (mkHeader 1 0x8180 1 1 0 0)
            (mkQuestion (Some [1; 97; 0]%N) 1 1).

(** [example_com_response] with ANCOUNT = 2 in its header and the one
    answer in its Raw. *)
Definition two_answers_claimed : Message :=
  mkMessage (Raw example_com_response) (Domain example_com_response)
            (mkHeader 0x1234 0x8180 1 2 0 0)
            (Question example_com_response).

(** The messages ParseMessage builds from the two truncated responses. *)
Definition truncated_fields_message : Message :=
  mkMessage truncated_fields_response (bytes_of_string "example.com")
            (mkHeader 0x1234 0x8180 1 1 0 0)
            (Question example_com_response).

Definition truncated_rdata_message : Message :=
  mkMessage truncated_rdata_response (bytes_of_string "example.com")
            (mkHeader 0x1234 0x8180 1 1 0 0)
            (Question example_com_response).

(** The body of the question name of [example_com_request]. *)
Definition example_com_body : list N :=
  encode_labels [bytes_of_string "example"; bytes_of_string "com"].

(** [example_com_message] with its Raw cut inside the label "com", after
    the byte 'c'. *)
Definition cut_label_message : Message :=
  mkMessage (take 22 example_com_query) (Domain example_com_message)
            (Header example_com_message) (Question example_com_message).

(** A message whose Raw ends with the first byte of a pointer. *)
Definition cut_pointer_message : Message :=
  mkMessage (take 12 example_com_query ++ [192%N])
            (Domain example_com_message)
            (Header example_com_message) (Question example_com_message).


(** * Proofs *)

(** ** Tactics *)

(** [lia] with division and remainder by constants. *)
Ltac lia_div := zify; Z.to_euclidean_division_equations; lia.

(** Take apart a successful run: the first step of [H] returned. *)
Ltac invert_bind_as H E :=
  match type of H with
  | obind ?c _ = Returns _ =>
      destruct c eqn:E; cbn [obind] in H; [|discriminate H|discriminate H]
  | (if ?b then _ else _) = Returns _ =>
      destruct b eqn:E; try discriminate H
  end.

Tactic Notation "invert_bind" hyp(H) "as" ident(E) := invert_bind_as H E.
Tactic Notation "invert_bind" hyp(H) :=
  let E := fresh "E" in invert_bind_as H E.

(** One step of a run that cannot use up its budget. *)
Ltac step_outcome :=
  match goal with
  | |- obind ?c _ <> OutOfFuel =>
      let E := fresh "E" in
      destruct c eqn:E; simpl; [|done|try done]
  | |- (if ?b then _ else _) <> OutOfFuel => destruct b
  | |- Returns _ <> OutOfFuel => done
  end.

(** Equalities between bit fields of width at most 4, bit by bit. *)
Ltac field_bits :=
  apply N.bits_inj; intros n;
  repeat first [ rewrite N.land_spec | rewrite N.lor_spec
               | rewrite N.shiftr_spec' | rewrite N.bits_0 ];
  destruct (N.lt_ge_cases n 4) as [Hlow|Hhigh];
  [ assert (n = 0 \/ n = 1 \/ n = 2 \/ n = 3)%N as [-> | [-> | [-> | ->] ] ] by lia;
    cbn; rewrite ?andb_true_r, ?andb_false_r, ?orb_false_r, ?orb_true_r;
    reflexivity
  | repeat match goal with
           | |- context [N.testbit 1 n] =>
               replace (N.testbit 1 n) with false
                 by (symmetry; apply (N.ones_spec_high 1); lia)
           | |- context [N.testbit 7 n] =>
               replace (N.testbit 7 n) with false
                 by (symmetry; apply (N.ones_spec_high 3); lia)
           | |- context [N.testbit 15 n] =>
               replace (N.testbit 15 n) with false
                 by (symmetry; apply (N.ones_spec_high 4); lia)
           end;
    rewrite ?andb_false_r; reflexivity ].

(** ** Reads and slices *)

Lemma index_middle (l1 l2 : list N) b : index (l1 ++ b :: l2) (length l1) = Returns b.
Proof. unfold index. by rewrite list_lookup_middle. Qed.

Lemma index_app_l (l1 l2 : list N) i :
  i < length l1 -> index (l1 ++ l2) i = index l1 i.
Proof. intros Hi. unfold index. by rewrite lookup_app_l. Qed.

Lemma index_Returns s i b : index s i = Returns b -> s !! i = Some b.
Proof. unfold index. destruct (s !! i); [|done]. by intros [= ->]. Qed.

Lemma slice_from_app (l1 l2 : list N) : slice_from (l1 ++ l2) (length l1) = Returns l2.
Proof.
  unfold slice_from. rewrite length_app.
  destruct (Nat.leb_spec (length l1) (length l1 + length l2)); [|lia].
  by rewrite drop_app_length.
Qed.

Lemma slice_prefix (l1 l2 : list N) : slice (l1 ++ l2) 0 (length l1) = Returns l1.
Proof.
  unfold slice. rewrite length_app.
  destruct (Nat.leb_spec (length l1) (length l1 + length l2)); [|lia]. simpl.
  rewrite Nat.sub_0_r. rewrite drop_0. by rewrite take_app_length.
Qed.

Lemma slice_middle (a b c : list N) :
  slice (a ++ b ++ c) (length a) (length a + length b) = Returns b.
Proof.
  unfold slice. rewrite !length_app.
  destruct (Nat.leb_spec (length a) (length a + length b)); [|lia].
  destruct (Nat.leb_spec (length a + length b)
                         (length a + (length b + length c))); [|lia].
  simpl. rewrite drop_app_length.
  replace (length a + length b - length a) with (length b) by lia.
  by rewrite take_app_length.
Qed.

Lemma slice_from_Returns s lo r :
  slice_from s lo = Returns r -> lo <= length s /\ r = drop lo s.
Proof.
  unfold slice_from. destruct (Nat.leb_spec lo (length s)); [|done].
  intros [= <-]. done.
Qed.

Lemma slice_Returns s lo hi r :
  slice s lo hi = Returns r ->
  lo <= hi /\ hi <= length s /\ r = take (hi - lo) (drop lo s).
Proof.
  unfold slice.
  destruct (Nat.leb_spec lo hi); [|done].
  destruct (Nat.leb_spec hi (length s)); [|done].
  intros [= <-]. done.
Qed.

Lemma drop_last_snoc (l : list N) b : drop_last (l ++ [b]) = Returns l.
Proof.
  unfold drop_last. rewrite length_app. simpl.
  replace (length l + 1) with (S (length l)) by lia.
  by rewrite take_app_length.
Qed.

Lemma index_fuel s i : index s i <> OutOfFuel.
Proof. unfold index. by destruct (s !! i). Qed.

Lemma slice_fuel s lo hi : slice s lo hi <> OutOfFuel.
Proof. unfold slice. by destruct (_ && _). Qed.

Lemma slice_from_fuel s lo : slice_from s lo <> OutOfFuel.
Proof. unfold slice_from. by destruct (_ <=? _). Qed.

Lemma drop_last_fuel s : drop_last s <> OutOfFuel.
Proof. unfold drop_last. by destruct (length s). Qed.

(** ** Big-endian fields *)

Lemma lor_add_disjoint x lo k :
  (x mod 2 ^ k = 0 -> lo < 2 ^ k -> N.lor x lo = x + lo)%N.
Proof.
  intros Hx Hlo.
  rewrite <- N.lxor_lor, N.add_nocarry_lxor; try reflexivity.
  all: apply N.bits_inj; intros n; rewrite N.land_spec, N.bits_0.
  all: destruct (N.lt_ge_cases n k) as [Hn|Hn].
  all: try (rewrite <- (N.mod_pow2_bits_low x k n Hn), Hx, N.bits_0; reflexivity).
  all: rewrite <- (N.mod_small lo (2^k) Hlo), (N.mod_pow2_bits_high lo k n Hn).
  all: apply Bool.andb_false_r.
Qed.

Lemma be16_swap hi lo :
  N.lor (to_uint16 lo) (to_uint16 (N.shiftl (to_uint16 hi) 8)) = be16 hi lo.
Proof. unfold be16. apply N.lor_comm. Qed.

Lemma be16_div_mod t : (t < 65536)%N -> be16 (t / 256) (t mod 256) = t.
Proof.
  intros Ht. unfold be16, to_uint16.
  rewrite N.shiftl_mul_pow2.
  change (2 ^ 8)%N with 256%N.
  rewrite (lor_add_disjoint _ _ 8).
  - lia_div.
  - change (2 ^ 8)%N with 256%N. lia_div.
  - change (2 ^ 8)%N with 256%N. lia_div.
Qed.

Lemma be32_div_mod t :
  (t < 4294967296)%N ->
  be32 (t / 16777216) ((t / 65536) mod 256) ((t / 256) mod 256) (t mod 256) = t.
Proof.
  intros Ht. unfold be32, to_uint32.
  rewrite !N.shiftl_mul_pow2.
  change (2 ^ 8)%N with 256%N. change (2 ^ 16)%N with 65536%N.
  change (2 ^ 24)%N with 16777216%N.
  set (a := (t / 16777216)%N). set (b := ((t / 65536) mod 256)%N).
  set (c := ((t / 256) mod 256)%N). set (d := (t mod 256)%N).
  assert (a < 256 /\ b < 256 /\ c < 256 /\ d < 256)%N as (Ha & Hb & Hc & Hd)
    by (subst a b c d; repeat split; lia_div).
  replace ((a mod 4294967296 * 16777216) mod 4294967296)%N
    with (a * 16777216)%N by lia_div.
  replace ((b mod 4294967296 * 65536) mod 4294967296)%N
    with (b * 65536)%N by lia_div.
  replace ((c mod 4294967296 * 256) mod 4294967296)%N
    with (c * 256)%N by lia_div.
  replace (d mod 4294967296)%N with d by lia_div.
  rewrite (lor_add_disjoint (a * 16777216) (b * 65536) 24).
  2,3: change (2 ^ 24)%N with 16777216%N; lia_div.
  rewrite (lor_add_disjoint (a * 16777216 + b * 65536) (c * 256) 16).
  2,3: change (2 ^ 16)%N with 65536%N; lia_div.
  rewrite (lor_add_disjoint (a * 16777216 + b * 65536 + c * 256) d 8).
  2,3: change (2 ^ 8)%N with 256%N; lia_div.
  subst a b c d. lia_div.
Qed.

Lemma be16_bytes x :
  (x < 65536)%N -> be16 (to_byte (N.shiftr x 8)) (to_byte (N.land x 0xff)) = x.
Proof.
  intros Hx. rewrite N.shiftr_div_pow2.
  change 0xff%N with (N.ones 8). rewrite N.land_ones.
  change (2 ^ 8)%N with 256%N. unfold to_byte.
  rewrite N.Div0.mod_mod, (N.mod_small (x / 256)) by lia_div.
  by apply be16_div_mod.
Qed.

Lemma land_192_small n : (n < 128)%N -> N.land n 192 <> 192%N.
Proof.
  intros Hn E.
  assert (N.testbit (N.land n 192) 7 = true) as Hbit by by rewrite E.
  rewrite N.land_spec in Hbit. apply andb_true_iff in Hbit as [Hbit _].
  destruct (N.eq_dec n 0%N) as [->|Hn0]; [done|].
  rewrite N.bits_above_log2 in Hbit; [done|].
  apply N.log2_lt_pow2; [lia|]. change (2 ^ 7)%N with 128%N. lia.
Qed.

(** ** Labels, dots and length bytes *)

Lemma encode_labels_cons l ls :
  encode_labels (l :: ls) = N.of_nat (length l) :: l ++ encode_labels ls.
Proof. reflexivity. Qed.

Lemma dotted_cons l ls : dotted (l :: ls) = dot :: l ++ dotted ls.
Proof. reflexivity. Qed.

Lemma length_encode_dotted ls : length (encode_labels ls) = length (dotted ls).
Proof.
  induction ls as [|l ls IH]; [done|].
  rewrite encode_labels_cons, dotted_cons. simpl. rewrite !length_app. lia.
Qed.

Lemma length_encode_labels_pos ls :
  ls <> [] -> 0 < length (encode_labels ls).
Proof. destruct ls; [done|]. intros _. rewrite encode_labels_cons. simpl. lia. Qed.

Lemma length_labels_le_encode ls : length ls <= length (encode_labels ls).
Proof.
  induction ls as [|x ls IH]; [done|].
  rewrite encode_labels_cons. simpl. rewrite length_app. lia.
Qed.

Lemma dot_join_cons l ls : dot_join (l :: ls) = l ++ dotted ls.
Proof.
  revert l. induction ls as [|l' ls IH]; intros l.
  - simpl. by rewrite app_nil_r.
  - change (dot_join (l :: l' :: ls)) with (l ++ dot :: dot_join (l' :: ls)).
    by rewrite IH, dotted_cons.
Qed.

Lemma dotted_dot_join ls : ls <> [] -> dotted ls = dot :: dot_join ls.
Proof. destruct ls as [|l ls]; [done|]. intros _. by rewrite dot_join_cons. Qed.

Lemma dot_join_no_outer_dot ls :
  ls <> [] ->
  Forall (fun l => l <> [] /\ Forall (fun b => b <> dot) l) ls ->
  head (dot_join ls) <> Some dot /\ last (dot_join ls) <> Some dot.
Proof.
  intros Hne Hall. split.
  - destruct Hall as [|l ls [Hl Hd] _]; [done|].
    rewrite dot_join_cons. destruct Hd as [|b l Hb _]; [done|].
    simpl. congruence.
  - clear Hne. induction Hall as [|l ls [Hl Hd] Hall IH]; [done|].
    destruct ls as [|l' ls].
    + simpl. intros Hlast. apply last_Some_elem_of in Hlast.
      rewrite Forall_forall in Hd. by apply (Hd dot).
    + change (dot_join (l :: l' :: ls)) with (l ++ dot :: dot_join (l' :: ls)).
      rewrite last_app_cons, last_cons.
      destruct (last (dot_join (l' :: ls))) eqn:E; [done|].
      apply last_None in E. rewrite dot_join_cons in E.
      inversion Hall as [|? ? [Hl' _] _]; subst. by destruct l'.
Qed.

Lemma encode_labels_nonzero ls :
  Forall label_ok ls -> Forall (fun b => b <> 0%N) (encode_labels ls).
Proof.
  induction 1 as [|l ls [Hne Hl] _ IH]; [constructor|].
  rewrite encode_labels_cons. constructor.
  - destruct l; [done|]. simpl. lia.
  - by apply Forall_app.
Qed.

Lemma wire_label_ok l : wire_label l -> label_ok l.
Proof. intros [[H1 _] H0]. split; [|done]. destruct l; [simpl in H1; lia|done]. Qed.

Lemma plain_label_nonempty ls :
  Forall plain_label ls -> Forall (fun l => l <> []) ls.
Proof. intros H. eapply Forall_impl; [exact H|]. by intros l [? _]. Qed.

Lemma text_labels_dotfree labels :
  Forall text_label labels ->
  Forall (fun l => Forall (fun b => b <> dot) l /\ length l <= 63) labels.
Proof. intros H. eapply Forall_impl; [exact H|]. intros l [[_ ?] ?]. done. Qed.

Lemma text_labels_ok labels :
  Forall text_label labels ->
  Forall (Forall (fun b => b <> 0%N)) labels ->
  Forall label_ok labels.
Proof.
  intros Htext Hzero. apply Forall_forall. intros l Hl.
  rewrite Forall_forall in Htext, Hzero.
  split; [|by apply Hzero].
  destruct (Htext l Hl) as [[? _] _]. destruct l; [simpl in *; lia|done].
Qed.

Lemma split_dots_nonempty domain : split_dots domain <> [].
Proof.
  destruct domain as [|b domain]; [done|]. simpl.
  destruct (b =? dot)%N; [done|]. by destruct (split_dots domain).
Qed.

Lemma split_dots_label l : forall rest,
  Forall (fun b => b <> dot) l ->
  split_dots (l ++ dot :: rest) = l :: split_dots rest.
Proof.
  induction l as [|b l IH]; intros rest Hl; simpl.
  - done.
  - inversion Hl as [|? ? Hb Hl']; subst.
    destruct (N.eqb_spec b dot) as [|_]; [done|]. by rewrite IH.
Qed.

Lemma split_dots_last l :
  Forall (fun b => b <> dot) l -> split_dots l = [l].
Proof.
  induction 1 as [|b l Hb _ IH]; [done|]. simpl.
  destruct (N.eqb_spec b dot) as [|_]; [done|]. by rewrite IH.
Qed.

Lemma split_dots_dot_join labels :
  labels <> [] ->
  Forall (Forall (fun b => b <> dot)) labels ->
  split_dots (dot_join labels) = labels.
Proof.
  intros Hne Hall. induction Hall as [|l labels Hl Hall IH]; [done|].
  destruct labels as [|l' labels].
  - simpl. by apply split_dots_last.
  - change (dot_join (l :: l' :: labels)) with (l ++ dot :: dot_join (l' :: labels)).
    rewrite split_dots_label by done. f_equal. by apply IH.
Qed.

Lemma split_dots_dotfree domain :
  Forall (Forall (fun b => b <> dot)) (split_dots domain).
Proof.
  induction domain as [|b domain IH]; [by repeat constructor|]. simpl.
  destruct (N.eqb_spec b dot) as [|Hb]; [by constructor|].
  destruct (split_dots domain) as [|l ls]; [by repeat constructor|].
  inversion IH; subst. constructor; [by constructor|done].
Qed.

Lemma dot_join_split_dots domain : dot_join (split_dots domain) = domain.
Proof.
  induction domain as [|b domain IH]; [done|]. simpl.
  pose proof (split_dots_nonempty domain) as Hne.
  destruct (N.eqb_spec b dot) as [->|Hb].
  - destruct (split_dots domain) as [|l ls]; [done|].
    change (dot_join ([] :: l :: ls)) with (dot :: dot_join (l :: ls)).
    by rewrite IH.
  - destruct (split_dots domain) as [|l ls]; [done|].
    rewrite <- IH. by destruct ls.
Qed.

Lemma length_split_dots domain :
  length (flat_map (fun l => to_byte (N.of_nat (length l)) :: l)
                   (split_dots domain))
  = length domain + 1.
Proof.
  induction domain as [|b domain IH]; [done|]. simpl.
  destruct (b =? dot)%N; simpl.
  - rewrite IH. lia.
  - destruct (split_dots domain) as [|l ls] eqn:E.
    { by apply split_dots_nonempty in E. }
    simpl in *. rewrite length_app in *. lia.
Qed.

Lemma encode_split_labels labels :
  Forall (fun l => length l <= 63) labels ->
  flat_map (fun l => to_byte (N.of_nat (length l)) :: l) labels
  = encode_labels labels.
Proof.
  induction 1 as [|l labels Hl _ IH]; [done|].
  rewrite encode_labels_cons. simpl. rewrite IH. f_equal.
  unfold to_byte. apply N.mod_small. lia.
Qed.

(** ** ParseMessage *)

Lemma range_until_zero_app body rest cur next :
  Forall (fun b => b <> 0%N) body ->
  range_until_zero cur next (body ++ 0%N :: rest) = next + length body.
Proof.
  intros Hbody. revert cur next.
  induction Hbody as [|b body Hb _ IH]; intros cur next; simpl.
  - lia.
  - destruct (N.eqb_spec b 0); [done|]. rewrite IH. lia.
Qed.

Lemma range_until_zero_cases p : forall cur next,
  (exists body rest, p = body ++ 0%N :: rest /\ Forall (fun b => b <> 0%N) body
                     /\ range_until_zero cur next p = next + length body)
  \/ (p = [] /\ range_until_zero cur next p = cur)
  \/ (p <> [] /\ range_until_zero cur next p + 1 = next + length p).
Proof.
  induction p as [|b p IH]; intros cur next; [by right; left|].
  simpl. destruct (N.eqb_spec b 0) as [->|Hb].
  - left. exists [], p. simpl. repeat split; [constructor|lia].
  - destruct (IH next (S next)) as [(body & rest & -> & Hbody & Hi)|[[-> Hi]|[Hp Hi]]].
    + left. exists (b :: body), rest. simpl. repeat split; [by constructor|lia].
    + right; right. simpl in *. split; [done|lia].
    + right; right. split; [done|]. simpl. lia.
Qed.

(** The loop turns every length byte of a label sequence into a dot. *)
Lemma dots_in_place_labels ls : forall fuel pre suffix,
  Forall (fun l => l <> []) ls ->
  length ls <= fuel ->
  dots_in_place fuel (pre ++ encode_labels ls ++ 0%N :: suffix) (length pre)
  = Returns (pre ++ dotted ls ++ 0%N :: suffix).
Proof.
  induction ls as [|l ls IH]; intros fuel pre suffix Hls Hfuel.
  - simpl. destruct fuel; simpl; by rewrite list_lookup_middle.
  - inversion Hls as [|? ? Hl Hls']; subst.
    destruct fuel as [|fuel]; [simpl in Hfuel; lia|].
    rewrite encode_labels_cons, dotted_cons. simpl.
    rewrite list_lookup_middle by done.
    destruct (N.eqb_spec (N.of_nat (length l)) 0) as [E|_].
    { destruct l; [done|]. simpl in E. lia. }
    rewrite Nat2N.id.
    replace (length pre) with (length pre + 0) at 1 by lia.
    rewrite insert_app_r. simpl.
    specialize (IH fuel (pre ++ dot :: l) suffix Hls').
    rewrite length_app in IH. simpl in IH.
    replace (length pre + length l + 1) with (length pre + S (length l)) by lia.
    rewrite <- !app_assoc in IH. simpl in IH.
    rewrite <- !app_assoc. apply IH. simpl in Hfuel. lia.
Qed.

Lemma dots_in_place_name l ls :
  l <> [] -> Forall (fun l => l <> []) ls ->
  let tail := l ++ encode_labels ls ++ [0%N] in
  dots_in_place (length tail) tail (length l)
  = Returns (dot_join (l :: ls) ++ [0%N]).
Proof.
  intros Hl Hls tail. subst tail.
  rewrite dots_in_place_labels; [by rewrite dot_join_cons, <- app_assoc|done|].
  rewrite !length_app. simpl.
  pose proof (length_encode_dotted ls).
  assert (length ls <= length (encode_labels ls)); [|lia].
  clear. induction ls as [|x ls IH]; [done|].
  rewrite encode_labels_cons. simpl. rewrite length_app. lia.
Qed.

(** The budget [length payload] is never used up: [i] grows by at least
    one in every iteration. *)
Lemma dots_in_place_fuel fuel : forall payload i,
  length payload <= fuel + i -> dots_in_place fuel payload i <> OutOfFuel.
Proof.
  induction fuel as [|fuel IH]; intros payload i Hlen; simpl.
  - rewrite lookup_ge_None_2 by lia. done.
  - destruct (payload !! i) as [b|] eqn:E; [|done].
    destruct (b =? 0)%N; [done|].
    apply IH. rewrite length_insert. lia.
Qed.

(** ParseMessage on a single-question packet, in full. *)
Lemma ParseMessage_question_packet alias dst id1 id2 f1 f2 an1 an2 ns1 ns2 ar1 ar2
    labels t1 t2 c1 c2 rest copying :
  labels <> [] ->
  Forall label_ok labels ->
  let packet := question_packet id1 id2 f1 f2 an1 an2 ns1 ns2 ar1 ar2
                                labels t1 t2 c1 c2 rest in
  ParseMessage alias dst packet copying =
  Returns (mkMessage (if copying then packet else Raw dst)
                     (dot_join labels)
                     (mkHeader (be16 id1 id2) (be16 f1 f2) 1 (be16 an1 an2)
                               (be16 ns1 ns2) (be16 ar1 ar2))
                     (mkQuestion (Some (encode_labels labels ++ [0%N]))
                                 (be16 t1 t2) (be16 c1 c2)),
           None).
Proof.
  intros Hne Hok packet.
  unfold ParseMessage.
  replace (length packet <? 12) with false by done.
  subst packet. unfold question_packet.
  set (raw := if copying then _ else Raw dst).
  simpl. rewrite drop_0.
  rewrite range_until_zero_app by by apply encode_labels_nonzero.
  pose proof (length_encode_labels_pos labels Hne) as Hpos.
  simpl.
  destruct (Nat.eqb_spec (length (encode_labels labels)) 0) as [|_]; [lia|].
  rewrite length_app. simpl.
  destruct (Nat.ltb_spec (length (encode_labels labels) + S (S (S (S (S (length rest))))))
                         (length (encode_labels labels) + 5)) as [|_]; [lia|].
  simpl.
  replace (encode_labels labels ++ 0%N :: t1 :: t2 :: c1 :: c2 :: rest)
    with ((encode_labels labels ++ [0%N]) ++ t1 :: t2 :: c1 :: c2 :: rest)
    by by rewrite <- app_assoc.
  replace (length (encode_labels labels) + 1)
    with (length (encode_labels labels ++ [0%N]))
    by (rewrite length_app; simpl; lia).
  rewrite slice_prefix. simpl.
  rewrite <- app_assoc. simpl.
  rewrite slice_from_app. simpl.
  rewrite !be16_swap.
  destruct labels as [|l ls]; [done|].
  inversion Hok as [|? ? [Hl Hl0] Hls]; subst.
  rewrite encode_labels_cons. simpl.
  rewrite Nat2N.id.
  rewrite <- app_assoc.
  rewrite !drop_0. rewrite dots_in_place_name; [|done|].
  - simpl. rewrite drop_last_snoc. simpl. done.
  - eapply Forall_impl; [exact Hls|]. by intros ? [? _].
Qed.

(** What a successful ParseMessage has seen. *)
Lemma ParseMessage_ok_inv alias dst payload copying msg :
  ParseMessage alias dst payload copying = Returns (msg, None) ->
  exists body rest n0 buf,
    Raw msg = (if copying then payload else Raw dst)
    /\ 12 <= length payload
    /\ drop 12 payload = body ++ 0%N :: rest
    /\ Forall (fun b => b <> 0%N) body
    /\ 4 <= length rest
    /\ Name (Question msg) = Some (body ++ [0%N])
    /\ head body = Some n0
    /\ dots_in_place (length (drop 1 (body ++ [0%N]))) (drop 1 (body ++ [0%N]))
                     (N.to_nat n0) = Returns buf
    /\ drop_last buf = Returns (Domain msg).
Proof.
  unfold ParseMessage. intros H.
  invert_bind H as Hshort.
  do 12 invert_bind H.
  invert_bind H as Hqd.
  invert_bind H as Hp12.
  apply slice_from_Returns in Hp12 as [Hlen ->].
  invert_bind H as Hguard.
  apply orb_false_iff in Hguard as [Hi0 Hi5].
  apply Nat.eqb_neq in Hi0. apply Nat.ltb_ge in Hi5.
  destruct (range_until_zero_cases (drop 12 payload) 0 0)
    as [(body & rest & Hp & Hbody & Hi)|[[Hp Hi]|[Hp Hi]]]; [|lia|lia].
  rewrite Hi, Hp in *. simpl in Hi0, Hi5.
  rewrite length_app in Hi5. simpl in Hi5, H.
  invert_bind H as Hname.
  apply slice_Returns in Hname as (_ & _ & ->).
  rewrite Nat.sub_0_r, drop_0 in H.
  replace (body ++ 0%N :: rest) with ((body ++ [0%N]) ++ rest) in H
    by by rewrite <- app_assoc.
  replace (length body + 1) with (length (body ++ [0%N])) in H
    by (rewrite length_app; simpl; lia).
  rewrite take_app_length in H.
  do 5 invert_bind H.
  invert_bind H as Hn0. apply index_Returns in Hn0.
  invert_bind H as Htail. apply slice_from_Returns in Htail as [_ ->].
  invert_bind H as Hdots.
  invert_bind H as Hlast.
  injection H as <-.
  eexists body, rest, _, _. simpl.
  repeat split; try done; try lia.
  destruct body; [done|]. simpl in Hn0. by injection Hn0 as ->.
Qed.

(** ParseMessage always comes to an end: it returns or it panics. *)
Lemma ParseMessage_terminates alias dst payload copying :
  ParseMessage alias dst payload copying <> OutOfFuel.
Proof.
  unfold ParseMessage.
  repeat first
    [ step_outcome
    | match goal with
      | E : index _ _ = OutOfFuel |- _ => by apply index_fuel in E
      | E : slice _ _ _ = OutOfFuel |- _ => by apply slice_fuel in E
      | E : slice_from _ _ = OutOfFuel |- _ => by apply slice_from_fuel in E
      | E : drop_last _ = OutOfFuel |- _ => by apply drop_last_fuel in E
      | E : dots_in_place _ _ _ = OutOfFuel |- _ =>
          apply dots_in_place_fuel in E; [done|lia]
      end ].
Qed.

(** C2, amended. For every single-question packet of at least 12 bytes
    with QDCOUNT = 1 whose QNAME is a non-empty sequence of labels of 1 to
    63 non-zero bytes followed by the zero terminator, QTYPE and QCLASS
    (and anything after them), ParseMessage, with or without copying and
    on a fresh or a reused message, succeeds; Domain is then the labels
    joined by dots, without length bytes and without the terminating zero,
    and Question.Name is the wire form of the name. No dot is put before
    the first or after the last label: when the labels hold no dot, Domain
    neither starts nor ends with one. *)
Theorem ParseMessage_domain_of_question alias dst id1 id2 f1 f2 an1 an2 ns1 ns2 ar1 ar2
    labels t1 t2 c1 c2 rest copying :
  labels <> [] ->
  Forall wire_label labels ->
  exists msg,
    ParseMessage alias dst
      (question_packet id1 id2 f1 f2 an1 an2 ns1 ns2 ar1 ar2
                       labels t1 t2 c1 c2 rest) copying
    = Returns (msg, None)
    /\ Domain msg = dot_join labels
    /\ Name (Question msg) = Some (encode_labels labels ++ [0%N])
    /\ (Forall (Forall (fun b => b <> dot)) labels ->
        head (Domain msg) <> Some dot /\ last (Domain msg) <> Some dot).
Proof.
  intros Hne Hw. eexists. split; [|split; [|split]].
  - apply ParseMessage_question_packet; [done|].
    eapply Forall_impl; [exact Hw|]. apply wire_label_ok.
  - done.
  - done.
  - simpl. intros Hd. apply dot_join_no_outer_dot; [done|].
    apply Forall_forall. intros l Hl. rewrite Forall_forall in Hw, Hd.
    split; [|by apply Hd]. by apply wire_label_ok, Hw.
Qed.

(** The query for "example.com" of the spec's scenario parses to the
    domain "example.com". *)
Lemma ParseMessage_example_com :
  exists msg,
    ParseMessage Detached zero_message
      (question_packet 0x12 0x34 1 0 0 0 0 0 0 0
         [bytes_of_string "example"; bytes_of_string "com"] 0 1 0 1 []) true
    = Returns (msg, None)
    /\ Domain msg = dot_join [bytes_of_string "example"; bytes_of_string "com"]
    /\ Name (Question msg)
       = Some (encode_labels [bytes_of_string "example"; bytes_of_string "com"]
               ++ [0%N])
    /\ (Forall (Forall (fun b => b <> dot))
          [bytes_of_string "example"; bytes_of_string "com"] ->
        head (Domain msg) <> Some dot /\ last (Domain msg) <> Some dot).
Proof.
  apply ParseMessage_domain_of_question; [done|].
  repeat constructor; simpl; lia.
Defined.

(** C2 as stated fails: a label may hold a dot. The name 02 2E 61 00 is
    one label of two non-zero bytes; ParseMessage parses the query
    without error, and Domain is ".a", which starts with a dot. *)
Lemma ParseMessage_leading_dot :
  Forall wire_label [[46; 97]%N]
  /\ exists msg,
       ParseMessage Detached zero_message dot_label_query true
       = Returns (msg, None)
       /\ Domain msg = dot_join [[46; 97]%N]
       /\ head (Domain msg) = Some dot.
Proof.
  split; [repeat constructor; simpl; lia|].
  eexists. split; [reflexivity|]. split; reflexivity.
Qed.

(** A first length byte that reaches past the first zero byte makes the
    domain loop read outside the name it has copied. *)
Lemma ParseMessage_first_label_too_long alias dst id1 id2 f1 f2 an1 an2 ns1 ns2
    ar1 ar2 n0 body t1 t2 c1 c2 rest copying :
  n0 <> 0%N ->
  Forall (fun b => b <> 0%N) body ->
  length body < N.to_nat n0 ->
  ParseMessage alias dst
    ([id1; id2; f1; f2; 0; 1; an1; an2; ns1; ns2; ar1; ar2]%N
       ++ (n0 :: body) ++ [0; t1; t2; c1; c2]%N ++ rest) copying
  = Panics IndexOutOfRange.
Proof.
  intros Hn0 Hbody Hlong.
  assert (Forall (fun b => b <> 0%N) (n0 :: body)) as Hnb by by constructor.
  assert (length (n0 :: body) = Datatypes.S (length body)) as Hlen by done.
  assert ((n0 :: body) !! 0 = Some n0) as Hhead by done.
  assert (drop 1 (n0 :: body) = body) as Htail by done.
  remember (n0 :: body) as nb eqn:Enb. clear Enb.
  unfold ParseMessage.
  replace (length _ <? 12) with false by done.
  set (raw := if copying then _ else Raw dst).
  simpl. rewrite drop_0.
  rewrite range_until_zero_app by done.
  cbn [Nat.add]. rewrite Hlen. cbn [Nat.eqb orb].
  rewrite length_app. cbn [length]. rewrite Hlen.
  destruct (Nat.ltb_spec (Datatypes.S (length body)
                          + Datatypes.S (Datatypes.S (Datatypes.S (Datatypes.S
                              (Datatypes.S (length rest))))))
                         (Datatypes.S (length body) + 5)) as [|_]; [lia|].
  replace (nb ++ 0%N :: t1 :: t2 :: c1 :: c2 :: rest)
    with ((nb ++ [0%N]) ++ t1 :: t2 :: c1 :: c2 :: rest)
    by by rewrite <- app_assoc.
  replace (Datatypes.S (length body) + 1) with (length (nb ++ [0%N]))
    by (rewrite length_app, Hlen; simpl; lia).
  rewrite slice_prefix. cbn [obind].
  rewrite <- app_assoc. cbn [app].
  rewrite <- Hlen, slice_from_app. cbn [obind].
  change (index (_ :: ?a :: _) 1) with (Returns a).
  change (index (_ :: _ :: ?a :: _) 2) with (Returns a).
  change (index (_ :: _ :: _ :: ?a :: _) 3) with (Returns a).
  change (index (_ :: _ :: _ :: _ :: ?a :: _) 4) with (Returns a).
  cbn [obind].
  unfold index. rewrite lookup_app_l, Hhead by lia. cbn [obind].
  unfold slice_from. rewrite length_app. cbn [length].
  destruct (Nat.leb_spec 1 (length nb + 1)) as [_|]; [|lia]. cbn [obind].
  rewrite drop_app_le, Htail by lia.
  destruct (length (body ++ [0%N])); simpl;
    (rewrite lookup_ge_None_2; [done|]; rewrite length_app; simpl; lia).
Qed.

(** C10 (the code breaks it). On a payload whose bytes from offset 12 are
    [3, 'a', 0, 0, 1, 0, 1], ParseMessage does not return an error: the
    first label claims three bytes, the copied name buffer ['a', 0] has
    two, and the read [payload[3]] of the domain loop is out of range, a
    run-time panic, whatever the copying flag. *)
Theorem ParseMessage_panics_on_short_label alias dst copying :
  ParseMessage alias dst [0; 0; 1; 0; 0; 1; 0; 0; 0; 0; 0; 0;
                    3; 97; 0; 0; 1; 0; 1]%N copying
  = Panics IndexOutOfRange.
Proof. destruct copying; reflexivity. Qed.

(** ** Message.DecodeName *)

Lemma chase_labels_unfold fuel raw spare offset i dst :
  chase_labels fuel raw spare offset i dst =
  if (length raw <=? i)%nat then Returns (offset, dst)
  else
    do b <- index raw i;
    if (b =? 0)%N then Returns (O, dst ++ [0%N])
    else if (N.land b 192 =? 192)%N then
      do b1 <- index raw (i + 1);
      Returns (pointer_offset b b1, dst)
    else
      do label <- slice_cap raw spare i (i + N.to_nat b + 1);
      match fuel with
      | O => OutOfFuel
      | S fuel' =>
          chase_labels fuel' raw spare offset (i + N.to_nat b + 1)
                       (dst ++ label)
      end.
Proof. by destruct fuel. Qed.

Lemma chase_pointers_unfold hops raw spare offset dst :
  chase_pointers hops raw spare offset dst =
  if (offset =? 0)%nat then Returns dst
  else match hops with
       | O => OutOfFuel
       | S hops' =>
           do r <- chase_labels (length raw) raw spare offset offset dst;
           chase_pointers hops' raw spare (fst r) (snd r)
       end.
Proof. by destruct hops. Qed.

(** The inner loop never uses up the budget [length raw]; only the outer
    loop, the chase from pointer to pointer, can go on for ever. *)
Lemma chase_labels_fuel fuel : forall raw spare offset i dst,
  length raw <= fuel + i ->
  chase_labels fuel raw spare offset i dst <> OutOfFuel.
Proof.
  induction fuel as [|fuel IH]; intros raw spare offset i dst Hlen;
    rewrite chase_labels_unfold;
    destruct (Nat.leb_spec (length raw) i) as [|Hi]; try done; try lia.
  destruct (index raw i) as [b| |] eqn:Hb; cbn [obind]; try done.
  { destruct (b =? 0)%N; [done|].
    destruct (N.land b 192 =? 192)%N.
    - destruct (index raw (i + 1)) eqn:Hb1; cbn [obind]; try done.
      by apply index_fuel in Hb1.
    - destruct (slice_cap raw spare i (i + N.to_nat b + 1)) eqn:Hs;
        cbn [obind]; try done.
      + apply IH. lia.
      + by apply slice_fuel in Hs. }
  by apply index_fuel in Hb.
Qed.

Lemma chase_labels_labels labels : forall fuel pre rest spare offset dst,
  Forall plain_label labels ->
  length labels <= fuel ->
  chase_labels fuel (pre ++ encode_labels labels ++ 0%N :: rest) spare offset
               (length pre) dst
  = Returns (O, dst ++ encode_labels labels ++ [0%N]).
Proof.
  induction labels as [|l labels IH]; intros fuel pre rest spare offset dst Hl Hfuel;
    rewrite chase_labels_unfold.
  - destruct (_ <=? _)%nat eqn:Hle.
    { apply Nat.leb_le in Hle. rewrite !length_app in Hle. simpl in Hle. lia. }
    simpl. by rewrite index_middle.
  - inversion Hl as [|? ? [Hne Hptr] Hl']; subst.
    destruct (_ <=? _)%nat eqn:Hle.
    { apply Nat.leb_le in Hle. rewrite !length_app in Hle. simpl in Hle. lia. }
    clear Hle. set (len := N.of_nat (length l)) in *.
    assert (pre ++ encode_labels (l :: labels) ++ 0%N :: rest
            = pre ++ len :: (l ++ encode_labels labels ++ 0%N :: rest)) as Hraw.
    { rewrite encode_labels_cons. simpl. by rewrite <- app_assoc. }
    rewrite Hraw, index_middle. cbn [obind].
    destruct (N.eqb_spec len 0) as [E|_].
    { subst len. destruct l; [done|]. simpl in E. lia. }
    destruct (N.eqb_spec (N.land len 192) 192) as [|_]; [done|].
    assert (slice_cap (pre ++ len :: (l ++ encode_labels labels ++ 0%N :: rest))
                      spare (length pre) (length pre + N.to_nat len + 1)
            = Returns (len :: l)) as ->.
    { unfold slice_cap.
      replace ((pre ++ len :: (l ++ encode_labels labels ++ 0%N :: rest)) ++ spare)
        with (pre ++ (len :: l)
                  ++ (encode_labels labels ++ 0%N :: rest) ++ spare)
        by (rewrite <- !app_assoc; simpl; by rewrite <- !app_assoc).
      replace (length pre + N.to_nat len + 1)
        with (length pre + length (len :: l))
        by (subst len; rewrite Nat2N.id; simpl; lia).
      apply slice_middle. }
    cbn [obind].
    destruct fuel as [|fuel]; [simpl in Hfuel; lia|].
    specialize (IH fuel (pre ++ len :: l) rest spare offset
                   (dst ++ len :: l) Hl').
    rewrite length_app in IH. simpl in IH.
    rewrite <- !app_assoc in IH. simpl in IH.
    replace (length pre + N.to_nat len + 1) with (length pre + S (length l))
      by (subst len; rewrite Nat2N.id; lia).
    rewrite IH by (simpl in Hfuel; lia).
    rewrite encode_labels_cons. simpl. by rewrite <- app_assoc.
Qed.

Lemma chase_pointers_labels hops pre labels rest spare dst :
  1 <= hops -> pre <> [] -> Forall plain_label labels ->
  chase_pointers hops (pre ++ encode_labels labels ++ 0%N :: rest) spare
                 (length pre) dst
  = Returns (dst ++ encode_labels labels ++ [0%N]).
Proof.
  intros Hhops Hpre Hl. rewrite chase_pointers_unfold.
  destruct (Nat.eqb_spec (length pre) 0) as [E|_]; [by destruct pre|].
  destruct hops as [|hops]; [lia|].
  rewrite chase_labels_labels; [|done|].
  - cbn [obind fst snd]. by rewrite chase_pointers_unfold.
  - rewrite !length_app. pose proof (length_labels_le_encode labels). lia.
Qed.

Lemma undot_labels out labels :
  labels <> [] -> Forall (fun l => l <> []) labels ->
  let dst := out ++ encode_labels labels ++ [0%N] in
  (do dst <- dots_in_place (length dst) dst (length out);
   do rest <- slice dst (length out + 1) (length dst - 1);
   Returns (take (length out) dst ++ rest))
  = Returns (out ++ dot_join labels).
Proof.
  intros Hne Hl dst. subst dst.
  rewrite dots_in_place_labels; [|done|].
  2:{ rewrite !length_app. pose proof (length_labels_le_encode labels). lia. }
  cbn [obind]. rewrite dotted_dot_join by done.
  replace (out ++ (dot :: dot_join labels) ++ [0%N])
    with ((out ++ [dot]) ++ dot_join labels ++ [0%N])
    by (rewrite <- app_assoc; done).
  replace (length out + 1) with (length (out ++ [dot]))
    by (rewrite length_app; simpl; lia).
  replace (length ((out ++ [dot]) ++ dot_join labels ++ [0%N]) - 1)
    with (length (out ++ [dot]) + length (dot_join labels))
    by (rewrite !length_app; simpl; lia).
  replace (dot_join labels ++ [0%N]) with (dot_join labels ++ [0%N] ++ []) by done.
  rewrite slice_middle. cbn [obind].
  rewrite <- app_assoc, take_app_length. done.
Qed.

(** A name that ParseMessage accepted and that is free of pointers is a
    sequence of labels. *)
Lemma pointer_free_labels body :
  Forall (fun b => b <> 0%N) body ->
  forall fuel i,
    pointer_free_from fuel (body ++ [0%N]) i = true ->
    exists labels,
      drop i (body ++ [0%N]) = encode_labels labels ++ [0%N]
      /\ Forall plain_label labels.
Proof.
  intros Hbody. induction fuel as [|fuel IH]; intros i; simpl;
    destruct ((body ++ [0%N]) !! i) as [b|] eqn:Hb; try done;
    destruct (N.eqb_spec b 0) as [->|Hb0].
  1,3: intros _; exists []; split; [|constructor];
       assert (i = length body) as ->
         by (apply lookup_lt_Some in Hb as Hlt; rewrite length_app in Hlt;
             simpl in Hlt;
             destruct (decide (i < length body)) as [Hi|Hi]; [|lia];
             rewrite lookup_app_l in Hb by done;
             rewrite Forall_forall in Hbody;
             apply list_elem_of_lookup_2 in Hb; by apply Hbody in Hb);
       by rewrite drop_app_length.
  - by destruct (N.land b 192 =? 192)%N.
  - destruct (N.eqb_spec (N.land b 192) 192) as [|Hptr]; [done|].
    intros Hwalk. apply IH in Hwalk as (labels & Hdrop & Hlabels).
    set (nm := body ++ [0%N]) in *.
    set (k := N.to_nat b) in *.
    assert (i + k + 1 < length nm) as Hlt.
    { destruct (decide (i + k + 1 < length nm)); [done|].
      rewrite drop_ge in Hdrop by lia. by destruct (encode_labels labels). }
    exists (take k (drop (S i) nm) :: labels). split.
    + rewrite encode_labels_cons.
      rewrite length_take, length_drop.
      replace (k `min` (length nm - S i)) with k by lia.
      unfold k at 1. rewrite N2Nat.id.
      rewrite (drop_S _ _ _ Hb). simpl. f_equal.
      rewrite <- app_assoc, <- Hdrop.
      replace (i + k + 1) with (S i + k) by lia.
      by rewrite <- drop_drop, take_drop.
    + constructor; [|done]. split.
      * intros Hnil. apply (f_equal length) in Hnil.
        rewrite length_take, length_drop in Hnil. simpl in Hnil.
        unfold k in *. lia.
      * rewrite length_take, length_drop.
        replace (k `min` (length nm - S i)) with k by lia.
        unfold k. by rewrite N2Nat.id.
Qed.

Lemma chase_pointers_self_pointer hops spare dst :
  chase_pointers hops self_pointer_packet spare 19 dst = OutOfFuel.
Proof.
  induction hops as [|hops IH]; [done|].
  simpl. exact IH.
Qed.

(** C1 (the code breaks it). [self_pointer_packet] parses, and the name of
    its answer is the pointer [0xC0, 0x13] to offset 19, where that same
    pointer stands. DecodeName on this name does not reject it and does
    not come to an end: whatever number of hops it is allowed, whatever
    the destination and the spare capacity of Raw, it is still chasing the
    pointer when the budget is used up. *)
Theorem DecodeName_self_pointer_diverges :
  exists msg,
    ParseMessage Detached zero_message self_pointer_packet true = Returns (msg, None)
    /\ Raw msg = self_pointer_packet
    /\ forall hops spare dst,
         DecodeName hops msg spare dst [192; 19]%N = OutOfFuel.
Proof.
  eexists. split; [reflexivity|]. split; [reflexivity|].
  intros hops spare dst. unfold DecodeName, DecodeName_general. simpl.
  unfold pointer_offset. simpl.
  change (Pos.to_nat 19) with 19.
  by rewrite chase_pointers_self_pointer.
Qed.

(** C8. For every message that ParseMessage has parsed from the packet held
    in its Raw, with a question name free of compression pointers,
    decoding the name [0xC0, 0x0C] appends the cached Domain to the
    destination, and so does the general decoder, the body of DecodeName
    after the fast path, which follows the pointer to offset 12 and walks
    the labels there: one hop is enough, and the two paths agree. *)
Theorem DecodeName_question_pointer alias dst0 packet copying msg spare out hops :
  ParseMessage alias dst0 packet copying = Returns (msg, None) ->
  Raw msg = packet ->
  pointer_free (name_bytes msg) = true ->
  1 <= hops ->
  DecodeName hops msg spare out [192; 12]%N = Returns (out ++ Domain msg)
  /\ DecodeName_general hops msg spare out [192; 12]%N
     = Returns (out ++ Domain msg).
Proof.
  intros Hparse Hraw Hfree Hhops. split; [reflexivity|].
  apply ParseMessage_ok_inv in Hparse
    as (body & rest & n0 & buf & _ & Hlen & Hdrop & Hbody & _ & Hname & Hn0
        & Hdots & Hlast).
  unfold name_bytes in Hfree. rewrite Hname in Hfree. simpl in Hfree.
  apply pointer_free_labels in Hfree as (labels & Hlabels & Hplain); [|done].
  rewrite drop_0 in Hlabels. apply app_inj_tail in Hlabels as [-> _].
  destruct labels as [|l ls]; [done|].
  assert (Domain msg = dot_join (l :: ls)) as ->.
  { rewrite encode_labels_cons in Hn0, Hdots. simpl in Hn0, Hdots.
    injection Hn0 as <-. rewrite Nat2N.id, drop_0, <- app_assoc in Hdots.
    inversion Hplain as [|? ? [Hl _] Hls]; subst.
    rewrite dots_in_place_name in Hdots
      by (try done; by apply plain_label_nonempty).
    injection Hdots as <-. rewrite drop_last_snoc in Hlast.
    by injection Hlast as <-. }
  unfold DecodeName_general.
  change (index [192%N; 12%N] (length [192%N; 12%N] - 1)) with (Returns 12%N).
  cbn [obind N.eqb].
  change (slice [192%N; 12%N] 0 (length [192%N; 12%N] - 2)) with (Returns (@nil N)).
  change (index [192%N; 12%N] (length [192%N; 12%N] - 2)) with (Returns 192%N).
  cbn [obind fst snd].
  change (pointer_offset 192 12) with 12.
  rewrite app_nil_r.
  assert (Raw msg = take 12 packet ++ encode_labels (l :: ls) ++ 0%N :: rest) as ->.
  { by rewrite Hraw, <- Hdrop, take_drop. }
  replace 12 with (length (take 12 packet)) at 2 by (rewrite length_take; lia).
  rewrite chase_pointers_labels; [|done| |done].
  2:{ intros E. apply (f_equal length) in E. rewrite length_take in E.
      cbn [length] in E. lia. }
  cbn [obind]. apply undot_labels; [done|by apply plain_label_nonempty].
Qed.

(** On the parsed query for "example.com", both paths give
    "example.com". *)
Lemma DecodeName_example_com :
  DecodeName 1 example_com_message [] [] [192; 12]%N
  = Returns ([] ++ Domain example_com_message)
  /\ DecodeName_general 1 example_com_message [] [] [192; 12]%N
     = Returns ([] ++ Domain example_com_message).
Proof.
  apply (DecodeName_question_pointer Detached zero_message example_com_query true).
  - reflexivity.
  - reflexivity.
  - reflexivity.
  - lia.
Defined.

(** ** Message.VisitResourceRecords *)

Lemma find_name_skip body : forall rest j,
  Forall label_byte body ->
  find_name (body ++ rest) j = find_name rest (j + length body).
Proof.
  induction body as [|b body IH]; intros rest j Hbody; simpl.
  - f_equal. lia.
  - inversion Hbody as [|? ? [Hb0 Hbp] Hbody']; subst.
    destruct (N.eqb_spec (N.land b 192) 192) as [|_]; [done|].
    destruct (N.eqb_spec b 0) as [|_]; [done|].
    rewrite IH by done. f_equal. lia.
Qed.

Lemma find_name_record_name name rest :
  record_name name -> forall j, find_name (name ++ rest) j = Some (j + length name).
Proof.
  induction 1 as [|p o Hp|l name Hlen Hl _ IH]; intros j.
  - done.
  - simpl. by rewrite Hp.
  - cbn [app find_name].
    destruct (N.eqb_spec (N.land (N.of_nat (length l)) 192) 192) as [E|_].
    { apply land_192_small in E; [done|lia]. }
    destruct (N.eqb_spec (N.of_nat (length l)) 0) as [|_]; [lia|].
    rewrite <- app_assoc, find_name_skip, IH by done.
    f_equal. simpl. rewrite length_app. lia.
Qed.

Lemma visit_records_unfold {S} count payload (f : callback S) s :
  visit_records (Datatypes.S count) payload f s =
  match find_name payload 0 with
  | None => Returns (Some ErrInvalidAnswer, s)
  | Some k =>
      do name <- slice payload 0 k;
      do payload <- slice_from payload k;
      do p0 <- index payload 0;
      do p1 <- index payload 1;
      let typ := be16 p0 p1 in
      do p2 <- index payload 2;
      do p3 <- index payload 3;
      let class := be16 p2 p3 in
      do p4 <- index payload 4;
      do p5 <- index payload 5;
      do p6 <- index payload 6;
      do p7 <- index payload 7;
      let ttl := be32 p4 p5 p6 p7 in
      do p8 <- index payload 8;
      do p9 <- index payload 9;
      let rdlength := be16 p8 p9 in
      let hi := N.to_nat (to_uint16 (10 + rdlength)) in
      do data <- slice payload 10 hi;
      do payload <- slice_from payload hi;
      let r := f name typ class ttl data s in
      if fst r then visit_records count payload f (snd r)
      else Returns (None, snd r)
  end.
Proof. reflexivity. Qed.

Lemma length_encode_record r :
  length (encode_record r) = length (rr_name r) + 10 + length (rr_data r).
Proof. unfold encode_record. rewrite !length_app. simpl. lia. Qed.

(** One well-formed record: the callback gets its five fields, and the
    walk goes on behind it unless the callback says stop. *)
Lemma visit_record_step {S} count r rest (f : callback S) s :
  wire_record r ->
  (N.of_nat (length (rr_data r)) + 10 < 65536)%N ->
  visit_records (Datatypes.S count) (encode_record r ++ rest) f s =
  let out := f (rr_name r) (rr_type r) (rr_class r) (rr_ttl r) (rr_data r) s in
  if fst out then visit_records count rest f (snd out)
  else Returns (None, snd out).
Proof.
  intros (Hname & Htype & Hclass & Httl) Hlen.
  rewrite visit_records_unfold. unfold encode_record.
  rewrite <- !app_assoc, find_name_record_name by done.
  rewrite slice_prefix. cbn [obind].
  rewrite slice_from_app. cbn [obind].
  set (fixed := [_; _; _; _; _; _; _; _; _; _]).
  rewrite !(index_app_l fixed) by (simpl; lia).
  subst fixed.
  repeat (match goal with
          | |- context [index ?l ?i] =>
              let v := eval cbv [index lookup list_lookup] in (index l i) in
              change (index l i) with v
          end; cbn [obind]).
  rewrite !be16_div_mod, be32_div_mod by lia.
  set (fixed := [_; _; _; _; _; _; _; _; _; _]).
  set (data := rr_data r) in *.
  assert (N.to_nat (to_uint16 (10 + N.of_nat (length data))) = 10 + length data)
    as -> by (unfold to_uint16; rewrite N.mod_small by lia; lia).
  change 10 with (length fixed) at 1 2 3.
  rewrite slice_middle. cbn [obind].
  replace (fixed ++ data ++ rest) with ((fixed ++ data) ++ rest)
    by by rewrite <- app_assoc.
  replace (length fixed + length data) with (length (fixed ++ data))
    by by rewrite length_app.
  rewrite slice_from_app. cbn [obind]. done.
Qed.





(** Fewer than ten bytes after the name: one of the ten reads panics. *)
Lemma visit_records_short_fields {S} count payload k (f : callback S) s :
  find_name payload 0 = Some k ->
  k <= length payload < k + 10 ->
  visit_records (Datatypes.S count) payload f s = Panics IndexOutOfRange.
Proof.
  intros Hname [Hk Hshort]. rewrite visit_records_unfold, Hname.
  unfold slice, slice_from. cbn [Nat.leb].
  destruct (Nat.leb_spec k (length payload)) as [_|]; [|lia].
  cbn [andb obind].
  assert (length (drop k payload) < 10) as Hlen by (rewrite length_drop; lia).
  destruct (drop k payload) as [|p0 [|p1 [|p2 [|p3 [|p4 [|p5 [|p6 [|p7 [|p8
    [|p9 rest]]]]]]]]]]; try reflexivity.
  simpl in Hlen. lia.
Qed.

(** The ten bytes are there but RDATA is shorter than RDLENGTH says: the
    slice expression panics. *)
Lemma visit_records_short_rdata {S} count payload k t0 t1 c0 c1 l0 l1 l2 l3
    r0 r1 rdata (f : callback S) s :
  find_name payload 0 = Some k ->
  k <= length payload ->
  drop k payload = [t0; t1; c0; c1; l0; l1; l2; l3; r0; r1] ++ rdata ->
  (10 + be16 r0 r1 < 65536)%N ->
  length rdata < N.to_nat (be16 r0 r1) ->
  visit_records (Datatypes.S count) payload f s = Panics SliceBoundsOutOfRange.
Proof.
  intros Hname Hk Hdrop Hwrap Hshort. rewrite visit_records_unfold, Hname.
  unfold slice at 1, slice_from at 1. cbn [Nat.leb].
  destruct (Nat.leb_spec k (length payload)) as [_|]; [|lia].
  cbn [andb obind]. rewrite Hdrop.
  cbn [app index lookup list_lookup obind].
  unfold to_uint16 at 1. rewrite N.mod_small by lia.
  unfold slice. cbn [length].
  destruct (Nat.leb_spec 10 (N.to_nat (10 + be16 r0 r1))) as [_|]; [|lia].
  destruct (N.to_nat (10 + be16 r0 r1) <=? _) eqn:Hle; [|reflexivity].
  apply Nat.leb_le in Hle. lia.
Qed.

(** C4 (the code breaks it). Two responses with ANCount = 1 parse, and the
    answer walk over them does not return ErrInvalidAnswer. With nine of
    the ten bytes of TYPE, CLASS, TTL and RDLENGTH after the name, the read
    [payload[9]] is out of range; with two of the four bytes of RDATA
    that RDLENGTH announces, [payload[10+length:]] is out of bounds. Both
    are run-time panics, whatever the callback. *)
Theorem VisitResourceRecords_panics_on_truncation :
  (exists msg,
      ParseMessage Detached zero_message truncated_fields_response true
      = Returns (msg, None)
      /\ ANCount (Header msg) = 1%N
      /\ forall (S : Type) (f : callback S) (s : S),
           VisitResourceRecords msg f s = Panics IndexOutOfRange)
  /\ (exists msg,
         ParseMessage Detached zero_message truncated_rdata_response true
         = Returns (msg, None)
         /\ ANCount (Header msg) = 1%N
         /\ forall (S : Type) (f : callback S) (s : S),
              VisitResourceRecords msg f s = Panics SliceBoundsOutOfRange).
Proof.
  split; eexists; (split; [reflexivity|]); (split; [reflexivity|]);
    intros S f s; reflexivity.
Qed.

(** ** Message.VisitAdditionalRecords *)

(** C9, amended. For every message, callback and callback state,
    VisitAdditionalRecords panics with "not implemented"; it returns
    nothing, and the callback is not called. *)
Theorem VisitAdditionalRecords_panics (S : Type) (msg : Message)
    (f : callback S) (s : S) :
  VisitAdditionalRecords msg f s = Panics NotImplemented.
Proof. reflexivity. Qed.

(** C9 as stated fails: on the response of the scenario above
    VisitAdditionalRecords returns no error value, it panics. *)
Lemma VisitAdditionalRecords_returns_no_error :
  VisitAdditionalRecords example_com_response log_call []
  = Panics NotImplemented
  /\ forall e log,
       VisitAdditionalRecords example_com_response log_call []
       <> Returns (e, log).
Proof. split; [reflexivity|]. intros e log. discriminate. Qed.

(** ** The backfill loop *)

Lemma backfill_skip l : forall i count pre rest n,
  Forall (fun b => b <> dot) l ->
  length pre = i + count ->
  backfill i (count + length l) (pre ++ l ++ rest) (to_byte n)
  = backfill i count (pre ++ l ++ rest) (to_byte (n + N.of_nat (length l))).
Proof.
  induction l as [|b l IH] using rev_ind; intros i count pre rest n Hl Hpre.
  - simpl. f_equal; [lia|]. f_equal. lia.
  - apply Forall_app in Hl as [Hl Hb]. inversion Hb as [|? ? Hb' _]; subst.
    rewrite length_app. cbn [length].
    replace (count + (length l + 1)) with (S (count + length l)) by lia.
    cbn [backfill].
    replace (i + (count + length l)) with (length (pre ++ l))
      by (rewrite length_app; lia).
    replace (pre ++ (l ++ [b]) ++ rest) with ((pre ++ l) ++ b :: rest)
      by (rewrite <- !app_assoc; done).
    rewrite index_middle. cbn [obind].
    destruct (N.eqb_spec b dot) as [|_]; [done|].
    replace ((pre ++ l) ++ b :: rest) with (pre ++ l ++ b :: rest)
      by by rewrite <- app_assoc.
    replace (to_byte (to_byte n + 1)) with (to_byte (n + 1))
      by (unfold to_byte; by rewrite N.Div0.add_mod_idemp_l).
    rewrite IH by done. f_equal. f_equal. lia.
Qed.

(** The loop runs over the dotted domain from its end and puts, in place
    of each dot, the length of the segment that follows it, cut to a
    byte. *)
Lemma backfill_segments labels : forall pre rest,
  Forall (Forall (fun b => b <> dot)) labels ->
  backfill (length pre) (length (dotted labels)) (pre ++ dotted labels ++ rest) 0
  = Returns (pre ++ flat_map (fun l => to_byte (N.of_nat (length l)) :: l) labels
                 ++ rest).
Proof.
  induction labels as [|l labels IH] using rev_ind; intros pre rest Hall; [done|].
  apply Forall_app in Hall as [Hall Hl].
  inversion Hl as [|? ? Hd _]; subst.
  unfold dotted in *. rewrite !flat_map_app in *.
  cbn [flat_map] in *. rewrite !app_nil_r, !length_app in *.
  cbn [length].
  set (dl := flat_map (fun l => dot :: l) labels) in *.
  replace (pre ++ (dl ++ dot :: l) ++ rest) with ((pre ++ dl ++ [dot]) ++ l ++ rest)
    by (rewrite <- !app_assoc; done).
  replace (length dl + S (length l)) with (S (length dl) + length l) by lia.
  change 0%N with (to_byte 0) at 1.
  rewrite backfill_skip; [|done|rewrite !length_app; simpl; lia].
  cbn [backfill].
  replace ((pre ++ dl ++ [dot]) ++ l ++ rest) with ((pre ++ dl) ++ dot :: l ++ rest)
    by (rewrite <- !app_assoc; done).
  replace (length pre + length dl) with (length (pre ++ dl))
    by by rewrite length_app.
  rewrite index_middle. cbn [obind]. rewrite N.eqb_refl.
  rewrite insert_app_r_alt, Nat.sub_diag by lia. cbn [insert list_insert].
  rewrite <- app_assoc.
  rewrite (IH pre (to_byte (0 + N.of_nat (length l)) :: l ++ rest)) by done.
  rewrite <- !app_assoc. done.
Qed.

Lemma backfill_labels labels pre rest :
  Forall (fun l => Forall (fun b => b <> dot) l /\ length l <= 63) labels ->
  backfill (length pre) (length (dotted labels)) (pre ++ dotted labels ++ rest) 0
  = Returns (pre ++ encode_labels labels ++ rest).
Proof.
  intros Hall. rewrite backfill_segments.
  - rewrite encode_split_labels; [done|].
    eapply Forall_impl; [exact Hall|]. by intros l [_ ?].
  - eapply Forall_impl; [exact Hall|]. by intros l [? _].
Qed.

(** ** Message.SetQustion *)

(** The encoder modelled from the spec writes what the backfill loop of
    AppendMessage, followed by the zero byte, writes: for every domain,
    whatever its segments. *)
Lemma EncodeDomain_backfill dst domain :
  (do out <- backfill (length dst) (length dst + length domain + 1 - length dst)
                      ((dst ++ [dot]) ++ domain) 0;
   Returns (out ++ [0%N]))
  = Returns (EncodeDomain dst domain).
Proof.
  pose proof (split_dots_dotfree domain) as Hfree.
  pose proof (split_dots_nonempty domain) as Hne.
  rewrite <- (dot_join_split_dots domain) at 1 2.
  replace (length dst + length (dot_join (split_dots domain)) + 1 - length dst)
    with (length (dotted (split_dots domain)))
    by (rewrite dotted_dot_join by done; simpl; lia).
  replace ((dst ++ [dot]) ++ dot_join (split_dots domain))
    with (dst ++ dotted (split_dots domain) ++ [])
    by (rewrite dotted_dot_join, app_nil_r, <- app_assoc by done; done).
  rewrite backfill_segments by done. cbn [obind].
  unfold EncodeDomain. by rewrite app_nil_r, <- app_assoc.
Qed.

(** The two masks clear QR and RCODE, set RD, and keep the other flags. *)
Lemma SetQustion_bits b :
  let b' := N.lor (N.land b 0x7ff0) 0x0100 in
  bits_QR b' = 0%N /\ bits_RD b' = 1%N /\ bits_RCODE b' = 0%N
  /\ bits_Opcode b' = bits_Opcode b /\ bits_AA b' = bits_AA b
  /\ bits_TC b' = bits_TC b /\ bits_RA b' = bits_RA b
  /\ bits_Z b' = bits_Z b.
Proof.
  unfold bits_QR, bits_RD, bits_RCODE, bits_Opcode, bits_AA, bits_TC, bits_RA,
    bits_Z.
  repeat split.
  - field_bits.
  - field_bits.
  - field_bits.
  - field_bits.
  - field_bits.
  - field_bits.
  - field_bits.
  - field_bits.
Qed.

Lemma SetQustion_Returns rnd msg domain typ class :
  let bits := N.lor (N.land (Bits (Header msg)) 0x7ff0) 0x0100 in
  let encoded := EncodeDomain (question_header_bytes (to_uint16 rnd) bits)
                              (bytes_of_string domain) in
  SetQustion rnd msg domain typ class =
  Returns (mkMessage
             (encoded ++ [to_byte (N.shiftr typ 8); to_byte (N.land typ 0xff);
                          to_byte (N.shiftr class 8); to_byte (N.land class 0xff)])
             (bytes_of_string domain)
             (mkHeader (to_uint16 rnd) bits 1 0 0 0)
             (mkQuestion (Some (drop 12 encoded)) typ class)).
Proof.
  intros bits encoded. unfold SetQustion.
  fold bits. fold (question_header_bytes (to_uint16 rnd) bits). fold encoded.
  assert (length encoded = 12 + length (bytes_of_string domain) + 2) as Hlen.
  { subst encoded. unfold EncodeDomain.
    rewrite !length_app, length_split_dots. simpl. lia. }
  unfold slice.
  change (length (question_header_bytes (to_uint16 rnd) bits)) with 12.
  rewrite Hlen.
  destruct (Nat.leb_spec 12 (12 + length (bytes_of_string domain) + 2)); [|lia].
  rewrite Nat.leb_refl. cbn [andb obind].
  rewrite take_ge by (rewrite length_drop; lia).
  by rewrite <- app_assoc.
Qed.

(** C6, amended. For every message, domain, type and class, SetQustion
    returns; afterwards the ID is the random value cut to 16 bits, the
    flag word has QR = 0, RD = 1 and RCODE = 0, and Opcode, AA, TC, RA and
    Z are what they were before the call; QDCount is 1, ANCount, NSCount
    and ARCount are 0; Raw is the header followed by the encoded domain
    and the big-endian type and class; Question.Name is the part of Raw
    between the header and QTYPE; Question.Type, Question.Class and Domain
    are the arguments. *)
Theorem SetQustion_question rnd msg domain typ class :
  exists msg',
    SetQustion rnd msg domain typ class = Returns msg'
    /\ ID (Header msg') = to_uint16 rnd
    /\ bits_QR (Bits (Header msg')) = 0%N
    /\ bits_RD (Bits (Header msg')) = 1%N
    /\ bits_RCODE (Bits (Header msg')) = 0%N
    /\ bits_Opcode (Bits (Header msg')) = bits_Opcode (Bits (Header msg))
    /\ bits_AA (Bits (Header msg')) = bits_AA (Bits (Header msg))
    /\ bits_TC (Bits (Header msg')) = bits_TC (Bits (Header msg))
    /\ bits_RA (Bits (Header msg')) = bits_RA (Bits (Header msg))
    /\ bits_Z (Bits (Header msg')) = bits_Z (Bits (Header msg))
    /\ QDCount (Header msg') = 1%N
    /\ ANCount (Header msg') = 0%N
    /\ NSCount (Header msg') = 0%N
    /\ ARCount (Header msg') = 0%N
    /\ Raw msg'
       = EncodeDomain (question_header_bytes (ID (Header msg'))
                                             (Bits (Header msg')))
                      (bytes_of_string domain)
         ++ [to_byte (N.shiftr typ 8); to_byte (N.land typ 0xff);
             to_byte (N.shiftr class 8); to_byte (N.land class 0xff)]
    /\ Name (Question msg')
       = Some (drop 12 (take (length (Raw msg') - 4) (Raw msg')))
    /\ Type_ (Question msg') = typ
    /\ Class_ (Question msg') = class
    /\ Domain msg' = bytes_of_string domain.
Proof.
  eexists. split; [apply SetQustion_Returns|]. cbn [ID Bits Header QDCount
    ANCount NSCount ARCount Raw Name Question Type_ Class_ Domain].
  destruct (SetQustion_bits (Bits (Header msg)))
    as (H1 & H2 & H3 & H4 & H5 & H6 & H7 & H8).
  repeat split; try done.
  rewrite length_app. cbn [length].
  replace (_ + 4 - 4) with
    (length (EncodeDomain
               (question_header_bytes (to_uint16 rnd)
                  (N.lor (N.land (Bits (Header msg)) 0x7ff0) 0x100))
               (bytes_of_string domain))) by lia.
  by rewrite take_app_length.
Qed.

(** C6 as stated fails: on a message whose flag word has AA set, AA is
    still set after SetQustion. *)
Lemma SetQustion_keeps_AA :
  exists msg',
    SetQustion 0 aa_message "a" 1 1 = Returns msg'
    /\ bits_AA (Bits (Header msg')) = 1%N.
Proof. eexists. split; reflexivity. Qed.

(** ** AppendMessage *)

Lemma AppendMessage_backfill dst msg labels :
  labels <> [] ->
  Forall text_label labels ->
  QDCount (Header msg) = 1%N ->
  Name (Question msg) = None ->
  Domain msg = dot_join labels ->
  AppendMessage dst msg = Returns (dst ++ message_packet msg labels).
Proof.
  intros Hne Htext Hqd Hname Hdomain.
  unfold AppendMessage. rewrite Hqd, Hname, Hdomain. cbn [N.eqb negb].
  set (header := [_; _; _; _; _; _; _; _; _; _; _; _]).
  replace (length (dst ++ header) + length (dot_join labels) + 1
           - length (dst ++ header))
    with (length (dotted labels))
    by (rewrite dotted_dot_join by done; simpl; lia).
  replace (((dst ++ header) ++ [dot]) ++ dot_join labels)
    with ((dst ++ header) ++ dotted labels ++ [])
    by (rewrite dotted_dot_join, app_nil_r, <- !app_assoc by done; done).
  rewrite backfill_labels by by apply text_labels_dotfree.
  cbn [obind]. rewrite app_nil_r, <- !app_assoc. done.
Qed.

Lemma AppendMessage_name dst msg labels :
  QDCount (Header msg) = 1%N ->
  Name (Question msg) = Some (encode_labels labels ++ [0%N]) ->
  AppendMessage dst msg = Returns (dst ++ message_packet msg labels).
Proof.
  intros Hqd Hname. unfold AppendMessage. rewrite Hqd, Hname.
  cbn [N.eqb negb obind]. rewrite <- !app_assoc. done.
Qed.

(** C7, amended. For every domain of 1 to 127 labels, each of 1 to 63
    bytes, none of them a dot and none of them zero: a single-question
    message with a nil Question.Name that carries the domain is serialized
    by AppendMessage, through the backfill encoding, to bytes that
    ParseMessage parses without error to the same Domain; and so is the
    message that SetQustion builds for the domain. *)
Theorem AppendMessage_ParseMessage_roundtrip labels :
  1 <= length labels <= 127 ->
  Forall text_label labels ->
  Forall (Forall (fun b => b <> 0%N)) labels ->
  (forall msg dst alias dst' copying,
      QDCount (Header msg) = 1%N ->
      Name (Question msg) = None ->
      Domain msg = dot_join labels ->
      exists wire parsed,
        AppendMessage dst msg = Returns (dst ++ wire)
        /\ ParseMessage alias dst' wire copying = Returns (parsed, None)
        /\ Domain parsed = dot_join labels)
  /\ (forall rnd msg0 domain typ class dst alias dst' copying,
         bytes_of_string domain = dot_join labels ->
         exists msg wire parsed,
           SetQustion rnd msg0 domain typ class = Returns msg
           /\ AppendMessage dst msg = Returns (dst ++ wire)
           /\ ParseMessage alias dst' wire copying = Returns (parsed, None)
           /\ Domain parsed = bytes_of_string domain).
Proof.
  intros Hcount Htext Hzero.
  assert (labels <> []) as Hne by (destruct labels; [simpl in Hcount; lia|done]).
  pose proof (text_labels_ok labels Htext Hzero) as Hok.
  split.
  - intros msg dst alias dst' copying Hqd Hname Hdomain.
    exists (message_packet msg labels). eexists. split; [|split].
    + by apply AppendMessage_backfill.
    + by apply ParseMessage_question_packet.
    + done.
  - intros rnd msg0 domain typ class dst alias dst' copying Hdomain.
    eexists. exists (message_packet
      (mkMessage [] [] (mkHeader (to_uint16 rnd)
                          (N.lor (N.land (Bits (Header msg0)) 0x7ff0) 0x0100)
                          1 0 0 0)
                 (mkQuestion None typ class)) labels). eexists.
    split; [apply SetQustion_Returns|]. split; [|split].
    + rewrite (AppendMessage_name _ _ labels); [done|done|].
      cbn [Name Question]. f_equal. unfold EncodeDomain.
      rewrite Hdomain, split_dots_dot_join, encode_split_labels.
      * done.
      * eapply Forall_impl; [exact Htext|]. by intros l [[_ ?] _].
      * done.
      * eapply Forall_impl; [exact Htext|]. by intros l [_ ?].
    + by apply ParseMessage_question_packet.
    + by rewrite Hdomain.
Qed.

(** The message built by SetQustion for "a.b.c", type 1, class 1, is
    serialized to bytes that parse back to the domain "a.b.c". *)
Lemma SetQustion_a_b_c_roundtrip :
  exists msg wire parsed,
    SetQustion 0x1234 zero_message "a.b.c" 1 1 = Returns msg
    /\ AppendMessage [] msg = Returns ([] ++ wire)
    /\ ParseMessage Detached zero_message wire true = Returns (parsed, None)
    /\ Domain parsed = bytes_of_string "a.b.c".
Proof.
  apply (proj2 (AppendMessage_ParseMessage_roundtrip
                  [bytes_of_string "a"; bytes_of_string "b"; bytes_of_string "c"]
                  ltac:(simpl; lia)
                  ltac:(repeat constructor; unfold dot; simpl; lia)
                  ltac:(repeat constructor; unfold dot; simpl; lia))).
  reflexivity.
Defined.

(** C7 as stated fails: the domain of one three-byte label 'a', 0, 'b' has
    no dot in its label, yet the bytes AppendMessage produces for it make
    ParseMessage panic. The first zero byte after the header lies inside
    the label, and the domain loop reads past the name it has copied. *)
Lemma roundtrip_fails_on_zero_byte :
  1 <= length [[97; 0; 98]%N] <= 127
  /\ Forall text_label [[97; 0; 98]%N]
  /\ QDCount (Header nul_label_message) = 1%N
  /\ Name (Question nul_label_message) = None
  /\ Domain nul_label_message = dot_join [[97; 0; 98]%N]
  /\ exists wire,
       AppendMessage [] nul_label_message = Returns wire
       /\ forall alias dst copying,
            ParseMessage alias dst wire copying = Panics IndexOutOfRange.
Proof.
  split; [simpl; lia|]. split; [repeat constructor; unfold dot; simpl; lia|].
  do 3 (split; [reflexivity|]).
  eexists. split; [reflexivity|]. intros alias dst []; reflexivity.
Qed.

(** ** request.go: AppendRequest and ParseRequest *)

Lemma request_flags_roundtrip qr op aa tc rd :
  (qr < 2)%N -> (op < 16)%N -> (aa < 2)%N -> (tc < 2)%N -> (rd < 2)%N ->
  let b := N.lor (N.lor (N.lor (N.lor
             (to_byte (N.shiftl qr (7 - 0)))
             (to_byte (N.shiftl (to_byte op) (7 - (1 + 3)))))
             (to_byte (N.shiftl aa (7 - 5))))
             (to_byte (N.shiftl tc (7 - 6))))
             rd in
  N.land b 1 = rd /\ N.land (N.shiftr b 1) 1 = tc
  /\ N.land (N.shiftr b 2) 1 = aa /\ N.land (N.shiftr b 3) 15 = op
  /\ N.land (N.shiftr b 7) 1 = qr.
Proof.
  intros Hqr Hop Haa Htc Hrd.
  assert (qr = 0 \/ qr = 1)%N as [-> | ->] by lia;
  assert (aa = 0 \/ aa = 1)%N as [-> | ->] by lia;
  assert (tc = 0 \/ tc = 1)%N as [-> | ->] by lia;
  assert (rd = 0 \/ rd = 1)%N as [-> | ->] by lia;
  (assert (op = 0 \/ op = 1 \/ op = 2 \/ op = 3 \/ op = 4 \/ op = 5 \/ op = 6
           \/ op = 7 \/ op = 8 \/ op = 9 \/ op = 10 \/ op = 11 \/ op = 12
           \/ op = 13 \/ op = 14 \/ op = 15)%N as Hcases by lia;
   repeat (destruct Hcases as [-> | Hcases]; [by vm_compute|]);
   subst op; by vm_compute).
Qed.

Lemma request_rcode_roundtrip ra rcode :
  (ra < 2)%N -> (rcode < 16)%N ->
  let b := N.lor (N.lor (to_byte (N.shiftl ra (7 - 0)))
                        (to_byte (N.shiftl 0 (7 - 1))))
                 (to_byte (N.shiftl (to_byte rcode) (7 - (4 + 3)))) in
  N.land b 15 = rcode /\ N.land (N.shiftr b 4) 7 = 0%N
  /\ N.land (N.shiftr b 7) 1 = ra.
Proof.
  intros Hra Hrcode.
  assert (ra = 0 \/ ra = 1)%N as [-> | ->] by lia;
  (assert (rcode = 0 \/ rcode = 1 \/ rcode = 2 \/ rcode = 3 \/ rcode = 4
           \/ rcode = 5 \/ rcode = 6 \/ rcode = 7 \/ rcode = 8 \/ rcode = 9
           \/ rcode = 10 \/ rcode = 11 \/ rcode = 12 \/ rcode = 13
           \/ rcode = 14 \/ rcode = 15)%N as Hcases by lia;
   repeat (destruct Hcases as [-> | Hcases]; [by vm_compute|]);
   subst rcode; by vm_compute).
Qed.

(** With Z = 0 every field within its width survives the round trip, and
    so does the question. *)
Lemma AppendRequest_ParseRequest_Z0 dst req body :
  let h := Req.Header req in
  (Req.ID h < 65536)%N -> (Req.QR h < 2)%N -> (Req.Opcode h < 16)%N ->
  (Req.AA h < 2)%N -> (Req.TC h < 2)%N -> (Req.RD h < 2)%N ->
  (Req.RA h < 2)%N -> Req.Z h = 0%N -> (Req.RCODE h < 16)%N ->
  Req.QDCount h = 1%N -> (Req.ANCount h < 65536)%N ->
  (Req.NSCount h < 65536)%N -> (Req.ARCount h < 65536)%N ->
  Req.Name (Req.Question req) = body ++ [0%N] ->
  Forall (fun b => b <> 0%N) body ->
  (Req.Type_ (Req.Question req) < 65536)%N ->
  (Req.Class_ (Req.Question req) < 65536)%N ->
  Req.ParseRequest dst (Req.AppendRequest [] req) = Returns (req, None).
Proof.
  destruct req as [[id qr op aa tc rd ra z rcode qd an ns ar] [name type class]].
  cbn [Req.Header Req.Question Req.ID Req.QR Req.Opcode Req.AA Req.TC Req.RD
       Req.RA Req.Z Req.RCODE Req.QDCount Req.ANCount Req.NSCount Req.ARCount
       Req.Name Req.Type_ Req.Class_].
  intros Hid Hqr Hop Haa Htc Hrd Hra -> Hrcode -> Han Hns Har -> Hbody Htype
    Hclass.
  unfold Req.AppendRequest.
  cbn [Req.Header Req.Question Req.ID Req.QR Req.Opcode Req.AA Req.TC Req.RD
       Req.RA Req.Z Req.RCODE Req.QDCount Req.ANCount Req.NSCount Req.ARCount
       Req.Name Req.Type_ Req.Class_ N.eqb negb].
  pose proof (request_flags_roundtrip qr op aa tc rd Hqr Hop Haa Htc Hrd) as Hb2.
  pose proof (request_rcode_roundtrip ra rcode Hra Hrcode) as Hb3.
  cbn zeta in Hb2, Hb3.
  set (b2 := N.lor (N.lor (N.lor (N.lor _ _) _) _) rd) in *.
  set (b3 := N.lor (N.lor _ _) _) in *.
  destruct Hb2 as (Hrd' & Htc' & Haa' & Hop' & Hqr').
  destruct Hb3 as (Hrcode' & Hz' & Hra').
  clearbody b2 b3.
  unfold Req.ParseRequest.
  replace (length _ <? 12) with false by done.
  rewrite <- !app_assoc. simpl.
  rewrite Hrd', Htc', Haa', Hop', Hqr', Hrcode', Hz', Hra'.
  rewrite be16_swap, !be16_bytes by done.
  rewrite drop_0, range_until_zero_app by done. simpl.
  rewrite !length_app. simpl.
  destruct (Nat.ltb_spec (length body + 5) (length body + 5)) as [|_]; [lia|].
  replace (body ++ 0%N :: to_byte (N.shiftr type 8) :: to_byte (N.land type 255)
                :: to_byte (N.shiftr class 8) :: [to_byte (N.land class 255)])
    with ((body ++ [0%N]) ++ [to_byte (N.shiftr type 8); to_byte (N.land type 255);
                              to_byte (N.shiftr class 8); to_byte (N.land class 255)])
    by by rewrite <- app_assoc.
  replace (length body + 1) with (length (body ++ [0%N]))
    by (rewrite length_app; simpl; lia).
  rewrite slice_prefix. cbn [obind].
  rewrite <- app_assoc. cbn [app].
  rewrite slice_from_app. simpl.
  by rewrite !be16_swap, !be16_bytes.
Qed.

(** C5 (the code breaks it). A request with every field within its width
    and Z = 1 is serialized by AppendRequest and parsed back without
    error, but the parsed Z is 4: AppendRequest shifts Z by [7 - 1] = 6
    bits, where ParseRequest reads it at bits 4 to 6. *)
Theorem AppendRequest_ParseRequest_Z :
  exists parsed,
    Req.ParseRequest empty_request (Req.AppendRequest [] z_request)
    = Returns (parsed, None)
    /\ Req.Z (Req.Header z_request) = 1%N
    /\ Req.Z (Req.Header parsed) = 4%N.
Proof. eexists. repeat split; reflexivity. Qed.

(** * Further properties of the codec *)

(** ** ParseMessage: the ways a call ends *)

(** Name the first twelve bytes of a payload that has them. *)
Ltac split_header payload H :=
  do 12 (destruct payload as [|? payload]; [simpl in H; lia|]).

Lemma ParseMessage_short alias dst payload copying :
  length payload < 12 ->
  ParseMessage alias dst payload copying
  = Returns (mkMessage (if copying then payload else Raw dst) (Domain dst)
                       (Header dst)
                       (question_after_copy alias dst payload copying),
             Some ErrInvalidHeader).
Proof.
  intros Hlen. unfold ParseMessage.
  destruct (Nat.ltb_spec (length payload) 12) as [_|]; [done|lia].
Qed.

Lemma ParseMessage_bad_qdcount alias dst payload copying :
  12 <= length payload ->
  qdcount_of payload <> 1%N ->
  ParseMessage alias dst payload copying
  = Returns (mkMessage (if copying then payload else Raw dst) (Domain dst)
                       (header_of payload)
                       (question_after_copy alias dst payload copying),
             Some ErrInvalidHeader).
Proof.
  intros Hlen Hqd. unfold ParseMessage.
  destruct (Nat.ltb_spec (length payload) 12) as [|_]; [lia|].
  set (raw := if copying then payload else Raw dst). clearbody raw.
  split_header payload Hlen.
  unfold qdcount_of, byte_at in Hqd. simpl in Hqd. simpl.
  destruct (N.eqb_spec (be16 n3 n4) 1) as [|_]; [done|]. reflexivity.
Qed.

(** The question phase on a payload whose header is accepted. *)
Lemma ParseMessage_undelimited alias dst payload copying :
  12 <= length payload ->
  qdcount_of payload = 1%N ->
  (forall body rest, question_split (drop 12 payload) body rest -> body = []) ->
  ParseMessage alias dst payload copying
  = Returns (mkMessage (if copying then payload else Raw dst) (Domain dst)
                       (header_of payload)
                       (question_after_copy alias dst payload copying),
             Some ErrInvalidQuestion).
Proof.
  intros Hlen Hqd Hno. unfold ParseMessage.
  destruct (Nat.ltb_spec (length payload) 12) as [|_]; [lia|].
  set (raw := if copying then payload else Raw dst). clearbody raw.
  split_header payload Hlen.
  unfold qdcount_of, byte_at in Hqd. simpl in Hqd, Hno.
  unfold header_of, byte_at. simpl.
  rewrite Hqd. simpl. rewrite drop_0.
  destruct (range_until_zero_cases payload 0 0)
    as [(body & rest & Hp & Hbody & Hi)|[[Hp Hi]|[Hp Hi]]].
  - rewrite Hi. simpl.
    destruct (Nat.eqb_spec (length body) 0) as [|Hne]; [done|]. simpl.
    destruct (Nat.ltb_spec (length payload) (length body + 5)) as [|Hge];
      [done|].
    exfalso. apply Hne. rewrite (Hno body rest); [done|].
    split; [done|]. split; [done|].
    rewrite Hp, length_app in Hge. simpl in Hge. lia.
  - by rewrite Hi.
  - destruct (Nat.eqb_spec (range_until_zero 0 0 payload) 0); [done|]. simpl.
    destruct (Nat.ltb_spec (length payload) (range_until_zero 0 0 payload + 5));
      [done|lia].
Qed.

Lemma ParseMessage_delimited alias dst payload copying n0 body rest :
  12 <= length payload ->
  qdcount_of payload = 1%N ->
  question_split (drop 12 payload) (n0 :: body) rest ->
  ParseMessage alias dst payload copying
  = (do buf <- dots_in_place (length (body ++ [0%N])) (body ++ [0%N])
                             (N.to_nat n0);
     do domain <- drop_last buf;
     Returns (mkMessage (if copying then payload else Raw dst) domain
                        (header_of payload)
                        (mkQuestion (Some (n0 :: body ++ [0%N]))
                                    (be16 (byte_at rest 0) (byte_at rest 1))
                                    (be16 (byte_at rest 2) (byte_at rest 3))),
              None)).
Proof.
  intros Hlen Hqd (Hq & Hbody & Hrest).
  assert (length (n0 :: body) = Datatypes.S (length body)) as Hnb by done.
  assert ((n0 :: body) !! 0 = Some n0) as Hhead by done.
  assert (drop 1 (n0 :: body) = body) as Htail by done.
  change (n0 :: body ++ [0%N]) with ((n0 :: body) ++ [0%N]).
  remember (n0 :: body) as nb eqn:Enb. clear Enb.
  unfold ParseMessage.
  destruct (Nat.ltb_spec (length payload) 12) as [|_]; [lia|].
  set (raw := if copying then payload else Raw dst). clearbody raw.
  split_header payload Hlen.
  unfold qdcount_of, byte_at in Hqd. simpl in Hqd, Hq.
  unfold header_of, byte_at. simpl.
  rewrite Hqd. simpl. rewrite drop_0. rewrite drop_0 in Hq. subst payload.
  rewrite range_until_zero_app by done. cbn [Nat.add]. rewrite Hnb.
  cbn [Nat.eqb orb]. rewrite length_app. cbn [length]. rewrite Hnb.
  destruct (Nat.ltb_spec (Datatypes.S (length body)
                          + Datatypes.S (length rest))
                         (Datatypes.S (length body) + 5)) as [|_]; [lia|].
  replace (nb ++ 0%N :: rest) with ((nb ++ [0%N]) ++ rest)
    by by rewrite <- app_assoc.
  replace (Datatypes.S (length body) + 1) with (length (nb ++ [0%N]))
    by (rewrite length_app, Hnb; simpl; lia).
  rewrite slice_prefix. cbn [obind].
  rewrite <- app_assoc. cbn [app].
  rewrite <- Hnb, slice_from_app. cbn [obind].
  destruct rest as [|r0 [|r1 [|r2 [|r3 rest]]]]; try (simpl in Hrest; lia).
  change (index (_ :: ?a :: _) 1) with (Returns a).
  change (index (_ :: _ :: ?a :: _) 2) with (Returns a).
  change (index (_ :: _ :: _ :: ?a :: _) 3) with (Returns a).
  change (index (_ :: _ :: _ :: _ :: ?a :: _) 4) with (Returns a).
  cbn [obind]. rewrite !be16_swap.
  unfold index. rewrite lookup_app_l, Hhead by lia. cbn [obind].
  unfold slice_from. rewrite length_app. cbn [length].
  destruct (Nat.leb_spec 1 (length nb + 1)) as [_|]; [|lia]. cbn [obind].
  rewrite drop_app_le, Htail by lia. reflexivity.
Qed.

Lemma encode_labels_label_ok ls :
  Forall (fun b => b <> 0%N) (encode_labels ls) -> Forall label_ok ls.
Proof.
  induction ls as [|l ls IH]; [constructor|].
  rewrite encode_labels_cons. intros H.
  inversion H as [|? ? Hlen H']; subst.
  apply Forall_app in H' as [Hl Hls].
  constructor; [|by apply IH].
  split; [|done]. destruct l; [done|done].
Qed.

(** The domain loop on a zero-free run of bytes closed by a zero: it ends
    at the zero exactly when the run is a sequence of labels, and reads
    out of range otherwise. *)
Lemma dots_walk fuel : forall rem done,
  Forall (fun b => b <> 0%N) rem ->
  length rem <= fuel ->
  (exists labels,
      rem = encode_labels labels
      /\ dots_in_place fuel (done ++ rem ++ [0%N]) (length done)
         = Returns (done ++ dotted labels ++ [0%N]))
  \/ ((forall labels, rem <> encode_labels labels)
      /\ dots_in_place fuel (done ++ rem ++ [0%N]) (length done)
         = Panics IndexOutOfRange).
Proof.
  induction fuel as [|fuel IH]; intros rem done Hrem Hfuel.
  - destruct rem; [|simpl in Hfuel; lia]. left. exists []. split; [done|].
    simpl. by rewrite list_lookup_middle.
  - destruct Hrem as [|b rem Hb Hrem].
    { left. exists []. split; [done|]. simpl. by rewrite list_lookup_middle. }
    cbn [dots_in_place]. cbn [app]. rewrite list_lookup_middle by done.
    destruct (N.eqb_spec b 0) as [|_]; [done|].
    rewrite insert_app_r_alt, Nat.sub_diag by lia. cbn [insert list_insert].
    set (k := N.to_nat b).
    destruct (decide (k <= length rem)) as [Hk|Hk].
    + assert (done ++ dot :: rem ++ [0%N]
              = (done ++ dot :: take k rem) ++ drop k rem ++ [0%N]) as ->.
      { rewrite <- !app_assoc. cbn [app]. by rewrite app_assoc, take_drop. }
      replace (length done + k + 1) with (length (done ++ dot :: take k rem))
        by (rewrite length_app; cbn [length]; rewrite length_take; lia).
      destruct (IH (drop k rem) (done ++ dot :: take k rem))
        as [(labels & Hlabels & Hrun)|[Hno Hrun]].
      * by apply Forall_drop.
      * rewrite length_drop. simpl in Hfuel. lia.
      * left. exists (take k rem :: labels). split.
        -- rewrite encode_labels_cons, length_take.
           replace (k `min` length rem) with k by lia.
           unfold k. rewrite N2Nat.id. f_equal.
           by rewrite <- Hlabels, take_drop.
        -- rewrite Hrun, dotted_cons. f_equal.
           rewrite <- !app_assoc. simpl. by rewrite <- ?app_assoc.
      * right. split; [|done].
        intros [|l labels] Heq; [done|].
        rewrite encode_labels_cons in Heq. injection Heq as Hb' Heq.
        assert (length l = k) as Hl by (unfold k; rewrite Hb'; lia).
        apply (Hno labels).
        rewrite Heq, drop_app_length'; done.
    + right. split.
      * intros [|l labels] Heq; [done|].
        rewrite encode_labels_cons in Heq. injection Heq as Hb' Heq.
        apply Hk. unfold k. rewrite Hb', Heq, length_app. lia.
      * destruct fuel; simpl;
          (rewrite lookup_ge_None_2;
           [done|rewrite length_app; cbn [length]; rewrite length_app;
                 simpl; lia]).
Qed.

(** The domain loop of ParseMessage on the name [n0 :: body ++ [0]]. *)
Lemma first_label_walk n0 body :
  n0 <> 0%N ->
  Forall (fun b => b <> 0%N) body ->
  (exists labels,
      labels <> [] /\ Forall label_ok labels
      /\ n0 :: body = encode_labels labels
      /\ dots_in_place (length (body ++ [0%N])) (body ++ [0%N]) (N.to_nat n0)
         = Returns (dot_join labels ++ [0%N]))
  \/ ((forall labels, n0 :: body <> encode_labels labels)
      /\ dots_in_place (length (body ++ [0%N])) (body ++ [0%N]) (N.to_nat n0)
         = Panics IndexOutOfRange).
Proof.
  intros Hn0 Hbody. set (k := N.to_nat n0).
  destruct (decide (k <= length body)) as [Hk|Hk].
  - destruct (dots_walk (length (body ++ [0%N])) (drop k body) (take k body))
      as [(labels & Hlabels & Hrun)|[Hno Hrun]].
    + by apply Forall_drop.
    + rewrite length_drop, length_app. lia.
    + left. exists (take k body :: labels).
      assert (n0 :: body = encode_labels (take k body :: labels)) as Heq.
      { rewrite encode_labels_cons, length_take.
        replace (k `min` length body) with k by lia.
        unfold k. rewrite N2Nat.id. f_equal.
        by rewrite <- Hlabels, take_drop. }
      split; [done|]. split.
      { apply encode_labels_label_ok. rewrite <- Heq. by constructor. }
      split; [done|].
      rewrite length_take in Hrun.
      replace (k `min` length body) with k in Hrun by lia.
      rewrite app_assoc, take_drop in Hrun.
      by rewrite Hrun, dot_join_cons, <- app_assoc.
    + right. split.
      * intros [|l labels] Heq; [done|].
        rewrite encode_labels_cons in Heq. injection Heq as Hb' Heq.
        assert (length l = k) as Hl by (unfold k; rewrite Hb'; lia).
        apply (Hno labels). rewrite Heq, drop_app_length'; done.
      * rewrite length_take in Hrun.
        replace (k `min` length body) with k in Hrun by lia.
        by rewrite app_assoc, take_drop in Hrun.
  - right. split.
    + intros [|l labels] Heq; [done|].
      rewrite encode_labels_cons in Heq. injection Heq as Hb' Heq.
      apply Hk. unfold k. rewrite Hb', Heq, length_app. lia.
    + destruct (length (body ++ [0%N])); simpl;
        (rewrite lookup_ge_None_2; [done|rewrite length_app; simpl; lia]).
Qed.

Lemma first_zero_unique (body body' rest rest' : list N) :
  body ++ 0%N :: rest = body' ++ 0%N :: rest' ->
  Forall (fun b => b <> 0%N) body ->
  Forall (fun b => b <> 0%N) body' ->
  body = body' /\ rest = rest'.
Proof.
  intros Heq Hbody. revert body' Heq.
  induction Hbody as [|b body Hb Hbody IH]; intros body' Heq Hbody'.
  - destruct Hbody' as [|b' body' Hb' Hbody']; simpl in Heq.
    + by injection Heq as ->.
    + injection Heq as <- _. done.
  - destruct Hbody' as [|b' body' Hb' Hbody']; simpl in Heq.
    + injection Heq as -> _. done.
    + injection Heq as <- Heq. destruct (IH body' Heq Hbody') as [-> ->].
      done.
Qed.

Lemma question_split_unique q body rest body' rest' :
  question_split q body rest -> question_split q body' rest' ->
  body = body' /\ rest = rest'.
Proof.
  intros (-> & Hbody & _) (Heq & Hbody' & _).
  by apply first_zero_unique.
Qed.

Lemma question_split_dec q :
  (exists body rest, question_split q body rest)
  \/ (forall body rest, ~ question_split q body rest).
Proof.
  induction q as [|b q IH].
  - right. intros body rest (Heq & _). by destruct body.
  - destruct (N.eq_dec b 0%N) as [->|Hb].
    + destruct (decide (4 <= length q)) as [Hlen|Hlen].
      * left. exists [], q. split; [done|]. split; [constructor|done].
      * right. intros body rest (Heq & Hbody & Hrest).
        destruct Hbody as [|b' body Hb' Hbody]; simpl in Heq.
        -- injection Heq as ->. done.
        -- injection Heq as <- _. done.
    + destruct IH as [(body & rest & -> & Hbody & Hrest)|Hno].
      * left. exists (b :: body), rest. split; [done|].
        split; [by constructor|done].
      * right. intros body rest (Heq & Hbody & Hrest).
        destruct Hbody as [|b' body Hb' Hbody]; simpl in Heq.
        -- injection Heq as -> _. done.
        -- injection Heq as <- ->. by apply (Hno body rest).
Qed.

Lemma question_labelled_split q labels rest :
  question_labelled q labels rest ->
  question_split q (encode_labels labels) rest
  /\ exists n0 body, encode_labels labels = n0 :: body.
Proof.
  intros (Hne & Hok & -> & Hrest). split.
  - split; [done|]. split; [by apply encode_labels_nonzero|done].
  - pose proof (length_encode_labels_pos labels Hne) as Hpos.
    destruct (encode_labels labels) as [|n0 body]; [simpl in Hpos; lia|].
    by exists n0, body.
Qed.

(** The four ways a call of ParseMessage ends. *)
Lemma ParseMessage_cases alias dst payload copying :
  ((length payload < 12 \/ qdcount_of payload <> 1%N)
   /\ ParseMessage alias dst payload copying
      = Returns (rejected_message alias dst payload copying, Some ErrInvalidHeader))
  \/ (12 <= length payload /\ qdcount_of payload = 1%N
      /\ (forall body rest,
            question_split (drop 12 payload) body rest -> body = [])
      /\ ParseMessage alias dst payload copying
         = Returns (rejected_message alias dst payload copying,
                    Some ErrInvalidQuestion))
  \/ (12 <= length payload /\ qdcount_of payload = 1%N
      /\ exists labels rest,
           question_labelled (drop 12 payload) labels rest
           /\ ParseMessage alias dst payload copying
              = Returns (parsed_message dst payload copying labels rest, None))
  \/ (12 <= length payload /\ qdcount_of payload = 1%N
      /\ (exists b body rest,
            question_split (drop 12 payload) (b :: body) rest
            /\ forall labels, b :: body <> encode_labels labels)
      /\ ParseMessage alias dst payload copying = Panics IndexOutOfRange).
Proof.
  destruct (decide (length payload < 12)) as [Hshort|Hlen].
  { left. split; [by left|]. rewrite ParseMessage_short by done.
    unfold rejected_message.
    by destruct (Nat.ltb_spec (length payload) 12); [|lia]. }
  assert (12 <= length payload) as Hlen' by lia. clear Hlen.
  assert (rejected_message alias dst payload copying
          = mkMessage (if copying then payload else Raw dst) (Domain dst)
                      (header_of payload)
                      (question_after_copy alias dst payload copying))
    as Hrej.
  { unfold rejected_message.
    by destruct (Nat.ltb_spec (length payload) 12); [lia|]. }
  destruct (N.eq_dec (qdcount_of payload) 1%N) as [Hqd|Hqd].
  2:{ left. split; [by right|].
      by rewrite ParseMessage_bad_qdcount, Hrej. }
  right.
  destruct (question_split_dec (drop 12 payload))
    as [(body & rest & Hsplit)|Hno].
  2:{ left. do 2 (split; [done|]). split.
      - intros body rest Hs. by destruct (Hno body rest).
      - rewrite ParseMessage_undelimited, Hrej; [done..|].
        intros body rest Hs. by destruct (Hno body rest). }
  destruct body as [|n0 body].
  { left. do 2 (split; [done|]).
    assert (forall body' rest',
              question_split (drop 12 payload) body' rest' -> body' = [])
      as Hall.
    { intros body' rest' Hs.
      by destruct (question_split_unique _ _ _ _ _ Hsplit Hs) as [<- _]. }
    split; [done|]. by rewrite ParseMessage_undelimited, Hrej. }
  right.
  rewrite (ParseMessage_delimited alias dst payload copying n0 body rest)
    by done.
  destruct Hsplit as (Hq & Hbody & Hrest).
  inversion Hbody as [|? ? Hn0 Hbody']; subst.
  destruct (first_label_walk n0 body Hn0 Hbody')
    as [(labels & Hne & Hok & Henc & Hrun)|[Hnone Hrun]].
  - left. do 2 (split; [done|]). exists labels, rest. split.
    + split; [done|]. split; [done|]. split; [|done].
      by rewrite <- Henc.
    + rewrite Hrun. cbn [obind]. rewrite drop_last_snoc. cbn [obind].
      unfold parsed_message. rewrite <- Henc. done.
  - right. do 2 (split; [done|]). split.
    + exists n0, body, rest. split; [|done]. split; [done|]. by split.
    + by rewrite Hrun.
Qed.

(** Take the four cases of a call of ParseMessage apart. *)
Ltac parse_cases alias dst payload copying :=
  destruct (ParseMessage_cases alias dst payload copying)
    as [[Hcond Hrun]
       |[(Hlen & Hqd & Hnosplit & Hrun)
        |[(Hlen & Hqd & labels & rest & Hlab & Hrun)
         |(Hlen & Hqd & (b & body & rest & Hsplit & Hnolab) & Hrun)]]].

Lemma labelled_not_undelimited q labels rest :
  question_labelled q labels rest ->
  ~ (forall body rest', question_split q body rest' -> body = []).
Proof.
  intros Hlab Hno.
  destruct (question_labelled_split _ _ _ Hlab) as [Hs (n0 & body & Heq)].
  apply Hno in Hs. congruence.
Qed.

Lemma labelled_not_unlabelled q labels rest b body rest' :
  question_labelled q labels rest ->
  question_split q (b :: body) rest' ->
  ~ (forall labels', b :: body <> encode_labels labels').
Proof.
  intros Hlab Hs Hno.
  destruct (question_labelled_split _ _ _ Hlab) as [Hs' _].
  destruct (question_split_unique _ _ _ _ _ Hs Hs') as [Heq _].
  by apply (Hno labels).
Qed.

(** X1. ParseMessage returns ErrInvalidHeader exactly when the payload
    has fewer than twelve bytes or its QDCOUNT is not 1. *)
Theorem ParseMessage_invalid_header_iff alias dst payload copying :
  (exists msg,
     ParseMessage alias dst payload copying = Returns (msg, Some ErrInvalidHeader))
  <-> (length payload < 12 \/ qdcount_of payload <> 1%N).
Proof.
  parse_cases alias dst payload copying; rewrite Hrun.
  - split; [done|]. intros _. by eexists.
  - split; [by intros [msg [=]]|]. intros [?|?]; [lia|done].
  - split; [by intros [msg [=]]|]. intros [?|?]; [lia|done].
  - split; [by intros [msg [=]]|]. intros [?|?]; [lia|done].
Qed.

(** X2. ParseMessage returns ErrInvalidQuestion exactly when the header
    is accepted and the bytes after it do not start with a non-empty run
    of non-zero bytes, a zero byte and four more bytes: the first byte
    after the header is zero, or there is no zero byte, or fewer than four
    bytes follow the first one. *)
Theorem ParseMessage_invalid_question_iff alias dst payload copying :
  (exists msg,
     ParseMessage alias dst payload copying
     = Returns (msg, Some ErrInvalidQuestion))
  <-> (12 <= length payload /\ qdcount_of payload = 1%N
       /\ forall body rest,
            question_split (drop 12 payload) body rest -> body = []).
Proof.
  parse_cases alias dst payload copying; rewrite Hrun.
  - split; [by intros [msg [=]]|]. intros (? & ? & _).
    destruct Hcond; [lia|done].
  - split; [done|]. intros _. by eexists.
  - split; [by intros [msg [=]]|]. intros (_ & _ & Hno).
    by destruct (labelled_not_undelimited _ _ _ Hlab).
  - split; [by intros [msg [=]]|]. intros (_ & _ & Hno).
    by apply Hno in Hsplit.
Qed.

(** X3. ParseMessage returns without error exactly when the header is
    accepted and the bytes after it are a non-empty sequence of labels,
    each a length byte and that many non-zero bytes, then a zero byte and
    at least four more bytes. *)
Theorem ParseMessage_success_iff alias dst payload copying :
  (exists msg, ParseMessage alias dst payload copying = Returns (msg, None))
  <-> (12 <= length payload /\ qdcount_of payload = 1%N
       /\ exists labels rest,
            question_labelled (drop 12 payload) labels rest).
Proof.
  parse_cases alias dst payload copying; rewrite Hrun.
  - split; [by intros [msg [=]]|]. intros (? & ? & _).
    destruct Hcond; [lia|done].
  - split; [by intros [msg [=]]|]. intros (_ & _ & labels & rest & Hlab).
    by destruct (labelled_not_undelimited _ _ _ Hlab).
  - split; [|intros _; by eexists]. intros _. do 2 (split; [done|]).
    by exists labels, rest.
  - split; [by intros [msg [=]]|]. intros (_ & _ & labels & rest' & Hlab).
    by destruct (labelled_not_unlabelled _ _ _ _ _ _ Hlab Hsplit).
Qed.

(** X4. Whenever ParseMessage returns without error, the bytes after
    the header are labels, a zero byte and a rest of at least four bytes,
    and the message holds: the payload in Raw when copying (the old Raw
    otherwise), the labels joined by dots in Domain, the six header words
    read big-endian, the labels with the zero byte as Question.Name, and
    the two words behind the name as Type and Class. *)
Theorem ParseMessage_success_fields alias dst payload copying msg :
  ParseMessage alias dst payload copying = Returns (msg, None) ->
  exists labels rest,
    question_labelled (drop 12 payload) labels rest
    /\ msg = parsed_message dst payload copying labels rest.
Proof.
  intros H. parse_cases alias dst payload copying; rewrite Hrun in H;
    try discriminate H.
  injection H as <-. by exists labels, rest.
Qed.

Lemma ParseMessage_success_fields_example :
  exists labels rest,
    question_labelled (drop 12 example_com_query) labels rest
    /\ example_com_message
       = parsed_message zero_message example_com_query true labels rest.
Proof.
  apply (ParseMessage_success_fields Detached zero_message example_com_query true
           example_com_message).
  reflexivity.
Defined.

(** X5. After a successful ParseMessage the question name is two bytes
    longer than Domain and ends in a zero byte, the header and the
    question, [16 + len(Name)] bytes, lie within the payload, so that the
    slice expression VisitResourceRecords starts with is in bounds, and
    Domain is not empty and holds no zero byte. *)
Theorem ParseMessage_success_bounds alias dst payload copying msg :
  ParseMessage alias dst payload copying = Returns (msg, None) ->
  length (name_bytes msg) = length (Domain msg) + 2
  /\ 16 + length (name_bytes msg) <= length payload
  /\ last (name_bytes msg) = Some 0%N
  /\ Domain msg <> []
  /\ Forall (fun b => b <> 0%N) (Domain msg).
Proof.
  intros H. parse_cases alias dst payload copying; rewrite Hrun in H;
    try discriminate H.
  injection H as <-. destruct Hlab as (Hne & Hok & Hq & Hrest).
  unfold parsed_message, name_bytes. simpl.
  assert (Forall (fun l : list N => l <> []) labels) as Hne'.
  { eapply Forall_impl; [exact Hok|]. by intros l [? _]. }
  pose proof (length_encode_dotted labels) as Hed.
  pose proof (dotted_dot_join labels Hne) as Hdj.
  assert (length (dotted labels) = S (length (dot_join labels))) as Hlen'.
  { by rewrite Hdj. }
  split; [rewrite length_app; simpl; lia|].
  split.
  { assert (length (drop 12 payload)
            = length (encode_labels labels ++ 0%N :: rest)) as Hl
      by (by rewrite Hq).
    rewrite length_drop, !length_app in *. simpl in *. lia. }
  split; [by rewrite last_snoc|].
  split.
  { intros Hnil. rewrite Hnil in Hlen'. simpl in Hlen'.
    destruct labels as [|l [|l' ls]]; [done| |].
    - simpl in Hnil. subst l. inversion Hne'; done.
    - rewrite dot_join_cons in Hnil. by destruct l. }
  assert (Forall (fun b => b <> 0%N) (dotted labels)) as Hd.
  { clear -Hok. induction Hok as [|l ls [_ Hl] Hls IH]; [constructor|].
    rewrite dotted_cons. constructor; [done|]. by apply Forall_app. }
  rewrite Hdj in Hd. by inversion Hd.
Qed.

Lemma ParseMessage_success_bounds_example :
  length (name_bytes example_com_message)
  = length (Domain example_com_message) + 2
  /\ 16 + length (name_bytes example_com_message)
     <= length example_com_query
  /\ last (name_bytes example_com_message) = Some 0%N
  /\ Domain example_com_message <> []
  /\ Forall (fun b => b <> 0%N) (Domain example_com_message).
Proof.
  apply (ParseMessage_success_bounds Detached zero_message example_com_query true
           example_com_message).
  reflexivity.
Defined.

(** X6. ParseMessage panics exactly when the header is accepted, the
    bytes after it start with a non-empty run of non-zero bytes, a zero
    byte and four more bytes, and that run is not a sequence of labels:
    some length byte reaches past the zero byte that ends the name. *)
Theorem ParseMessage_panics_iff alias dst payload copying :
  (exists p, ParseMessage alias dst payload copying = Panics p)
  <-> (12 <= length payload /\ qdcount_of payload = 1%N
       /\ exists b body rest,
            question_split (drop 12 payload) (b :: body) rest
            /\ forall labels, b :: body <> encode_labels labels).
Proof.
  parse_cases alias dst payload copying; rewrite Hrun.
  - split; [by intros [p [=]]|]. intros (? & ? & _).
    destruct Hcond; [lia|done].
  - split; [by intros [p [=]]|].
    intros (_ & _ & b & body & rest & Hs & _). by apply Hnosplit in Hs.
  - split; [by intros [p [=]]|].
    intros (_ & _ & b & body & rest' & Hs & Hno).
    by destruct (labelled_not_unlabelled _ _ _ _ _ _ Hlab Hs).
  - split; [|intros _; by eexists]. intros _. do 2 (split; [done|]).
    by exists b, body, rest.
Qed.

(** X7. A call of ParseMessage ends in one of four ways: it returns
    ErrInvalidHeader or ErrInvalidQuestion, it returns without error, or
    one of its reads is out of range. It never returns ErrInvalidAnswer,
    it does not loop forever, and no slice expression of it panics. *)
Theorem ParseMessage_outcomes alias dst payload copying :
  ParseMessage alias dst payload copying
  = Returns (rejected_message alias dst payload copying, Some ErrInvalidHeader)
  \/ ParseMessage alias dst payload copying
     = Returns (rejected_message alias dst payload copying, Some ErrInvalidQuestion)
  \/ (exists labels rest,
        ParseMessage alias dst payload copying
        = Returns (parsed_message dst payload copying labels rest, None))
  \/ ParseMessage alias dst payload copying = Panics IndexOutOfRange.
Proof.
  parse_cases alias dst payload copying; rewrite Hrun.
  - by left.
  - right. by left.
  - right. right. left. by exists labels, rest.
  - by do 3 right.
Qed.

(** X8. When ParseMessage returns an error, Domain, Question.Type and
    Question.Class of the message are as they were; Raw holds the payload
    when copying; the header is as it was when the payload is shorter
    than twelve bytes, and holds the six words of the payload otherwise;
    the error is not ErrInvalidAnswer. Question.Name is as it was when
    the call does not copy, and when the name is nil or no view of the
    array behind Raw. On a message whose name is a view of that array, a
    copying call that reports an error has still written the payload
    over the array when it fits the capacity: the name then reads, at its
    old place and of its old length, the bytes that array holds now; a
    payload beyond the capacity goes to a new array, and the name reads
    what it read. *)
Theorem ParseMessage_error_state alias dst payload copying msg e :
  ParseMessage alias dst payload copying = Returns (msg, Some e) ->
  Domain msg = Domain dst
  /\ Type_ (Question msg) = Type_ (Question dst)
  /\ Class_ (Question msg) = Class_ (Question dst)
  /\ Raw msg = (if copying then payload else Raw dst)
  /\ Header msg = (if (length payload <? 12)%nat then Header dst
                   else header_of payload)
  /\ e <> ErrInvalidAnswer
  /\ (copying = false \/ alias = Detached \/ Name (Question dst) = None ->
      Name (Question msg) = Name (Question dst))
  /\ (forall offset spare name,
        copying = true ->
        alias = ViewOfRaw offset spare ->
        Name (Question dst) = Some name ->
        (length payload <= length (Raw dst ++ spare) ->
         Name (Question msg)
         = Some (take (length name)
                      (drop offset
                            (payload
                             ++ drop (length payload) (Raw dst ++ spare)))))
        /\ (length (Raw dst ++ spare) < length payload ->
            Name (Question msg) = Some name)).
Proof.
  intros H.
  assert (msg = rejected_message alias dst payload copying
          /\ e <> ErrInvalidAnswer) as [-> He].
  { parse_cases alias dst payload copying; rewrite Hrun in H;
      try discriminate H; by injection H as <- <-. }
  unfold rejected_message, question_after_copy, name_after_copy.
  cbn [Domain Raw Header Question].
  do 3 (split; [by destruct copying|]). do 3 (split; [done|]). split.
  - intros [->|[->|Hnil]]; [done|by destruct copying|].
    destruct copying; [|done]. cbn [Name]. rewrite Hnil. by destruct alias.
  - intros offset spare name -> -> Hname. cbn [Name]. rewrite Hname.
    split; intros Hfit.
    + by destruct (Nat.leb_spec (length payload) (length (Raw dst ++ spare)));
        [|lia].
    + by destruct (Nat.leb_spec (length payload) (length (Raw dst ++ spare)));
        [lia|].
Qed.

(** A message that holds the parsed query for "example.com", with its
    name a view of Raw from offset 12, is handed a payload of sixteen
    bytes whose name has no end. The call reports ErrInvalidQuestion, and
    Question.Name, thirteen bytes from offset 12, now reads the four
    bytes of the new name and then what is left of the old packet. *)
Lemma ParseMessage_error_on_reused_message :
  ParseMessage (ViewOfRaw 12 []) example_com_message unterminated_query true
  = Returns (rejected_message (ViewOfRaw 12 []) example_com_message
                              unterminated_query true,
             Some ErrInvalidQuestion)
  /\ Name (Question (rejected_message (ViewOfRaw 12 []) example_com_message
                                      unterminated_query true))
     = Some ([1; 97; 1; 98]%N
             ++ drop 16 (take 25 (Raw example_com_message))).
Proof.
  split; [reflexivity|].
  destruct (ParseMessage_error_state
              (ViewOfRaw 12 []) example_com_message unterminated_query true
              (rejected_message (ViewOfRaw 12 []) example_com_message
                                unterminated_query true)
              ErrInvalidQuestion eq_refl)
    as (_ & _ & _ & _ & _ & _ & _ & Hview).
  destruct (Hview 12 [] _ eq_refl eq_refl eq_refl) as [Hin _].
  rewrite Hin; [reflexivity|]. vm_compute. lia.
Defined.

(** ** ParseRequest *)

(** The ways a call of ParseRequest ends. *)
Lemma ParseRequest_cases dst payload :
  (length payload < 12
   /\ Req.ParseRequest dst payload = Returns (dst, Some ErrInvalidHeader))
  \/ (12 <= length payload /\ qdcount_of payload <> 1%N
      /\ Req.ParseRequest dst payload
         = Returns (Req.mkRequest (request_header_of payload)
                                  (Req.Question dst),
                    Some ErrInvalidHeader))
  \/ (12 <= length payload /\ qdcount_of payload = 1%N
      /\ (forall body rest, ~ question_split (drop 12 payload) body rest)
      /\ Req.ParseRequest dst payload
         = Returns (Req.mkRequest (request_header_of payload)
                                  (Req.Question dst),
                    Some ErrInvalidQuestion))
  \/ (12 <= length payload /\ qdcount_of payload = 1%N
      /\ exists body rest,
           question_split (drop 12 payload) body rest
           /\ Req.ParseRequest dst payload
              = Returns (Req.mkRequest
                           (request_header_of payload)
                           (Req.mkQuestion
                              (body ++ [0%N])
                              (be16 (byte_at rest 0) (byte_at rest 1))
                              (be16 (byte_at rest 2) (byte_at rest 3))),
                         None)).
Proof.
  destruct (decide (length payload < 12)) as [Hshort|Hlen].
  { left. split; [done|]. unfold Req.ParseRequest.
    by destruct (Nat.ltb_spec (length payload) 12); [|lia]. }
  assert (12 <= length payload) as Hlen' by lia. clear Hlen.
  right. unfold Req.ParseRequest.
  destruct (Nat.ltb_spec (length payload) 12) as [|_]; [lia|].
  pose proof Hlen' as Hlen.
  split_header payload Hlen'.
  unfold qdcount_of, request_header_of, byte_at. simpl.
  rewrite be16_swap.
  destruct (N.eqb_spec (be16 n3 n4) 1) as [Hqd|Hqd]; simpl.
  2:{ left. by do 2 (split; [try done; simpl; lia|]). }
  right. rewrite drop_0.
  destruct (range_until_zero_cases payload 0 0)
    as [(body & rest & Hp & Hbody & Hi)|[[Hp Hi]|[Hp Hi]]].
  - rewrite Hi. cbn [Nat.add].
    destruct (Nat.ltb_spec (length payload) (length body + 5)) as [Hlt|Hge].
    + left. do 2 (split; [try done; simpl; lia|]). split; [|done].
      intros body' rest' (Hq & Hbody' & Hrest').
      rewrite Hp in Hq.
      destruct (first_zero_unique _ _ _ _ Hq Hbody Hbody') as [-> ->].
      rewrite Hp, length_app in Hlt. simpl in Hlt. lia.
    + right. do 2 (split; [try done; simpl; lia|]).
      exists body, rest.
      assert (4 <= length rest) as Hrest.
      { rewrite Hp, length_app in Hge. simpl in Hge. lia. }
      split; [done|]. subst payload.
      replace (body ++ 0%N :: rest) with ((body ++ [0%N]) ++ rest)
        by by rewrite <- app_assoc.
      replace (length body + 1) with (length (body ++ [0%N]))
        by (rewrite length_app; simpl; lia).
      rewrite slice_prefix. cbn [obind].
      rewrite <- app_assoc. cbn [app].
      rewrite slice_from_app. cbn [obind].
      destruct rest as [|r0 [|r1 [|r2 [|r3 rest]]]];
        try (simpl in Hrest; lia).
      simpl. by rewrite !be16_swap.
  - left. do 2 (split; [try done; simpl; lia|]). subst payload. simpl.
    split; [|done]. intros body rest (Hq & _). by destruct body.
  - left. do 2 (split; [try done; simpl; lia|]).
    destruct (Nat.ltb_spec (length payload)
                           (range_until_zero 0 0 payload + 5)) as [_|]; [|lia].
    split; [|done]. intros body rest (Hq & Hbody & Hrest).
    destruct (range_until_zero_cases payload 0 0)
      as [(body' & rest' & Hp' & Hbody'' & Hi')|[[Hp' Hi']|[Hp' Hi']]];
      [|done|].
    + subst payload. rewrite range_until_zero_app in Hi by done.
      rewrite length_app in Hi. simpl in Hi. lia.
    + subst payload. rewrite range_until_zero_app in Hi by done.
      rewrite length_app in Hi. simpl in Hi. lia.
Qed.

Ltac request_cases dst payload :=
  destruct (ParseRequest_cases dst payload)
    as [[Hlen Hrun]
       |[(Hlen & Hqd & Hrun)
        |[(Hlen & Hqd & Hnosplit & Hrun)
         |(Hlen & Hqd & body & rest & Hsplit & Hrun)]]].

(** X9. ParseRequest returns on every payload: each of its reads is
    guarded. It never returns ErrInvalidAnswer. *)
Theorem ParseRequest_never_panics dst payload :
  exists req err,
    Req.ParseRequest dst payload = Returns (req, err)
    /\ err <> Some ErrInvalidAnswer.
Proof.
  request_cases dst payload; rewrite Hrun; by do 2 eexists.
Qed.

(** X10. ParseRequest returns without error exactly when the payload
    has twelve bytes with QDCOUNT = 1 and, behind them, a run of non-zero
    bytes, which may be empty, a zero byte and at least four more
    bytes. *)
Theorem ParseRequest_success_iff dst payload :
  (exists req, Req.ParseRequest dst payload = Returns (req, None))
  <-> (12 <= length payload /\ qdcount_of payload = 1%N
       /\ exists body rest, question_split (drop 12 payload) body rest).
Proof.
  request_cases dst payload; rewrite Hrun.
  - split; [by intros [req [=]]|]. intros (? & _). lia.
  - split; [by intros [req [=]]|]. by intros (_ & ? & _).
  - split; [by intros [req [=]]|]. intros (_ & _ & body & rest & Hs).
    by destruct (Hnosplit body rest).
  - split; [|intros _; by eexists]. intros _. do 2 (split; [done|]).
    by exists body, rest.
Qed.

(** X11. Whenever ParseRequest returns without error, the request holds
    the header fields of the payload, the bytes after the header up to and
    including the first zero byte as Question.Name, and the two words
    behind it as Type and Class. *)
Theorem ParseRequest_success_fields dst payload req :
  Req.ParseRequest dst payload = Returns (req, None) ->
  exists body rest,
    question_split (drop 12 payload) body rest
    /\ Req.Header req = request_header_of payload
    /\ Req.Name (Req.Question req) = body ++ [0%N]
    /\ Req.Type_ (Req.Question req) = be16 (byte_at rest 0) (byte_at rest 1)
    /\ Req.Class_ (Req.Question req) = be16 (byte_at rest 2) (byte_at rest 3).
Proof.
  intros H. request_cases dst payload; rewrite Hrun in H;
    try discriminate H.
  injection H as <-. by exists body, rest.
Qed.

Lemma ParseRequest_success_fields_example :
  exists body rest,
    question_split (drop 12 example_com_query) body rest
    /\ Req.Header example_com_request = request_header_of example_com_query
    /\ Req.Name (Req.Question example_com_request) = body ++ [0%N]
    /\ Req.Type_ (Req.Question example_com_request)
       = be16 (byte_at rest 0) (byte_at rest 1)
    /\ Req.Class_ (Req.Question example_com_request)
       = be16 (byte_at rest 2) (byte_at rest 3).
Proof.
  apply (ParseRequest_success_fields empty_request example_com_query
           example_com_request).
  reflexivity.
Defined.

(** ** The two codecs, and parsing followed by serializing *)

Lemma shiftr_div (x k : N) : N.shiftr x k = (x / 2 ^ k)%N.
Proof. apply N.shiftr_div_pow2. Qed.

Lemma land_low (x k : N) : N.land x (N.ones k) = (x mod 2 ^ k)%N.
Proof. apply N.land_ones. Qed.

Lemma be16_value hi lo :
  is_byte hi -> is_byte lo -> be16 hi lo = (hi * 256 + lo)%N.
Proof.
  unfold is_byte. intros Hhi Hlo.
  rewrite <- (be16_div_mod (hi * 256 + lo)) by lia.
  f_equal; lia_div.
Qed.

Lemma be16_high_byte hi lo :
  is_byte hi -> is_byte lo -> to_byte (N.shiftr (be16 hi lo) 8) = hi.
Proof.
  intros Hhi Hlo. rewrite be16_value by done. unfold is_byte in *.
  unfold to_byte. rewrite shiftr_div. change (2 ^ 8)%N with 256%N. lia_div.
Qed.

Lemma be16_low_byte hi lo :
  is_byte hi -> is_byte lo -> to_byte (N.land (be16 hi lo) 0xff) = lo.
Proof.
  intros Hhi Hlo. rewrite be16_value by done. unfold is_byte in *.
  unfold to_byte. change 0xff%N with (N.ones 8). rewrite land_low.
  change (2 ^ 8)%N with 256%N. lia_div.
Qed.

(** A property of bytes that holds of each of the 256 values. *)
Lemma byte_cases (P : N -> bool) :
  forallb P (map N.of_nat (seq 0 256)) = true ->
  forall b, is_byte b -> P b = true.
Proof.
  intros H b Hb. rewrite forallb_forall in H. apply H.
  apply in_map_iff. exists (N.to_nat b). split; [lia|].
  apply in_seq. unfold is_byte in Hb. lia.
Qed.

Lemma same_flags_of_bytes b2 b3 :
  is_byte b2 -> is_byte b3 ->
  bits_QR (be16 b2 b3) = N.land (N.shiftr b2 7) 1
  /\ bits_Opcode (be16 b2 b3) = N.land (N.shiftr b2 3) 15
  /\ bits_AA (be16 b2 b3) = N.land (N.shiftr b2 2) 1
  /\ bits_TC (be16 b2 b3) = N.land (N.shiftr b2 1) 1
  /\ bits_RD (be16 b2 b3) = N.land b2 1
  /\ bits_RA (be16 b2 b3) = N.land (N.shiftr b3 7) 1
  /\ bits_Z (be16 b2 b3) = N.land (N.shiftr b3 4) 7
  /\ bits_RCODE (be16 b2 b3) = N.land b3 15.
Proof.
  intros H2 H3. rewrite be16_value by done. unfold is_byte in *.
  unfold bits_QR, bits_Opcode, bits_AA, bits_TC, bits_RD, bits_RA, bits_Z,
    bits_RCODE.
  change 1%N with (N.ones 1). change 15%N with (N.ones 4).
  change 7%N with (N.ones 3).
  rewrite !shiftr_div, !land_low.
  change (N.ones 1) with 1%N. change (N.ones 3) with 7%N.
  change (N.ones 4) with 15%N.
  change (2 ^ 1)%N with 2%N. change (2 ^ 2)%N with 4%N.
  change (2 ^ 3)%N with 8%N. change (2 ^ 4)%N with 16%N.
  change (2 ^ 7)%N with 128%N. change (2 ^ 8)%N with 256%N.
  change (2 ^ 9)%N with 512%N. change (2 ^ 10)%N with 1024%N.
  change (2 ^ 11)%N with 2048%N. change (2 ^ 15)%N with 32768%N.
  repeat split; lia_div.
Qed.

Lemma all_bytes_Forall l : all_bytes l = true -> Forall is_byte l.
Proof.
  unfold all_bytes. induction l as [|b l IH]; [constructor|].
  simpl. intros [Hb Hl]%andb_prop.
  constructor; [by apply N.ltb_lt|by apply IH].
Qed.

Lemma byte_at_is_byte payload k :
  Forall is_byte payload -> is_byte (byte_at payload k).
Proof.
  intros H. unfold byte_at. destruct (payload !! k) as [b|] eqn:E; [|done].
  simpl. eapply Forall_lookup_1; done.
Qed.

Lemma header_bytes_of_payload payload :
  Forall is_byte payload -> 12 <= length payload ->
  header_bytes (header_of payload) = take 12 payload.
Proof.
  intros Hbytes Hlen.
  assert (forall k, is_byte (byte_at payload k)) as Hk
    by (intros k; by apply byte_at_is_byte).
  unfold header_bytes, header_of. cbn [ID Bits QDCount ANCount NSCount ARCount].
  rewrite !be16_high_byte, !be16_low_byte by done.
  clear -Hlen. split_header payload Hlen. reflexivity.
Qed.

Lemma type_class_bytes_of_rest rest :
  Forall is_byte rest -> 4 <= length rest ->
  type_class_bytes (be16 (byte_at rest 0) (byte_at rest 1))
                   (be16 (byte_at rest 2) (byte_at rest 3))
  = take 4 rest.
Proof.
  intros Hbytes Hlen.
  assert (forall k, is_byte (byte_at rest k)) as Hk
    by (intros k; by apply byte_at_is_byte).
  unfold type_class_bytes.
  rewrite !be16_high_byte, !be16_low_byte by done.
  destruct rest as [|r0 [|r1 [|r2 [|r3 rest]]]]; try (simpl in Hlen; lia).
  reflexivity.
Qed.

(** The prefix of a payload that holds the header and a question with
    the name [body ++ [0]]. *)
Lemma take_question payload body rest :
  12 <= length payload ->
  drop 12 payload = body ++ 0%N :: rest ->
  4 <= length rest ->
  take (16 + length (body ++ [0%N])) payload
  = take 12 payload ++ (body ++ [0%N]) ++ take 4 rest.
Proof.
  intros Hlen Hq Hrest.
  rewrite <- (take_drop 12 payload) at 1.
  replace (16 + length (body ++ [0%N]))
    with (12 + (length (body ++ [0%N]) + 4)) by lia.
  rewrite take_app_add' by (rewrite length_take; lia).
  f_equal. rewrite Hq.
  replace (body ++ 0%N :: rest) with ((body ++ [0%N]) ++ rest)
    by by rewrite <- app_assoc.
  by rewrite take_app_add'.
Qed.

(** AppendMessage on a message that carries its question name. *)
Lemma AppendMessage_named dst msg name :
  QDCount (Header msg) <> 0%N ->
  Name (Question msg) = Some name ->
  AppendMessage dst msg
  = Returns (dst ++ header_bytes (Header msg) ++ name
                 ++ type_class_bytes (Type_ (Question msg))
                                     (Class_ (Question msg))).
Proof.
  intros Hqd Hname. unfold AppendMessage. rewrite Hname.
  destruct (N.eqb_spec (QDCount (Header msg)) 0) as [|_]; [done|].
  cbn [negb obind]. unfold header_bytes, type_class_bytes.
  f_equal. rewrite <- !app_assoc. done.
Qed.

(** X12. The two parsers agree. On a payload of bytes that ParseMessage
    parses without error, ParseRequest returns without error as well, with
    the same ID, counts, question name, type and class, and with flag
    fields that are the fields of ParseMessage's flag word [Bits] by the
    layout QR(1) Opcode(4) AA(1) TC(1) RD(1) RA(1) Z(3) RCODE(4). *)
Theorem ParseRequest_agrees_with_ParseMessage alias dst rdst payload copying msg :
  Forall is_byte payload ->
  ParseMessage alias dst payload copying = Returns (msg, None) ->
  exists req,
    Req.ParseRequest rdst payload = Returns (req, None)
    /\ Req.ID (Req.Header req) = ID (Header msg)
    /\ same_flags (Req.Header req) (Bits (Header msg))
    /\ Req.QDCount (Req.Header req) = QDCount (Header msg)
    /\ Req.ANCount (Req.Header req) = ANCount (Header msg)
    /\ Req.NSCount (Req.Header req) = NSCount (Header msg)
    /\ Req.ARCount (Req.Header req) = ARCount (Header msg)
    /\ Req.Name (Req.Question req) = name_bytes msg
    /\ Req.Type_ (Req.Question req) = Type_ (Question msg)
    /\ Req.Class_ (Req.Question req) = Class_ (Question msg).
Proof.
  intros Hbytes H.
  destruct (ParseMessage_cases alias dst payload copying)
    as [[_ Hrun]|[(_ & _ & _ & Hrun)
       |[(_ & _ & labels & tail & Hlab & Hrun)|(_ & _ & _ & Hrun)]]];
    rewrite Hrun in H; try discriminate H.
  injection H as <-.
  destruct (question_labelled_split _ _ _ Hlab) as [Hs _].
  pose proof Hrun as Hparsed. clear Hrun.
  request_cases rdst payload.
  - destruct Hlab as (_ & _ & Hq & _).
    rewrite drop_ge in Hq by lia. by destruct (encode_labels labels).
  - rewrite ParseMessage_bad_qdcount in Hparsed by done. discriminate Hparsed.
  - by destruct (Hnosplit _ _ Hs).
  - destruct (question_split_unique _ _ _ _ _ Hsplit Hs) as [-> ->].
    eexists. split; [exact Hrun|].
    cbn [Req.Header Req.Question Req.Name Req.Type_ Req.Class_].
    unfold parsed_message, name_bytes, request_header_of, header_of.
    cbn [Header Question Name Type_ Class_ ID Bits QDCount ANCount NSCount
         ARCount Req.ID Req.QDCount Req.ANCount Req.NSCount Req.ARCount].
    split; [done|]. split; [|done].
    pose proof (same_flags_of_bytes (byte_at payload 2) (byte_at payload 3)
                  (byte_at_is_byte _ _ Hbytes) (byte_at_is_byte _ _ Hbytes))
      as (? & ? & ? & ? & ? & ? & ? & ?).
    unfold same_flags.
    cbn [Req.QR Req.Opcode Req.AA Req.TC Req.RD Req.RA Req.Z Req.RCODE].
    by repeat split.
Qed.

Lemma ParseRequest_agrees_on_example_com :
  exists req,
    Req.ParseRequest empty_request example_com_query = Returns (req, None)
    /\ Req.ID (Req.Header req) = ID (Header example_com_message)
    /\ same_flags (Req.Header req) (Bits (Header example_com_message))
    /\ Req.QDCount (Req.Header req) = QDCount (Header example_com_message)
    /\ Req.ANCount (Req.Header req) = ANCount (Header example_com_message)
    /\ Req.NSCount (Req.Header req) = NSCount (Header example_com_message)
    /\ Req.ARCount (Req.Header req) = ARCount (Header example_com_message)
    /\ Req.Name (Req.Question req) = name_bytes example_com_message
    /\ Req.Type_ (Req.Question req) = Type_ (Question example_com_message)
    /\ Req.Class_ (Req.Question req) = Class_ (Question example_com_message).
Proof.
  apply (ParseRequest_agrees_with_ParseMessage Detached zero_message empty_request
           example_com_query true example_com_message).
  - apply all_bytes_Forall. reflexivity.
  - reflexivity.
Defined.

(** X13. Parsing and serializing back. For a payload of bytes that
    ParseMessage parses without error, AppendMessage of the parsed message
    appends the header and the question of the payload, its first
    [16 + len(Name)] bytes, unchanged. *)
Theorem ParseMessage_AppendMessage_roundtrip alias dst out payload copying msg :
  Forall is_byte payload ->
  ParseMessage alias dst payload copying = Returns (msg, None) ->
  AppendMessage out msg
  = Returns (out ++ take (16 + length (name_bytes msg)) payload).
Proof.
  intros Hbytes H.
  destruct (ParseMessage_cases alias dst payload copying)
    as [[_ Hrun]|[(_ & _ & _ & Hrun)
       |[(Hlen & Hqd & labels & rest & Hlab & Hrun)|(_ & _ & _ & Hrun)]]];
    rewrite Hrun in H; try discriminate H.
  injection H as <-.
  destruct Hlab as (Hne & Hok & Hq & Hrest).
  rewrite (AppendMessage_named out _ (encode_labels labels ++ [0%N]));
    [|unfold parsed_message, header_of; cbn [Header QDCount];
      fold (qdcount_of payload); by rewrite Hqd|done].
  unfold parsed_message, name_bytes.
  cbn [Header Question Name Type_ Class_ default from_option id].
  assert (Forall is_byte rest) as Hrest_bytes.
  { assert (Forall is_byte (drop 12 payload)) as Hd by by apply Forall_drop.
    rewrite Hq in Hd. apply Forall_app in Hd as [_ Hd]. by inversion Hd. }
  rewrite header_bytes_of_payload, type_class_bytes_of_rest by done.
  by rewrite (take_question payload (encode_labels labels) rest).
Qed.

Lemma ParseMessage_AppendMessage_example_com :
  AppendMessage [] example_com_message
  = Returns ([] ++ take (16 + length (name_bytes example_com_message))
                        example_com_query).
Proof.
  apply (ParseMessage_AppendMessage_roundtrip Detached zero_message [] example_com_query
           true example_com_message).
  - apply all_bytes_Forall. reflexivity.
  - reflexivity.
Defined.

Lemma AppendRequest_bytes out req :
  let h := Req.Header req in
  let q := Req.Question req in
  Req.AppendRequest out req
  = out ++ [ to_byte (N.shiftr (Req.ID h) 8); to_byte (N.land (Req.ID h) 0xff);
             request_flags2 h; request_flags3 h;
             to_byte (N.shiftr (Req.QDCount h) 8);
             to_byte (N.land (Req.QDCount h) 0xff);
             to_byte (N.shiftr (Req.ANCount h) 8);
             to_byte (N.land (Req.ANCount h) 0xff);
             to_byte (N.shiftr (Req.NSCount h) 8);
             to_byte (N.land (Req.NSCount h) 0xff);
             to_byte (N.shiftr (Req.ARCount h) 8);
             to_byte (N.land (Req.ARCount h) 0xff) ]
        ++ (if (Req.QDCount h =? 0)%N then []
            else Req.Name q
                 ++ type_class_bytes (Req.Type_ q) (Req.Class_ q)).
Proof.
  intros h q. unfold Req.AppendRequest. fold h q.
  destruct (Req.QDCount h =? 0)%N; cbn [negb].
  - by rewrite app_nil_r.
  - unfold type_class_bytes, request_flags2, request_flags3.
    rewrite <- !app_assoc. done.
Qed.

(** The first flag byte is rebuilt from its fields. *)
Lemma request_flags2_of_byte payload :
  is_byte (byte_at payload 2) ->
  request_flags2 (request_header_of payload) = byte_at payload 2.
Proof.
  unfold request_flags2, request_header_of.
  cbn [Req.QR Req.Opcode Req.AA Req.TC Req.RD].
  generalize (byte_at payload 2). intros b Hb.
  apply N.eqb_eq. revert b Hb. apply byte_cases. by vm_compute.
Qed.

(** The second flag byte is rebuilt from its fields exactly when its Z
    bits are zero. *)
Lemma request_flags3_of_byte payload :
  is_byte (byte_at payload 3) ->
  request_flags3 (request_header_of payload) = byte_at payload 3
  <-> Req.Z (request_header_of payload) = 0%N.
Proof.
  unfold request_flags3, request_header_of.
  cbn [Req.RA Req.Z Req.RCODE].
  generalize (byte_at payload 3). intros b Hb.
  rewrite <- !N.eqb_eq.
  assert (Bool.eqb
            (N.lor (N.lor (to_byte (N.shiftl (N.land (N.shiftr b 7) 1) (7 - 0)))
                          (to_byte (N.shiftl (N.land (N.shiftr b 4) 7) (7 - 1))))
                   (to_byte (N.shiftl (to_byte (N.land b 15)) (7 - (4 + 3))))
             =? b)%N
            (N.land (N.shiftr b 4) 7 =? 0)%N = true) as H.
  { revert b Hb. apply byte_cases. by vm_compute. }
  apply Bool.eqb_prop in H. by rewrite H.
Qed.

(** X14. For a payload of bytes that ParseRequest parses without error,
    AppendRequest of the parsed request appends the first
    [16 + len(Name)] bytes of the payload unchanged exactly when the Z
    field it read is zero. *)
Theorem ParseRequest_AppendRequest_roundtrip dst out payload req :
  Forall is_byte payload ->
  Req.ParseRequest dst payload = Returns (req, None) ->
  Req.AppendRequest out req
  = out ++ take (16 + length (Req.Name (Req.Question req))) payload
  <-> Req.Z (Req.Header req) = 0%N.
Proof.
  intros Hbytes H.
  request_cases dst payload; rewrite Hrun in H; try discriminate H.
  injection H as <-.
  destruct Hsplit as (Hq & Hbody & Hrest).
  assert (forall k, is_byte (byte_at payload k)) as Hk
    by (intros k; by apply byte_at_is_byte).
  assert (Forall is_byte rest) as Hrest_bytes.
  { assert (Forall is_byte (drop 12 payload)) as Hd by by apply Forall_drop.
    rewrite Hq in Hd. apply Forall_app in Hd as [_ Hd]. by inversion Hd. }
  rewrite AppendRequest_bytes.
  cbn [Req.Header Req.Question Req.Name Req.Type_ Req.Class_].
  rewrite (take_question payload body rest) by done.
  rewrite type_class_bytes_of_rest by done.
  rewrite request_flags2_of_byte by done.
  rewrite <- request_flags3_of_byte by done.
  generalize (request_flags3 (request_header_of payload)). intros b3.
  unfold request_header_of.
  cbn [Req.ID Req.QDCount Req.ANCount Req.NSCount Req.ARCount].
  rewrite !be16_high_byte, !be16_low_byte by done.
  fold (qdcount_of payload). rewrite Hqd. cbn [N.eqb].
  clear -Hlen. split_header payload Hlen. unfold byte_at. simpl.
  split.
  - intros Heq. apply app_inv_head in Heq. by injection Heq.
  - by intros ->.
Qed.

Lemma ParseRequest_AppendRequest_example_com :
  Req.AppendRequest [] example_com_request
  = [] ++ take (16 + length (Req.Name (Req.Question example_com_request)))
               example_com_query
  <-> Req.Z (Req.Header example_com_request) = 0%N.
Proof.
  apply (ParseRequest_AppendRequest_roundtrip empty_request [] example_com_query
           example_com_request).
  - apply all_bytes_Forall. reflexivity.
  - reflexivity.
Defined.

(** X15. For a request whose fields are within their widths, with
    QDCOUNT = 1 and a name that ends at its first zero byte, parsing the
    output of AppendRequest gives the request back exactly when its Z
    field is zero. *)
Theorem AppendRequest_ParseRequest_iff dst req body :
  let h := Req.Header req in
  (Req.ID h < 65536)%N -> (Req.QR h < 2)%N -> (Req.Opcode h < 16)%N ->
  (Req.AA h < 2)%N -> (Req.TC h < 2)%N -> (Req.RD h < 2)%N ->
  (Req.RA h < 2)%N -> (Req.Z h < 8)%N -> (Req.RCODE h < 16)%N ->
  Req.QDCount h = 1%N -> (Req.ANCount h < 65536)%N ->
  (Req.NSCount h < 65536)%N -> (Req.ARCount h < 65536)%N ->
  Req.Name (Req.Question req) = body ++ [0%N] ->
  Forall (fun b => b <> 0%N) body ->
  (Req.Type_ (Req.Question req) < 65536)%N ->
  (Req.Class_ (Req.Question req) < 65536)%N ->
  Req.ParseRequest dst (Req.AppendRequest [] req) = Returns (req, None)
  <-> Req.Z h = 0%N.
Proof.
  intros h Hid Hqr Hop Haa Htc Hrd Hra Hz Hrcode Hqd Han Hns Har Hname Hbody
    Htype Hclass.
  split; [|intros Hz0; by eapply AppendRequest_ParseRequest_Z0].
  intros Hparse.
  assert (Req.Header req
          = request_header_of (Req.AppendRequest [] req)) as Hheader.
  { destruct (ParseRequest_cases dst (Req.AppendRequest [] req))
      as [[_ Hrun]|[(_ & _ & Hrun)|[(_ & _ & _ & Hrun)
         |(_ & _ & body' & rest & _ & Hrun)]]];
      rewrite Hrun in Hparse; try discriminate Hparse.
    injection Hparse as Hreq. apply (f_equal Req.Header) in Hreq.
    cbn [Req.Header] in Hreq. by symmetry. }
  apply (f_equal Req.Z) in Hheader. fold h in Hheader.
  rewrite AppendRequest_bytes in Hheader.
  unfold request_header_of, byte_at in Hheader.
  cbn [app lookup list_lookup default from_option id Req.Z] in Hheader.
  fold h in Hheader. unfold request_flags3 in Hheader.
  revert Hheader.
  assert (Req.RA h = 0 \/ Req.RA h = 1)%N as Hra' by lia.
  assert (Req.Z h = 0 \/ Req.Z h = 1 \/ Req.Z h = 2 \/ Req.Z h = 3
          \/ Req.Z h = 4 \/ Req.Z h = 5 \/ Req.Z h = 6 \/ Req.Z h = 7)%N
    as Hz' by lia.
  assert (Req.RCODE h = 0 \/ Req.RCODE h = 1 \/ Req.RCODE h = 2
          \/ Req.RCODE h = 3 \/ Req.RCODE h = 4 \/ Req.RCODE h = 5
          \/ Req.RCODE h = 6 \/ Req.RCODE h = 7 \/ Req.RCODE h = 8
          \/ Req.RCODE h = 9 \/ Req.RCODE h = 10 \/ Req.RCODE h = 11
          \/ Req.RCODE h = 12 \/ Req.RCODE h = 13 \/ Req.RCODE h = 14
          \/ Req.RCODE h = 15)%N as Hrcode' by lia.
  generalize dependent (Req.RA h). generalize dependent (Req.Z h).
  generalize dependent (Req.RCODE h).
  intros rcode _ Hrcode' z _ Hz' ra _ Hra'.
  destruct Hra' as [-> | ->];
    repeat (destruct Hz' as [-> | Hz']; [|]); subst;
    (repeat (destruct Hrcode' as [-> | Hrcode']; [by vm_compute|]);
     subst; by vm_compute).
Qed.

Lemma AppendRequest_ParseRequest_example_com :
  Req.ParseRequest empty_request (Req.AppendRequest [] example_com_request)
  = Returns (example_com_request, None)
  <-> Req.Z (Req.Header example_com_request) = 0%N.
Proof.
  apply (AppendRequest_ParseRequest_iff empty_request example_com_request
           example_com_body); try (simpl; lia); try reflexivity.
  vm_compute. repeat constructor; done.
Defined.

(** X16. AppendMessage returns on every message, and its output is the
    destination followed by the twelve header bytes and, unless QDCOUNT is
    zero, by the name and the four bytes of Type and Class. The name is
    Question.Name when that is not nil; otherwise it is the segments of
    Domain between its dots, each behind its length as a byte, and a zero
    byte. *)
Theorem AppendMessage_output dst msg :
  AppendMessage dst msg
  = Returns (dst ++ header_bytes (Header msg)
                 ++ (if (QDCount (Header msg) =? 0)%N then []
                     else qname_bytes msg
                          ++ type_class_bytes (Type_ (Question msg))
                                              (Class_ (Question msg)))).
Proof.
  unfold AppendMessage, qname_bytes.
  fold (header_bytes (Header msg)).
  destruct (QDCount (Header msg) =? 0)%N; cbn [negb];
    [by rewrite app_nil_r|].
  destruct (Name (Question msg)) as [name|]; cbn [obind].
  { unfold type_class_bytes. f_equal. rewrite <- !app_assoc. done. }
  set (pre := dst ++ header_bytes (Header msg)).
  pose proof (split_dots_dotfree (Domain msg)) as Hfree.
  pose proof (split_dots_nonempty (Domain msg)) as Hne.
  rewrite <- (dot_join_split_dots (Domain msg)) at 1 2.
  replace (length pre + length (dot_join (split_dots (Domain msg))) + 1
           - length pre)
    with (length (dotted (split_dots (Domain msg))))
    by (rewrite dotted_dot_join by done; simpl; lia).
  replace ((pre ++ [dot]) ++ dot_join (split_dots (Domain msg)))
    with (pre ++ dotted (split_dots (Domain msg)) ++ [])
    by (rewrite dotted_dot_join, app_nil_r, <- app_assoc by done; done).
  rewrite backfill_segments by done. cbn [obind].
  unfold type_class_bytes, length_prefixed, pre. f_equal.
  rewrite app_nil_r, <- !app_assoc. done.
Qed.

(** X17. The packet SetQustion leaves in Raw is the one AppendMessage
    serializes the message to. (EncodeDomain, which SetQustion calls, is
    not among the sources and is modelled from the spec; the property
    needs of it only that it appends [len(domain) + 2] bytes.) *)
Theorem SetQustion_then_AppendMessage rnd msg domain typ class :
  exists msg',
    SetQustion rnd msg domain typ class = Returns msg'
    /\ AppendMessage [] msg' = Returns (Raw msg').
Proof.
  eexists. split; [apply SetQustion_Returns|].
  erewrite AppendMessage_named; [|done|reflexivity].
  cbn [Header Question Raw Type_ Class_ app].
  unfold EncodeDomain, question_header_bytes, header_bytes, type_class_bytes.
  cbn [ID Bits QDCount ANCount NSCount ARCount].
  reflexivity.
Qed.

(** ** DecodeName: literal names, one pointer, and pointers that go wrong *)

Lemma DecodeName_not_fast hops msg spare dst name :
  2 <= length name ->
  ~ question_pointer_prefix name ->
  DecodeName hops msg spare dst name
  = DecodeName_general hops msg spare dst name.
Proof.
  intros Hlen Hfast. unfold DecodeName.
  destruct (Nat.ltb_spec (length name) 2) as [|_]; [lia|].
  destruct name as [|n0 [|n1 name]]; try (simpl in Hlen; lia).
  change (index (n0 :: n1 :: name) 1) with (Returns n1).
  change (index (n0 :: n1 :: name) 0) with (Returns n0).
  cbn [obind].
  destruct (N.eqb_spec n1 12) as [->|]; [|done].
  destruct (N.eqb_spec n0 192) as [->|]; [|done].
  destruct Hfast. by split.
Qed.

(** The decoder after its two ways of taking the name in. *)
Lemma DecodeName_general_literal hops msg spare dst pre :
  DecodeName_general hops msg spare dst (pre ++ [0%N])
  = (let out := dst ++ pre ++ [0%N] in
     do buf <- dots_in_place (length out) out (length dst);
     do rest <- slice buf (length dst + 1) (length buf - 1);
     Returns (take (length dst) buf ++ rest)).
Proof.
  unfold DecodeName_general.
  replace (length (pre ++ [0%N]) - 1) with (length pre)
    by (rewrite length_app; simpl; lia).
  rewrite index_middle. cbn [obind N.eqb fst snd].
  rewrite chase_pointers_unfold. cbn [Nat.eqb obind]. done.
Qed.

Lemma DecodeName_general_pointer hops msg spare dst pre p q :
  q <> 0%N ->
  DecodeName_general hops msg spare dst (pre ++ [p; q])
  = (do out <- chase_pointers hops (Raw msg) spare (pointer_offset p q)
                              (dst ++ pre);
     do buf <- dots_in_place (length out) out (length dst);
     do rest <- slice buf (length dst + 1) (length buf - 1);
     Returns (take (length dst) buf ++ rest)).
Proof.
  intros Hq.
  assert (index (pre ++ [p; q]) (length (pre ++ [p; q]) - 1) = Returns q)
    as Hlast.
  { replace (length (pre ++ [p; q]) - 1) with (length (pre ++ [p]))
      by (rewrite !length_app; simpl; lia).
    replace (pre ++ [p; q]) with ((pre ++ [p]) ++ [q])
      by by rewrite <- app_assoc.
    apply index_middle. }
  assert (index (pre ++ [p; q]) (length (pre ++ [p; q]) - 2) = Returns p)
    as Hhi.
  { replace (length (pre ++ [p; q]) - 2) with (length pre)
      by (rewrite !length_app; simpl; lia).
    apply index_middle. }
  assert (slice (pre ++ [p; q]) 0 (length (pre ++ [p; q]) - 2) = Returns pre)
    as Hpre.
  { replace (length (pre ++ [p; q]) - 2) with (length pre)
      by (rewrite !length_app; simpl; lia).
    apply slice_prefix. }
  unfold DecodeName_general. rewrite Hlast. cbn [obind].
  destruct (N.eqb_spec q 0) as [|_]; [done|].
  rewrite Hpre, Hhi. cbn [obind fst snd]. done.
Qed.

Lemma pointer_offset_pos p q : q <> 0%N -> pointer_offset p q <> 0.
Proof. unfold pointer_offset. lia. Qed.

Lemma encode_labels_app ls ls' :
  encode_labels (ls ++ ls') = encode_labels ls ++ encode_labels ls'.
Proof. unfold encode_labels. apply flat_map_app. Qed.

(** X18. A name without a pointer, labels followed by the zero byte, is
    decoded to the labels joined by dots, appended to the destination,
    whatever the message and without entering the pointer loop. The name
    is not one that starts with the bytes 0xC0 and 12, which the fast path
    takes for the pointer to the question. *)
Theorem DecodeName_literal hops msg spare dst labels :
  Forall (fun l => l <> []) labels ->
  ~ question_pointer_prefix (encode_labels labels ++ [0%N]) ->
  DecodeName hops msg spare dst (encode_labels labels ++ [0%N])
  = Returns (dst ++ dot_join labels).
Proof.
  intros Hne Hfast.
  destruct labels as [|l ls].
  { simpl. by rewrite app_nil_r. }
  rewrite DecodeName_not_fast; [|rewrite length_app; simpl; lia|done].
  rewrite DecodeName_general_literal. cbn zeta.
  by apply undot_labels.
Qed.

Lemma DecodeName_literal_a_com :
  DecodeName 0 zero_message [] [] (encode_labels a_com_labels ++ [0%N])
  = Returns ([] ++ dot_join a_com_labels).
Proof.
  apply (DecodeName_literal 0 zero_message [] [] a_com_labels).
  - repeat constructor; done.
  - intros [H _]. vm_compute in H. discriminate H.
Defined.

(** X19. A name that is labels followed by a pointer to an offset of
    Raw where labels and a zero byte stand is decoded to all the labels,
    those of the name and then those at the offset, joined by dots. One
    round of the pointer loop is enough. *)
Theorem DecodeName_one_pointer hops msg spare dst labels p q before target
    after :
  1 <= hops ->
  Forall (fun l => l <> []) labels ->
  ~ question_pointer_prefix (encode_labels labels ++ [p; q]) ->
  q <> 0%N ->
  Raw msg = before ++ encode_labels target ++ 0%N :: after ->
  pointer_offset p q = length before ->
  Forall plain_label target ->
  labels ++ target <> [] ->
  DecodeName hops msg spare dst (encode_labels labels ++ [p; q])
  = Returns (dst ++ dot_join (labels ++ target)).
Proof.
  intros Hhops Hne Hfast Hq Hraw Hoff Hplain Hsome.
  rewrite DecodeName_not_fast; [|rewrite length_app; simpl; lia|done].
  rewrite DecodeName_general_pointer by done.
  rewrite Hraw, Hoff.
  rewrite chase_pointers_labels; [|done| |done].
  2:{ intros ->. by apply (pointer_offset_pos p q). }
  cbn [obind].
  rewrite <- (app_assoc dst), (app_assoc (encode_labels labels)),
    <- encode_labels_app.
  apply undot_labels; [done|].
  apply Forall_app. split; [done|].
  eapply Forall_impl; [exact Hplain|]. by intros l [? _].
Qed.

Lemma DecodeName_www_example_com :
  DecodeName 1 example_com_response [] []
             (encode_labels [bytes_of_string "www"] ++ [192; 12]%N)
  = Returns ([] ++ dot_join ([bytes_of_string "www"]
                             ++ [bytes_of_string "example";
                                 bytes_of_string "com"])).
Proof.
  apply (DecodeName_one_pointer 1 example_com_response [] []
           [bytes_of_string "www"] 192 12
           (take 12 (Raw example_com_response))
           [bytes_of_string "example"; bytes_of_string "com"]
           (drop 25 (Raw example_com_response))).
  - lia.
  - repeat constructor; done.
  - intros [H _]. vm_compute in H. discriminate H.
  - done.
  - reflexivity.
  - reflexivity.
  - repeat constructor; (done || (vm_compute; discriminate)).
  - done.
Defined.

(** X20. A name that is just a pointer to a zero byte of Raw, the root
    name, makes DecodeName panic: the decoded name has no leading dot to
    cut, and the slice expression [dst[n+1:len(dst)-1]] has its bounds
    out of order. *)
Theorem DecodeName_pointer_to_root_panics hops msg spare dst p q before after :
  1 <= hops ->
  ~ question_pointer_prefix [p; q] ->
  q <> 0%N ->
  Raw msg = before ++ 0%N :: after ->
  pointer_offset p q = length before ->
  DecodeName hops msg spare dst [p; q] = Panics SliceBoundsOutOfRange.
Proof.
  intros Hhops Hfast Hq Hraw Hoff.
  rewrite DecodeName_not_fast; [|simpl; lia|done].
  change (DecodeName_general hops msg spare dst [p; q])
    with (DecodeName_general hops msg spare dst ([] ++ [p; q])).
  rewrite DecodeName_general_pointer by done.
  rewrite Hraw, Hoff, app_nil_r.
  pose proof (chase_pointers_labels hops before [] after spare dst) as Hchase.
  cbn [encode_labels flat_map app] in Hchase.
  rewrite Hchase; [|done| |constructor].
  2:{ intros ->. by apply (pointer_offset_pos p q). }
  cbn [obind].
  destruct (length (dst ++ [0%N])) eqn:Hlen;
    [rewrite length_app in Hlen; simpl in Hlen; lia|].
  cbn [dots_in_place]. rewrite list_lookup_middle by done.
  cbn [N.eqb obind]. unfold slice. rewrite length_app. cbn [length].
  destruct (Nat.leb_spec (length dst + 1) (length dst + 1 - 1)); [lia|].
  done.
Qed.

Lemma DecodeName_pointer_to_root_example :
  DecodeName 1 example_com_message [] [] [192; 24]%N
  = Panics SliceBoundsOutOfRange.
Proof.
  apply (DecodeName_pointer_to_root_panics 1 example_com_message [] [] 192 24
           (take 24 example_com_query) (drop 25 example_com_query)).
  - lia.
  - intros [_ H]. discriminate H.
  - done.
  - reflexivity.
  - reflexivity.
Defined.

(** X21. A name that ends in a pointer to an offset at or past the end
    of Raw makes DecodeName loop forever: the inner loop does not run and
    the offset stays as it is. No number of rounds is enough. *)
Theorem DecodeName_pointer_out_of_range hops msg spare dst labels p q :
  ~ question_pointer_prefix (encode_labels labels ++ [p; q]) ->
  q <> 0%N ->
  length (Raw msg) <= pointer_offset p q ->
  DecodeName hops msg spare dst (encode_labels labels ++ [p; q]) = OutOfFuel.
Proof.
  intros Hfast Hq Hout.
  rewrite DecodeName_not_fast; [|rewrite length_app; simpl; lia|done].
  rewrite DecodeName_general_pointer by done.
  pose proof (pointer_offset_pos p q Hq) as Hpos.
  generalize (dst ++ encode_labels labels). intros out.
  assert (chase_pointers hops (Raw msg) spare (pointer_offset p q) out
          = OutOfFuel) as ->; [|done].
  induction hops as [|hops IH]; rewrite chase_pointers_unfold;
    (destruct (Nat.eqb_spec (pointer_offset p q) 0) as [|_]; [done|]);
    [done|].
  rewrite chase_labels_unfold.
  destruct (Nat.leb_spec (length (Raw msg)) (pointer_offset p q)) as [_|];
    [|lia].
  cbn [obind fst snd]. exact IH.
Qed.

Lemma DecodeName_pointer_out_of_range_example :
  DecodeName 1000 example_com_message [] [] (encode_labels [] ++ [192; 29]%N)
  = OutOfFuel.
Proof.
  apply (DecodeName_pointer_out_of_range 1000 example_com_message [] [] []
           192 29).
  - intros [_ H]. discriminate H.
  - done.
  - vm_compute. lia.
Defined.

(** X22. A name that ends in a pointer to an offset of Raw where a
    pointer to this same offset stands makes DecodeName loop forever. *)
Theorem DecodeName_pointer_cycle hops msg spare dst labels p q b b1 :
  ~ question_pointer_prefix (encode_labels labels ++ [p; q]) ->
  q <> 0%N ->
  Raw msg !! pointer_offset p q = Some b ->
  Raw msg !! (pointer_offset p q + 1) = Some b1 ->
  N.land b 192 = 192%N ->
  pointer_offset b b1 = pointer_offset p q ->
  DecodeName hops msg spare dst (encode_labels labels ++ [p; q]) = OutOfFuel.
Proof.
  intros Hfast Hq Hb Hb1 Hptr Hself.
  rewrite DecodeName_not_fast; [|rewrite length_app; simpl; lia|done].
  rewrite DecodeName_general_pointer by done.
  pose proof (pointer_offset_pos p q Hq) as Hpos.
  generalize (dst ++ encode_labels labels). intros out.
  assert (chase_pointers hops (Raw msg) spare (pointer_offset p q) out
          = OutOfFuel) as ->; [|done].
  induction hops as [|hops IH]; rewrite chase_pointers_unfold;
    (destruct (Nat.eqb_spec (pointer_offset p q) 0) as [|_]; [done|]);
    [done|].
  rewrite chase_labels_unfold.
  apply lookup_lt_Some in Hb as Hlt.
  destruct (Nat.leb_spec (length (Raw msg)) (pointer_offset p q)) as [|_];
    [lia|].
  unfold index. rewrite Hb, Hb1. cbn [obind].
  destruct (N.eqb_spec b 0) as [->|_]; [done|].
  rewrite Hptr. cbn [N.eqb Pos.eqb obind fst snd]. rewrite Hself. exact IH.
Qed.

Lemma DecodeName_pointer_cycle_example :
  DecodeName 1000 self_pointer_message [] [] (encode_labels [] ++ [192; 19]%N)
  = OutOfFuel.
Proof.
  apply (DecodeName_pointer_cycle 1000 self_pointer_message [] [] [] 192 19
           192 19).
  - intros [_ H]. discriminate H.
  - done.
  - reflexivity.
  - reflexivity.
  - reflexivity.
  - reflexivity.
Defined.

Lemma encode_labels_inj ls : forall ls',
  encode_labels ls = encode_labels ls' -> ls = ls'.
Proof.
  induction ls as [|l ls IH]; intros [|l' ls'] Heq; try done.
  rewrite !encode_labels_cons in Heq. injection Heq as Hlen Heq.
  apply Nat2N.inj in Hlen. apply app_inj_1 in Heq as [-> Heq]; [|done].
  by rewrite (IH ls' Heq).
Qed.

Lemma dot_join_app ls ls' :
  ls <> [] -> ls' <> [] ->
  dot_join (ls ++ ls') = dot_join ls ++ dot :: dot_join ls'.
Proof.
  intros Hls Hls'. destruct ls as [|l ls]; [done|].
  change ((l :: ls) ++ ls') with (l :: ls ++ ls').
  rewrite !dot_join_cons. unfold dotted at 1. rewrite flat_map_app.
  fold (dotted ls) (dotted ls'). rewrite (dotted_dot_join ls') by done.
  by rewrite <- app_assoc.
Qed.

(** X23. Parsing and decoding. On a message parsed from the packet in
    its Raw, with a question name free of pointers, a name that is labels
    followed by the pointer to offset 12 is decoded to the labels, a dot
    and the Domain of the message. *)
Theorem DecodeName_suffix_of_question alias dst0 packet copying msg spare out hops
    labels :
  ParseMessage alias dst0 packet copying = Returns (msg, None) ->
  Raw msg = packet ->
  pointer_free (name_bytes msg) = true ->
  1 <= hops ->
  labels <> [] ->
  Forall (fun l => l <> []) labels ->
  ~ question_pointer_prefix (encode_labels labels ++ [192; 12]%N) ->
  DecodeName hops msg spare out (encode_labels labels ++ [192; 12]%N)
  = Returns (out ++ dot_join labels ++ dot :: Domain msg).
Proof.
  intros Hparse Hraw Hfree Hhops Hsome Hne Hfast.
  destruct (ParseMessage_cases alias dst0 packet copying)
    as [[_ Hrun]|[(_ & _ & _ & Hrun)
       |[(Hlen & _ & qlabels & rest & Hlab & Hrun)|(_ & _ & _ & Hrun)]]];
    rewrite Hrun in Hparse; try discriminate Hparse.
  injection Hparse as <-.
  destruct Hlab as (Hqne & Hok & Hq & Hrest).
  unfold parsed_message, name_bytes in *.
  cbn [Raw Domain Question Name default from_option id] in *.
  apply pointer_free_labels in Hfree as (plain & Hplain_eq & Hplain);
    [|by apply encode_labels_nonzero].
  rewrite drop_0 in Hplain_eq. apply app_inj_tail in Hplain_eq as [Henc _].
  apply encode_labels_inj in Henc. subst plain.
  rewrite DecodeName_not_fast; [|rewrite length_app; simpl; lia|done].
  rewrite DecodeName_general_pointer by done.
  cbn [Raw]. rewrite Hraw.
  rewrite <- (take_drop 12 packet) at 1. rewrite Hq.
  change (pointer_offset 192 12) with 12.
  replace 12 with (length (take 12 packet)) at 2
    by (rewrite length_take; lia).
  rewrite chase_pointers_labels; [|done| |done].
  2:{ intros E. apply (f_equal length) in E. rewrite length_take in E.
      cbn [length] in E. lia. }
  cbn [obind].
  rewrite <- (app_assoc out), (app_assoc (encode_labels labels)),
    <- encode_labels_app, <- dot_join_app by done.
  apply undot_labels.
  - by destruct labels.
  - apply Forall_app. split; [done|].
    eapply Forall_impl; [exact Hplain|]. by intros l [? _].
Qed.

Lemma DecodeName_www_of_question :
  DecodeName 1 example_com_message [] []
             (encode_labels [bytes_of_string "www"] ++ [192; 12]%N)
  = Returns ([] ++ dot_join [bytes_of_string "www"]
                ++ dot :: Domain example_com_message).
Proof.
  apply (DecodeName_suffix_of_question Detached zero_message example_com_query true
           example_com_message [] [] 1 [bytes_of_string "www"]).
  - reflexivity.
  - reflexivity.
  - reflexivity.
  - lia.
  - done.
  - repeat constructor; done.
  - intros [H _]. vm_compute in H. discriminate H.
Defined.

(** The inner loop walks over labels that lie within Raw. *)
Lemma chase_labels_skip labels : forall fuel pre rest spare offset dst,
  Forall plain_label labels ->
  chase_labels (length labels + fuel) (pre ++ encode_labels labels ++ rest)
               spare offset (length pre) dst
  = chase_labels fuel (pre ++ encode_labels labels ++ rest) spare offset
                 (length (pre ++ encode_labels labels))
                 (dst ++ encode_labels labels).
Proof.
  induction labels as [|l labels IH];
    intros fuel pre rest spare offset dst Hl.
  { simpl. by rewrite !app_nil_r. }
  inversion Hl as [|? ? [Hne Hptr] Hl']; subst.
  cbn [length Nat.add]. rewrite chase_labels_unfold.
  destruct (_ <=? _)%nat eqn:Hle.
  { apply Nat.leb_le in Hle. rewrite !length_app, encode_labels_cons in Hle.
    simpl in Hle. lia. }
  clear Hle. set (len := N.of_nat (length l)) in *.
  assert (pre ++ encode_labels (l :: labels) ++ rest
          = pre ++ len :: (l ++ encode_labels labels ++ rest)) as Hraw.
  { rewrite encode_labels_cons. simpl. by rewrite <- app_assoc. }
  rewrite Hraw, index_middle. cbn [obind].
  destruct (N.eqb_spec len 0) as [E|_].
  { subst len. destruct l; [done|]. simpl in E. lia. }
  destruct (N.eqb_spec (N.land len 192) 192) as [|_]; [done|].
  assert (slice_cap (pre ++ len :: (l ++ encode_labels labels ++ rest))
                    spare (length pre) (length pre + N.to_nat len + 1)
          = Returns (len :: l)) as ->.
  { unfold slice_cap.
    replace ((pre ++ len :: (l ++ encode_labels labels ++ rest)) ++ spare)
      with (pre ++ (len :: l) ++ (encode_labels labels ++ rest) ++ spare)
      by (rewrite <- !app_assoc; simpl; by rewrite <- !app_assoc).
    replace (length pre + N.to_nat len + 1)
      with (length pre + length (len :: l))
      by (subst len; rewrite Nat2N.id; simpl; lia).
    apply slice_middle. }
  cbn [obind].
  specialize (IH fuel (pre ++ len :: l) rest spare offset
                 (dst ++ len :: l) Hl').
  rewrite length_app in IH. simpl in IH.
  rewrite <- !app_assoc in IH. simpl in IH.
  replace (length pre + N.to_nat len + 1) with (length pre + S (length l))
    by (subst len; rewrite Nat2N.id; lia).
  rewrite IH. rewrite encode_labels_cons.
  f_equal;
    first [ done
          | rewrite !length_app; simpl; rewrite ?length_app; lia
          | by rewrite <- !app_assoc ].
Qed.

(** One round of the pointer loop over a Raw that ends inside a label. *)
Lemma chase_labels_cut_label before target b tail spare offset dst :
  Forall plain_label target ->
  b <> 0%N -> N.land b 192 <> 192%N ->
  length tail < N.to_nat b ->
  let raw := before ++ encode_labels target ++ b :: tail in
  chase_labels (length raw) raw spare offset (length before) dst
  = if (N.to_nat b <=? length tail + length spare)%nat
    then Returns (offset,
                  dst ++ encode_labels target
                      ++ take (Datatypes.S (N.to_nat b)) (b :: tail ++ spare))
    else Panics SliceBoundsOutOfRange.
Proof.
  intros Hplain Hb Hptr Hcut raw.
  pose proof (length_labels_le_encode target) as Hle.
  assert (length raw = length before + length (encode_labels target)
                       + Datatypes.S (length tail)) as Hlen.
  { unfold raw. rewrite !length_app. simpl. lia. }
  replace (length raw)
    with (length target + Datatypes.S (length raw - length target - 1))
    at 1 by lia.
  unfold raw at 1 2. rewrite chase_labels_skip by done. fold raw.
  rewrite chase_labels_unfold.
  destruct (Nat.leb_spec (length raw)
                         (length (before ++ encode_labels target)))
    as [Hbad|_]; [rewrite length_app in Hbad; lia|].
  assert (raw = (before ++ encode_labels target) ++ b :: tail) as Hraw
    by (unfold raw; by rewrite <- app_assoc).
  rewrite Hraw at 1. rewrite index_middle. cbn [obind].
  destruct (N.eqb_spec b 0) as [|_]; [done|].
  destruct (N.eqb_spec (N.land b 192) 192) as [|_]; [done|].
  unfold slice_cap, slice.
  set (P := before ++ encode_labels target) in *.
  assert (raw ++ spare = P ++ (b :: tail ++ spare)) as ->
    by (rewrite Hraw, <- app_assoc; done).
  rewrite drop_app_length, (length_app P). cbn [length]. rewrite length_app.
  replace (length P + N.to_nat b + 1 - length P)
    with (Datatypes.S (N.to_nat b)) by lia.
  assert (length P = length before + length (encode_labels target)) as HP
    by (unfold P; by rewrite length_app).
  destruct (Nat.leb_spec (length P) (length P + N.to_nat b + 1)) as [_|];
    [|lia].
  cbn [andb].
  destruct (Nat.leb_spec (N.to_nat b) (length tail + length spare))
    as [Hfit|Hover].
  - destruct (Nat.leb_spec (length P + N.to_nat b + 1)
                (length P + Datatypes.S (length tail + length spare)))
      as [_|]; [|lia].
    cbn [obind]. rewrite chase_labels_unfold.
    destruct (Nat.leb_spec (length raw) (length P + N.to_nat b + 1))
      as [_|Hbad]; [|lia].
    by rewrite <- app_assoc.
  - destruct (Nat.leb_spec (length P + N.to_nat b + 1)
                (length P + Datatypes.S (length tail + length spare)))
      as [|_]; [lia|].
    done.
Qed.

(** X24. When the labels at the offset a name points to run past the
    end of Raw, DecodeName does not return. If the cut label still lies
    within the capacity of Raw, the bytes behind the end of Raw are
    copied, the inner loop is left with the offset as it was, and the
    outer loop never ends; if the label reaches past the capacity, the
    slice expression [msg.Raw[i:i+b+1]] panics. *)
Theorem DecodeName_cut_label msg spare dst labels p q before target b tail :
  ~ question_pointer_prefix (encode_labels labels ++ [p; q]) ->
  q <> 0%N ->
  Raw msg = before ++ encode_labels target ++ b :: tail ->
  pointer_offset p q = length before ->
  Forall plain_label target ->
  b <> 0%N -> N.land b 192 <> 192%N ->
  length tail < N.to_nat b ->
  (N.to_nat b <= length tail + length spare ->
   forall hops,
     DecodeName hops msg spare dst (encode_labels labels ++ [p; q])
     = OutOfFuel)
  /\ (length tail + length spare < N.to_nat b ->
      forall hops, 1 <= hops ->
        DecodeName hops msg spare dst (encode_labels labels ++ [p; q])
        = Panics SliceBoundsOutOfRange).
Proof.
  intros Hfast Hq Hraw Hoff Hplain Hb Hptr Hcut.
  pose proof (pointer_offset_pos p q Hq) as Hpos.
  pose proof (chase_labels_cut_label before target b tail spare
                (length before)) as Hround.
  cbn zeta in Hround. rewrite <- Hraw in Hround.
  split.
  - intros Hfit hops.
    rewrite DecodeName_not_fast; [|rewrite length_app; simpl; lia|done].
    rewrite DecodeName_general_pointer by done.
    rewrite Hoff.
    generalize (dst ++ encode_labels labels). intros out.
    assert (chase_pointers hops (Raw msg) spare (length before) out
            = OutOfFuel) as ->; [|done].
    revert out. induction hops as [|hops IH]; intros out;
      rewrite chase_pointers_unfold;
      (destruct (Nat.eqb_spec (length before) 0) as [|_]; [lia|]);
      [done|].
    rewrite Hround by done.
    destruct (Nat.leb_spec (N.to_nat b) (length tail + length spare))
      as [_|]; [|lia].
    cbn [obind fst snd]. apply IH.
  - intros Hover hops Hhops.
    rewrite DecodeName_not_fast; [|rewrite length_app; simpl; lia|done].
    rewrite DecodeName_general_pointer by done.
    rewrite Hoff, chase_pointers_unfold.
    destruct (Nat.eqb_spec (length before) 0) as [|_]; [lia|].
    destruct hops as [|hops]; [lia|].
    rewrite Hround by done.
    destruct (Nat.leb_spec (N.to_nat b) (length tail + length spare))
      as [|_]; [lia|].
    done.
Qed.

Lemma DecodeName_cut_label_example :
  (N.to_nat 3 <= length [99%N] + length [0; 0; 0]%N ->
   forall hops,
     DecodeName hops cut_label_message [0; 0; 0]%N []
                (encode_labels [] ++ [192; 20]%N) = OutOfFuel)
  /\ (length [99%N] + length [0; 0; 0]%N < N.to_nat 3 ->
      forall hops, 1 <= hops ->
        DecodeName hops cut_label_message [0; 0; 0]%N []
                   (encode_labels [] ++ [192; 20]%N)
        = Panics SliceBoundsOutOfRange).
Proof.
  apply (DecodeName_cut_label cut_label_message [0; 0; 0]%N [] [] 192 20
           (take 20 example_com_query) [] 3 [99%N]).
  - intros [_ H]. discriminate H.
  - done.
  - reflexivity.
  - reflexivity.
  - constructor.
  - done.
  - vm_compute. discriminate.
  - simpl. lia.
Defined.

(** X25. When the labels at the offset a name points to are followed
    by a pointer byte that is the last byte of Raw, the read
    [msg.Raw[i+1]] is out of range and DecodeName panics. *)
Theorem DecodeName_cut_pointer hops msg spare dst labels p q before target b :
  1 <= hops ->
  ~ question_pointer_prefix (encode_labels labels ++ [p; q]) ->
  q <> 0%N ->
  Raw msg = before ++ encode_labels target ++ [b] ->
  pointer_offset p q = length before ->
  Forall plain_label target ->
  N.land b 192 = 192%N ->
  DecodeName hops msg spare dst (encode_labels labels ++ [p; q])
  = Panics IndexOutOfRange.
Proof.
  intros Hhops Hfast Hq Hraw Hoff Hplain Hptr.
  pose proof (pointer_offset_pos p q Hq) as Hpos.
  rewrite DecodeName_not_fast; [|rewrite length_app; simpl; lia|done].
  rewrite DecodeName_general_pointer by done.
  rewrite Hoff, chase_pointers_unfold.
  destruct (Nat.eqb_spec (length before) 0) as [|_]; [lia|].
  destruct hops as [|hops]; [lia|].
  pose proof (length_labels_le_encode target) as Hle.
  assert (length (Raw msg) = length before + length (encode_labels target) + 1)
    as Hlen by (rewrite Hraw, !length_app; simpl; lia).
  replace (length (Raw msg))
    with (length target + Datatypes.S (length (Raw msg) - length target - 1))
    at 1 by lia.
  rewrite Hraw at 1 2. rewrite chase_labels_skip by done.
  rewrite chase_labels_unfold, <- Hraw.
  destruct (Nat.leb_spec (length (Raw msg))
                         (length (before ++ encode_labels target)))
    as [Hbad|_]; [rewrite length_app in Hbad; lia|].
  assert (Raw msg = (before ++ encode_labels target) ++ [b]) as Hraw'
    by (by rewrite Hraw, <- app_assoc).
  rewrite Hraw' at 1. rewrite index_middle. cbn [obind].
  destruct (N.eqb_spec b 0) as [->|_]; [done|].
  rewrite Hptr. cbn [N.eqb Pos.eqb].
  unfold index. rewrite lookup_ge_None_2; [done|].
  rewrite length_app in *. lia.
Qed.

Lemma DecodeName_cut_pointer_example :
  DecodeName 1 cut_pointer_message [] []
             (encode_labels [bytes_of_string "www"] ++ [192; 12]%N)
  = Panics IndexOutOfRange.
Proof.
  apply (DecodeName_cut_pointer 1 cut_pointer_message [] []
           [bytes_of_string "www"] 192 12 (take 12 example_com_query) []
           192).
  - lia.
  - intros [H _]. vm_compute in H. discriminate H.
  - done.
  - reflexivity.
  - reflexivity.
  - constructor.
  - reflexivity.
Defined.

(** ** VisitResourceRecords: short and truncated answer sections *)

Lemma visit_records_prefix {S} records : forall count rest (f : callback S) s,
  Forall wire_record records ->
  (N.of_nat (length (flat_map encode_record records)) < 65536)%N ->
  visit_records (length records + count)
                (flat_map encode_record records ++ rest) f s
  = if never_stops f records s
    then visit_records count rest f (deliver f records s)
    else Returns (None, deliver f records s).
Proof.
  induction records as [|r records IH]; intros count rest f s Hwire Hsize;
    [done|].
  inversion Hwire as [|? ? Hr Hwire']; subst.
  cbn [flat_map] in *. rewrite length_app, length_encode_record in Hsize.
  cbn [length deliver never_stops Nat.add]. rewrite <- app_assoc.
  rewrite visit_record_step by (done || lia). cbn zeta.
  destruct (fst _); [|done]. cbn [andb].
  apply IH; [done|lia].
Qed.

(** The walk of VisitResourceRecords over the records at the start of the
    answer section. *)
Lemma VisitResourceRecords_prefix {S} msg records rest (f : callback S) s :
  answers_then msg records rest ->
  ANCount (Header msg) <> 0%N ->
  VisitResourceRecords msg f s
  = if never_stops f records s
    then visit_records (N.to_nat (ANCount (Header msg)) - length records)
                       rest f (deliver f records s)
    else Returns (None, deliver f records s).
Proof.
  intros (Hwire & Hcount & Hsize & question & Hraw & Hq) Hsome.
  unfold VisitResourceRecords.
  destruct (N.eqb_spec (ANCount (Header msg)) 0) as [|_]; [done|].
  rewrite <- Hq, Hraw, slice_from_app. cbn [obind].
  replace (N.to_nat (ANCount (Header msg)))
    with (length records
          + (N.to_nat (ANCount (Header msg)) - length records)) at 1 by lia.
  apply visit_records_prefix; [done|].
  rewrite Hraw, !length_app in Hsize. lia.
Qed.

Lemma find_name_label_bytes rest j :
  Forall label_byte rest -> find_name rest j = None.
Proof.
  intros H. rewrite <- (app_nil_r rest). by rewrite find_name_skip.
Qed.

Lemma be16_lt hi lo : (be16 hi lo < 65536)%N.
Proof.
  unfold be16, to_uint16. change 65536%N with (2 ^ 16)%N.
  rewrite <- !N.land_ones, <- N.land_lor_distr_l, N.land_ones.
  by apply N.mod_lt.
Qed.

(** The sum [10+length] wraps around in [uint16]: the upper bound of the
    slice expression is below its lower bound. *)
Lemma visit_records_rdlength_wraps {S} count payload k t0 t1 c0 c1 l0 l1 l2 l3
    r0 r1 rdata (f : callback S) s :
  find_name payload 0 = Some k ->
  k <= length payload ->
  drop k payload = [t0; t1; c0; c1; l0; l1; l2; l3; r0; r1] ++ rdata ->
  (65536 <= 10 + be16 r0 r1)%N ->
  visit_records (Datatypes.S count) payload f s = Panics SliceBoundsOutOfRange.
Proof.
  intros Hname Hk Hdrop Hwrap. rewrite visit_records_unfold, Hname.
  unfold slice at 1, slice_from at 1. cbn [Nat.leb].
  destruct (Nat.leb_spec k (length payload)) as [_|]; [|lia].
  cbn [andb obind]. rewrite Hdrop.
  cbn [app index lookup list_lookup obind].
  pose proof (be16_lt r0 r1) as Hlt.
  assert (to_uint16 (10 + be16 r0 r1) < 10)%N as Hhi
    by (unfold to_uint16; lia_div).
  unfold slice.
  destruct (Nat.leb_spec 10 (N.to_nat (to_uint16 (10 + be16 r0 r1))))
    as [|_]; [lia|].
  done.
Qed.

(** X26. When the answer section holds fewer records than ANCOUNT says,
    and behind them no byte that ends a name, the callback is handed the
    records that are there, in order, until it answers false; if it never
    does, VisitResourceRecords returns ErrInvalidAnswer, and otherwise it
    returns without error. *)
Theorem VisitResourceRecords_fewer_records {S} msg records rest
    (f : callback S) s :
  answers_then msg records rest ->
  (N.of_nat (length records) < ANCount (Header msg))%N ->
  Forall label_byte rest ->
  VisitResourceRecords msg f s
  = Returns (if never_stops f records s then Some ErrInvalidAnswer else None,
             deliver f records s).
Proof.
  intros Hthen Hmore Hrest.
  rewrite (VisitResourceRecords_prefix msg records rest) by (done || lia).
  destruct (never_stops f records s); [|done].
  destruct (N.to_nat (ANCount (Header msg)) - length records) as [|count]
    eqn:Hcount; [lia|].
  by rewrite visit_records_unfold, find_name_label_bytes.
Qed.

Lemma VisitResourceRecords_fewer_records_example :
  VisitResourceRecords two_answers_claimed log_call []
  = Returns (if never_stops log_call [example_com_answer] []
             then Some ErrInvalidAnswer else None,
             deliver log_call [example_com_answer] []).
Proof.
  apply (VisitResourceRecords_fewer_records two_answers_claimed
           [example_com_answer] [] log_call []).
  - split; [repeat constructor; simpl; lia|].
    split; [vm_compute; discriminate|].
    split; [vm_compute; discriminate|].
    exists (take 29 (Raw two_answers_claimed)). split; reflexivity.
  - reflexivity.
  - constructor.
Defined.

(** X27. When the callback answers false at one of the records the
    answer section starts with, VisitResourceRecords returns without
    error and reads nothing behind that record, whatever bytes follow and
    whatever ANCOUNT says. *)
Theorem VisitResourceRecords_stops_early {S} msg records rest
    (f : callback S) s :
  answers_then msg records rest ->
  records <> [] ->
  never_stops f records s = false ->
  VisitResourceRecords msg f s = Returns (None, deliver f records s).
Proof.
  intros Hthen Hne Hstop.
  rewrite (VisitResourceRecords_prefix msg records rest), Hstop; [done..|].
  destruct Hthen as (_ & Hcount & _). destruct records; [done|].
  simpl in Hcount. lia.
Qed.

Lemma VisitResourceRecords_stops_early_example :
  VisitResourceRecords example_com_response (log_until 1) []
  = Returns (None, deliver (log_until 1) [example_com_answer] []).
Proof.
  apply (VisitResourceRecords_stops_early example_com_response
           [example_com_answer] [] (log_until 1) []).
  - split; [repeat constructor; simpl; lia|].
    split; [vm_compute; discriminate|].
    split; [vm_compute; discriminate|].
    exists (take 29 (Raw example_com_response)). split; reflexivity.
  - done.
  - reflexivity.
Defined.

(** X28. When, behind the records the callback has accepted, a further
    record has its name and fewer than the ten bytes of TYPE, CLASS, TTL
    and RDLENGTH, VisitResourceRecords panics: one of the ten reads is out
    of range. *)
Theorem VisitResourceRecords_truncated_fields {S} msg records name fields
    (f : callback S) s :
  answers_then msg records (name ++ fields) ->
  (N.of_nat (length records) < ANCount (Header msg))%N ->
  record_name name ->
  length fields < 10 ->
  never_stops f records s = true ->
  VisitResourceRecords msg f s = Panics IndexOutOfRange.
Proof.
  intros Hthen Hmore Hname Hshort Hgo.
  rewrite (VisitResourceRecords_prefix msg records (name ++ fields)), Hgo
    by (done || lia).
  destruct (N.to_nat (ANCount (Header msg)) - length records) as [|count]
    eqn:Hcount; [lia|].
  apply (visit_records_short_fields _ _ (length name)).
  - by rewrite (find_name_record_name name fields Hname 0).
  - rewrite length_app. lia.
Qed.

Lemma VisitResourceRecords_truncated_fields_example :
  VisitResourceRecords truncated_fields_message log_call []
  = Panics IndexOutOfRange.
Proof.
  apply (VisitResourceRecords_truncated_fields truncated_fields_message []
           [192; 12]%N [0; 1; 0; 1; 0; 0; 1; 44; 0]%N log_call []).
  - split; [constructor|].
    split; [vm_compute; discriminate|].
    split; [vm_compute; discriminate|].
    exists (take 29 (Raw truncated_fields_message)). split; reflexivity.
  - reflexivity.
  - by apply name_pointer.
  - simpl. lia.
  - reflexivity.
Defined.

(** X29. When, behind the records the callback has accepted, a further
    record has its name and its ten fixed bytes but fewer bytes of RDATA
    than RDLENGTH says, VisitResourceRecords panics with a slice out of
    bounds, also when [10+length] wraps around in [uint16]. *)
Theorem VisitResourceRecords_truncated_rdata {S} msg records name
    t0 t1 c0 c1 l0 l1 l2 l3 r0 r1 rdata (f : callback S) s :
  answers_then msg records
               (name ++ [t0; t1; c0; c1; l0; l1; l2; l3; r0; r1] ++ rdata) ->
  (N.of_nat (length records) < ANCount (Header msg))%N ->
  record_name name ->
  length rdata < N.to_nat (be16 r0 r1) ->
  never_stops f records s = true ->
  VisitResourceRecords msg f s = Panics SliceBoundsOutOfRange.
Proof.
  intros Hthen Hmore Hname Hshort Hgo.
  rewrite (VisitResourceRecords_prefix msg records _ f s Hthen), Hgo by lia.
  destruct (N.to_nat (ANCount (Header msg)) - length records) as [|count]
    eqn:Hcount; [lia|].
  pose proof (find_name_record_name name
                ([t0; t1; c0; c1; l0; l1; l2; l3; r0; r1] ++ rdata) Hname 0)
    as Hfind.
  destruct (N.lt_ge_cases (10 + be16 r0 r1) 65536) as [Hfit|Hwrap].
  - apply (visit_records_short_rdata _ _ (length name)
             t0 t1 c0 c1 l0 l1 l2 l3 r0 r1 rdata); try done.
    + rewrite length_app. lia.
    + by rewrite drop_app_length.
  - apply (visit_records_rdlength_wraps _ _ (length name)
             t0 t1 c0 c1 l0 l1 l2 l3 r0 r1 rdata); try done.
    + rewrite length_app. lia.
    + by rewrite drop_app_length.
Qed.

Lemma VisitResourceRecords_truncated_rdata_example :
  VisitResourceRecords truncated_rdata_message log_call []
  = Panics SliceBoundsOutOfRange.
Proof.
  apply (VisitResourceRecords_truncated_rdata truncated_rdata_message []
           [192; 12]%N 0 1 0 1 0 0 1 44 0 4 [8; 8]%N log_call []).
  - split; [constructor|].
    split; [vm_compute; discriminate|].
    split; [vm_compute; discriminate|].
    exists (take 29 (Raw truncated_rdata_message)). split; reflexivity.
  - reflexivity.
  - by apply name_pointer.
  - vm_compute. lia.
  - reflexivity.
Defined.

(** X30. Parsing and visiting. A packet of at most 65535 bytes made of
    a header with QDCOUNT = 1 and ANCOUNT = n, a question whose labels
    are non-empty and hold no zero byte, and n records whose names are
    labels of 1 to 63 bytes, none of them zero and none with both top
    bits set, closed by the zero byte or by a two-byte pointer, is parsed
    without error by ParseMessage with copying, and VisitResourceRecords
    on the parsed message hands the n records to the callback, in order,
    until it answers false, and returns without error. *)
Theorem ParseMessage_then_VisitResourceRecords {S} alias dst id1 id2 f1 f2 an1 an2
    ns1 ns2 ar1 ar2 labels t1 t2 c1 c2 records rest (f : callback S) s :
  labels <> [] ->
  Forall label_ok labels ->
  records <> [] ->
  Forall wire_record records ->
  be16 an1 an2 = N.of_nat (length records) ->
  let packet := question_packet id1 id2 f1 f2 an1 an2 ns1 ns2 ar1 ar2 labels
                  t1 t2 c1 c2 (flat_map encode_record records ++ rest) in
  (N.of_nat (length packet) <= 65535)%N ->
  exists msg,
    ParseMessage alias dst packet true = Returns (msg, None)
    /\ VisitResourceRecords msg f s = Returns (None, deliver f records s).
Proof.
  intros Hne Hok Hsome Hwire Hcount packet Hsize. eexists.
  split; [by apply ParseMessage_question_packet|].
  fold packet.
  rewrite (VisitResourceRecords_prefix _ records rest).
  - cbn [Header ANCount]. rewrite Hcount, Nat2N.id, Nat.sub_diag.
    by destruct (never_stops f records s).
  - split; [done|]. cbn [Header ANCount Raw]. split; [lia|].
    split; [done|].
    exists ([id1; id2; f1; f2; 0; 1; an1; an2; ns1; ns2; ar1; ar2]%N
            ++ encode_labels labels ++ [0; t1; t2; c1; c2]%N).
    split.
    + unfold packet, question_packet. by rewrite <- !app_assoc.
    + unfold name_bytes. cbn [Question Name default from_option id].
      rewrite !length_app. simpl. lia.
  - cbn [Header ANCount]. rewrite Hcount. destruct records; [done|].
    simpl. lia.
Qed.

Lemma ParseMessage_then_VisitResourceRecords_example :
  exists msg,
    ParseMessage Detached zero_message
      (question_packet 0x12 0x34 0x81 0x80 0 1 0 0 0 0
         [bytes_of_string "example"; bytes_of_string "com"] 0 1 0 1
         (flat_map encode_record [example_com_answer] ++ [])) true
    = Returns (msg, None)
    /\ VisitResourceRecords msg log_call []
       = Returns (None, deliver log_call [example_com_answer] []).
Proof.
  apply (ParseMessage_then_VisitResourceRecords Detached zero_message 0x12 0x34 0x81
           0x80 0 1 0 0 0 0
           [bytes_of_string "example"; bytes_of_string "com"] 0 1 0 1
           [example_com_answer] [] log_call []).
  - done.
  - repeat constructor; (done || (simpl; lia)).
  - done.
  - repeat constructor; simpl; lia.
  - reflexivity.
  - vm_compute. discriminate.
Defined.
